(** * DynamoDbClientWrapper: table lifecycle, optimistic writes, paginated reads

    A shallow embedding of [dist/AWSUtil/DynamoDB/DynamoDbClientWrapper.js]
    and [dist/AWSUtil/DynamoDB/dynamodb-types.js].

    - A JavaScript [number] that is a property of a record or a value sent to
      the service (a version, a timestamp, an expiry, an id) is a [JsNum]: a
      double, as the integer or the dyadic fraction that it is, [NaN] or an
      infinity.  Comparisons are those of the values; [+ 1] on a fraction
      rounds to 53 bits as the doubles do, and [Number::toString] writes the
      shortest decimal that denotes the double.  Integers are not rounded:
      [n + 1] is a double for every integer [n] up to [2^53] in magnitude,
      and [PutItem] increments no other, since the marshaller refuses the
      numbers beyond the safe integers.  The clock, delays and limits are
      integers [Z].
    - [marshall] of [@aws-sdk/util-dynamodb] (3.188.0, the version the package
      pins) refuses [NaN], the infinities and the numbers beyond the safe
      integers; it is modelled where [PutItem] calls it, on the version and
      on the record.  The keys and expression values of the reads and of
      [DeleteItem] are taken as values that it accepts.
    - A JavaScript object used as a dictionary (a marshalled item, expression
      attribute names and values) is a [gmap string _].
    - An [async] method is a state-and-exception computation over a [World]:
      the storage client, the list of commands sent to it, the logger's
      records and the clock.  [await] is sequencing, [throw] is [Throw],
      [try/catch] is [try_catch].
    - Unbounded loops (the wait-for-ACTIVE poll, the page loop) and the
      recursive retry of [PutItem] take a [fuel]; a promise that has not
      settled when the fuel is spent is [Pending].
    - X-Ray subsegments are tracing only and are left out. *)

From Stdlib Require Import ZArith QArith Qround String List Bool Lia.
From stdpp Require Import base option list gmap strings fin_maps pretty.

Import ListNotations.
Local Open Scope string_scope.
Local Open Scope list_scope.

(** ** Numbers *)

(** A JavaScript [number] is a double: an integer, a dyadic fraction
    [m / 2^k] that is not an integer (so [m] is odd), [NaN], or [Infinity]
    and [-Infinity]. *)
Inductive JsNum : Type :=
| Int (n : Z)
| Frac (m : Z) (k : positive)
| NaN
| Infinity (negative : bool).

Coercion Int : Z >-> JsNum.
Bind Scope Z_scope with JsNum.

(** The order of two numbers; there is none when one of them is [NaN]. *)
Definition Num_compare (a b : JsNum) : option comparison :=
  match a, b with
  | NaN, _ | _, NaN => None
  | Infinity s, Infinity t =>
      Some (if s then (if t then Eq else Lt) else (if t then Gt else Eq))
  | Infinity s, _ => Some (if s then Lt else Gt)
  | _, Infinity t => Some (if t then Gt else Lt)
  | Int n, Int n' => Some (n ?= n')%Z
  | Int n, Frac m k => Some (n * 2 ^ Z.pos k ?= m)%Z
  | Frac m k, Int n => Some (m ?= n * 2 ^ Z.pos k)%Z
  | Frac m k, Frac m' k' => Some (m * 2 ^ Z.pos k' ?= m' * 2 ^ Z.pos k)%Z
  end.

(** [a < b] *)
Definition Num_ltb (a b : JsNum) : bool :=
  match Num_compare a b with Some Lt => true | _ => false end.

(** [a > b] *)
Definition Num_gtb (a b : JsNum) : bool := Num_ltb b a.

(** [a === b] *)
Definition Num_eqb (a b : JsNum) : bool :=
  match Num_compare a b with Some Eq => true | _ => false end.

(** The number [y / 2^k], with the fraction reduced. *)
Fixpoint dyadic (y : Z) (k : nat) : JsNum :=
  match k with
  | O => Int y
  | S k' => if Z.even y then dyadic (Z.div2 y) k' else Frac y (Pos.of_succ_nat k')
  end.

(** The double nearest to [x / 2^k], the even one of two that are as near:
    [x] keeps its 53 leading bits, and the bits below them round it. *)
Definition round53 (x : Z) (k : nat) : JsNum :=
  let a := Z.abs x in
  let d := (Z.log2 a + 1 - 53)%Z in
  if (d <=? 0)%Z then dyadic x k
  else
    let q := Z.shiftr a d in
    let r := Z.land a (Z.ones d) in
    let half := (2 ^ (d - 1))%Z in
    let q' := if (half <? r)%Z || ((r =? half)%Z && Z.odd q) then (q + 1)%Z else q in
    let y := (Z.sgn x * q')%Z in
    if (d <? Z.of_nat k)%Z then dyadic y (k - Z.to_nat d)
    else Int (y * 2 ^ (d - Z.of_nat k)).

(** [a + 1].  The sum of an integer and one is kept as it is: it is a double
    for every integer up to [2^53] in magnitude. *)
Definition Num_succ (a : JsNum) : JsNum :=
  match a with
  | Int n => Int (n + 1)
  | Frac m k => round53 (m + 2 ^ Z.pos k) (Pos.to_nat k)
  | NaN => NaN
  | Infinity s => Infinity s
  end.

(** [Math.trunc(a)] *)
Definition Math_trunc (a : JsNum) : JsNum :=
  match a with
  | Frac m k => Int (Z.quot m (2 ^ Z.pos k))
  | _ => a
  end.

Fixpoint zeros (n : nat) : string :=
  match n with
  | O => ""
  | S n' => "0" ++ zeros n'
  end.

(** The decimal [s * 10^p] with the fewest digits [s] that denotes the
    double [x]: it lies between [lo] and [hi], the midpoints to the doubles
    next to [x], which count when [closed].  Of two such decimals the one
    nearer to [x] is taken, and the even one when they are as near. *)
Fixpoint shortest (fuel : nat) (x lo hi : Q) (closed : bool) (p : Z) : Z * Z :=
  match fuel with
  | O => (0%Z, p)
  | S fuel' =>
      let unit := Qpower 10 p in
      let s := Qfloor (x / unit) in
      let inside (c : Z) :=
        let v := (inject_Z c * unit)%Q in
        if closed then Qle_bool lo v && Qle_bool v hi
        else negb (Qle_bool v lo) && negb (Qle_bool hi v) in
      match inside s, inside (s + 1)%Z with
      | true, true =>
          match (x - inject_Z s * unit ?= inject_Z (s + 1) * unit - x)%Q with
          | Lt => (s, p)
          | Gt => ((s + 1)%Z, p)
          | Eq => if Z.even s then (s, p) else ((s + 1)%Z, p)
          end
      | true, false => (s, p)
      | false, true => ((s + 1)%Z, p)
      | false, false => shortest fuel' x lo hi closed (p - 1)
      end
  end.

(** The digits and the decimal exponent of the positive double [m * 2^e],
    as [Number::toString] chooses them. *)
Definition digits_of (m e : Z) : Z * Z :=
  let e2 := (Z.log2 m + e)%Z in
  (* the exponent of the unit in the last place *)
  let u := Z.max (e2 - 52) (-1074) in
  let mantissa := if (u <=? e)%Z then (m * 2 ^ (e - u))%Z else (m / 2 ^ (u - e))%Z in
  let x := (inject_Z m * Qpower 2 e)%Q in
  let hi := (x + Qpower 2 (u - 1))%Q in
  let lo := if (mantissa =? 2 ^ 52)%Z && (-1074 <? u)%Z
            then (x - Qpower 2 (u - 2))%Q else (x - Qpower 2 (u - 1))%Q in
  let p0 := if (0 <=? e2 + 2)%Z then ((e2 + 2) / 3 + 1)%Z else ((e2 + 2) / 4 + 1)%Z in
  shortest (Z.to_nat (p0 - Z.min e 0 + 2)) x lo hi (Z.even mantissa) p0.

(** The digits [digits] with the exponent [e], as [Number::toString] writes
    a number in scientific notation: [d.ddde+x]. *)
Definition scientific (digits : string) (e : Z) : string :=
  (match digits with
   | String d rest =>
       String d (match rest with EmptyString => "" | _ => "." ++ rest end)
   | EmptyString => ""
   end)
  ++ "e" ++ (if Z.ltb e 0 then "-" else "+") ++ pretty (Z.abs_N e).

(** The digits [s] with the decimal exponent [p]: decimal notation when the
    decimal point falls at most 21 places after the first digit and 6 before
    it, scientific notation otherwise. *)
Definition decimal (s p : Z) : string :=
  let digits := pretty (Z.to_N s) in
  let k := Z.of_nat (String.length digits) in
  (* the number of digits before the decimal point *)
  let n := (k + p)%Z in
  if (k <=? n)%Z && (n <=? 21)%Z then digits ++ zeros (Z.to_nat (n - k))
  else if (0 <? n)%Z && (n <=? 21)%Z then
    substring 0 (Z.to_nat n) digits ++ "."
    ++ substring (Z.to_nat n) (Z.to_nat (k - n)) digits
  else if (-6 <? n)%Z && (n <=? 0)%Z then "0." ++ zeros (Z.to_nat (- n)) ++ digits
  else scientific digits (n - 1).

(** [Number::toString(a)] *)
Definition Num_toString (a : JsNum) : string :=
  match a with
  | Int n =>
      if (Z.abs n <? 2 ^ 53)%Z then pretty n
      else
        let '(s, p) := digits_of (Z.abs n) 0 in
        (if (n <? 0)%Z then "-" else "") ++ decimal s p
  | Frac m k =>
      let '(s, p) := digits_of (Z.abs m) (Z.neg k) in
      (if (m <? 0)%Z then "-" else "") ++ decimal s p
  | NaN => "NaN"
  | Infinity s => if s then "-Infinity" else "Infinity"
  end.

(** [Number.MAX_SAFE_INTEGER] and [Number.MIN_SAFE_INTEGER] *)
Definition MAX_SAFE_INTEGER : Z := 9007199254740991.
Definition MIN_SAFE_INTEGER : Z := (-9007199254740991)%Z.

(** ** JavaScript values and errors *)

(** [string | number | boolean]: the values of ids, ranges and attributes. *)
Inductive JsVal : Type :=
| VStr (s : string)
| VNum (n : JsNum)
| VBool (b : bool).

(** [typeof v === 'string' && v.length === 0] *)
Definition is_empty_string (v : JsVal) : bool :=
  match v with
  | VStr s => Nat.eqb (String.length s) 0
  | _ => false
  end.

(** The same test on an optional argument ([undefined] is not a string). *)
Definition is_empty_string_opt (v : option JsVal) : bool :=
  match v with
  | Some x => is_empty_string x
  | None => false
  end.

(** JavaScript truthiness of a primitive. *)
Definition truthy (v : JsVal) : bool :=
  match v with
  | VStr s => negb (Nat.eqb (String.length s) 0)
  | VNum NaN => false
  | VNum n => negb (Num_eqb n 0)
  | VBool b => b
  end.

(** Truthiness of [string | undefined]. *)
Definition truthy_str (o : option string) : bool :=
  match o with
  | Some s => negb (Nat.eqb (String.length s) 0)
  | None => false
  end.

(** Template-literal rendering of [string | undefined]. *)
Definition show_opt (o : option string) : string :=
  match o with
  | Some s => s
  | None => "undefined"
  end.

Record JsError : Type := mkError { err_name : string; err_message : string }.

(** [new Error(message)] *)
Definition Error (message : string) : JsError :=
  {| err_name := "Error"; err_message := message |}.

(** [const ArgumentError = (message) => { ... err.name = 'ArgumentError' ... }] *)
Definition ArgumentError (message : string) : JsError :=
  {| err_name := "ArgumentError"; err_message := message |}.

(** [error.name === 'ResourceNotFoundException'] *)
Definition is_ResourceNotFound (e : JsError) : bool :=
  String.eqb (err_name e) "ResourceNotFoundException".

(** ** Wire types of the storage client *)

Abbreviation AttrMap := (gmap string JsVal).

Record AttributeDefinition : Type :=
  { AttributeName : string; AttributeType : string }.

Record KeySchemaElement : Type :=
  { ks_AttributeName : string; KeyType : string }.

Record GlobalSecondaryIndex : Type :=
  { IndexName : option string;
    gsi_KeySchema : list KeySchemaElement;
    gsi_ProjectionType : option string }.

Record LocalSecondaryIndex : Type :=
  { lsi_IndexName : option string;
    lsi_KeySchema : list KeySchemaElement;
    lsi_ProjectionType : option string }.

Record TableDescription : Type :=
  { td_TableName : option string;
    td_TableStatus : option string;
    td_GlobalSecondaryIndexes : option (list GlobalSecondaryIndex) }.

Record ICreateSchemaOptions : Type :=
  { cso_BillingMode : option string;
    cso_StreamEnabled : option bool;
    cso_Tags : option (list (string * string)) }.

Record CreateTableInput : Type :=
  { cti_TableName : string;
    cti_BillingMode : string;
    cti_StreamEnabled : bool;
    cti_Tags : option (list (string * string));
    cti_AttributeDefinitions : list AttributeDefinition;
    cti_KeySchema : list KeySchemaElement;
    cti_LocalSecondaryIndexes : option (list LocalSecondaryIndex);
    cti_GlobalSecondaryIndexes : option (list GlobalSecondaryIndex) }.

Record UpdateTimeToLiveInput : Type :=
  { ttl_TableName : option string;
    ttl_Enabled : bool;
    ttl_AttributeName : string }.

(** [GlobalSecondaryIndexUpdates: [{ Delete: ... }]] or [[{ Create: ... }]]:
    the wrapper always sends a one-element array. *)
Inductive GlobalSecondaryIndexUpdate : Type :=
| Delete (name : option string)
| Create (gsi : GlobalSecondaryIndex).

Record UpdateTableInput : Type :=
  { uti_TableName : string;
    uti_AttributeDefinitions : option (list AttributeDefinition);
    uti_GlobalSecondaryIndexUpdates : list GlobalSecondaryIndexUpdate }.

Record KeyedInput : Type :=
  { ki_TableName : string;
    ki_Key : AttrMap;
    ki_ReturnValues : option string;
    ki_ConsistentRead : option bool }.

(** The input of both [QueryCommand] and [ScanCommand]. *)
Record ReadInput : Type :=
  { ri_TableName : string;
    ri_IndexName : option string;
    ri_KeyConditionExpression : option string;
    ri_FilterExpression : option string;
    ri_ExpressionAttributeValues : option AttrMap;
    ri_ExpressionAttributeNames : option (gmap string string);
    ri_Select : string;
    ri_ExclusiveStartKey : option AttrMap;
    ri_Limit : option Z;
    ri_ConsistentRead : option bool;
    ri_ScanIndexForward : option bool }.

Record ReadOutput : Type :=
  { Items : option (list AttrMap);
    LastEvaluatedKey : option AttrMap }.

Record PutItemInput : Type :=
  { pi_TableName : string;
    pi_Item : AttrMap;
    pi_ReturnValues : string;
    pi_ConditionExpression : option string;
    pi_ExpressionAttributeValues : option AttrMap }.

(** The commands given to [DynamoDbClient.send]. *)
Inductive Command : Type :=
| ListTablesCommand
| DescribeTableCommand (TableName : option string)
| CreateTableCommand (input : CreateTableInput)
| UpdateTimeToLiveCommand (input : UpdateTimeToLiveInput)
| UpdateTableCommand (input : UpdateTableInput)
| DeleteItemCommand (input : KeyedInput)
| GetItemCommand (input : KeyedInput)
| ScanCommand (input : ReadInput)
| QueryCommand (input : ReadInput)
| PutItemCommand (input : PutItemInput).

(** A settled promise of the client: an output or a rejection. *)
Definition SdkResult (A : Type) : Type := (A + JsError)%type.

(** The storage client, by the interface the wrapper consumes: each command
    kind answers with its own output shape and moves the client's state. *)
Class StorageClient (C : Type) : Type :=
  { (* ListTablesCommandOutput.TableNames *)
    listTables : C -> SdkResult (option (list string)) * C;
    (* DescribeTableCommandOutput.Table *)
    describeTable : option string -> C -> SdkResult (option TableDescription) * C;
    (* CreateTableCommandOutput.TableDescription *)
    createTable : CreateTableInput -> C -> SdkResult (option TableDescription) * C;
    (* UpdateTimeToLiveCommandOutput.TimeToLiveSpecification.Enabled *)
    updateTimeToLive : UpdateTimeToLiveInput -> C -> SdkResult (option bool) * C;
    (* UpdateTableCommandOutput.TableDescription *)
    updateTable : UpdateTableInput -> C -> SdkResult (option TableDescription) * C;
    (* DeleteItemCommandOutput.Attributes *)
    deleteItem : KeyedInput -> C -> SdkResult (option AttrMap) * C;
    (* GetItemCommandOutput.Item *)
    getItem : KeyedInput -> C -> SdkResult (option AttrMap) * C;
    scan : ReadInput -> C -> SdkResult ReadOutput * C;
    query : ReadInput -> C -> SdkResult ReadOutput * C;
    putItem : PutItemInput -> C -> SdkResult unit * C }.

(** ** The logger *)

Inductive LogLevel : Type := LError | LWarn | LInfo | LDebug.

Record LogEntry : Type :=
  { level : LogLevel; message : string; logged_error : option JsError }.

(** ** Computations *)

Inductive Outcome (A : Type) : Type :=
| Ret (a : A)
| Throw (e : JsError)
| Pending.
Arguments Ret {A} a.
Arguments Throw {A} e.
Arguments Pending {A}.

Definition M (S A : Type) : Type := S -> Outcome A * S.

Definition ret {S A} (a : A) : M S A := fun s => (Ret a, s).
Definition throw {S A} (e : JsError) : M S A := fun s => (Throw e, s).
Definition pending {S A} : M S A := fun s => (Pending, s).

Definition bind {S A B} (m : M S A) (k : A -> M S B) : M S B :=
  fun s =>
    match m s with
    | (Ret a, s') => k a s'
    | (Throw e, s') => (Throw e, s')
    | (Pending, s') => (Pending, s')
    end.

(** [try { m } catch (error) { h error }] *)
Definition try_catch {S A} (m : M S A) (h : JsError -> M S A) : M S A :=
  fun s =>
    match m s with
    | (Throw e, s') => h e s'
    | r => r
    end.

Declare Scope js_scope.
Delimit Scope js_scope with js.
Notation "x <- m ;; k" := (bind m (fun x => k))
  (at level 100, m at next level, right associativity) : js_scope.
Notation "m ;; k" := (bind m (fun _ => k))
  (at level 100, right associativity) : js_scope.
Local Open Scope js_scope.

(** ** The wrapper instance and its world *)

Record Config : Type :=
  { TablePrefix : option string;
    _debugMode : bool;
    _delayAfterCreateTable : Z }.

(** [DEFAULT_CREATE_TABLE_DELAY_AFTER_ACTIVE] *)
Definition DEFAULT_CREATE_TABLE_DELAY_AFTER_ACTIVE : Z := 5000.

Record World (C : Type) : Type :=
  { client : C;
    calls : list Command;
    logs : list LogEntry;
    now : Z }.
Arguments client {C} w.
Arguments calls {C} w.
Arguments logs {C} w.
Arguments now {C} w.

(** ** Item types ([dynamodb-types.js]) *)

(** What a class derived from [DynamoDbItem] answers about itself: the
    results of the self-describing methods of a default-constructed instance
    ([new Type()]), whether it derives from [DynamoDbVersionedItem], whether
    it derives from [DynamoDbExpiringItem] or [DynamoDbExpiringVersionedItem],
    and the data properties its own constructor sets. *)
Record ItemType : Type :=
  { BaseTableName : string;
    IdFieldName : string;
    RangeFieldName : option string;
    TTLFieldName : option string;
    AttributeDefinitions : list AttributeDefinition;
    KeySchema : list KeySchemaElement;
    LocalSecondaryIndexes : option (list LocalSecondaryIndex);
    GlobalSecondaryIndexes : option (list GlobalSecondaryIndex);
    Versioned : bool;
    Expiring : bool;
    DefaultProps : AttrMap }.

(** [DynamoDbItem.AttributeDefinitions]: the id field and, when there is a
    range field name, the range field, both of type ['S']. *)
Definition DynamoDbItem_AttributeDefinitions
    (idFieldName : string) (rangeFieldName : option string) : list AttributeDefinition :=
  {| AttributeName := idFieldName; AttributeType := "S" |} ::
  (if truthy_str rangeFieldName
   then [ {| AttributeName := show_opt rangeFieldName; AttributeType := "S" |} ]
   else []).

(** [DynamoDbItem.KeySchema] *)
Definition DynamoDbItem_KeySchema
    (idFieldName : string) (rangeFieldName : option string) : list KeySchemaElement :=
  {| ks_AttributeName := idFieldName; KeyType := "HASH" |} ::
  (if truthy_str rangeFieldName
   then [ {| ks_AttributeName := show_opt rangeFieldName; KeyType := "RANGE" |} ]
   else []).

(** An instance.  [version] is [None] exactly when [Version()] returns
    [undefined], [expiresAt] when the instance has no such property;
    timestamps are epoch seconds. *)
Record Item : Type :=
  { item_type : ItemType;
    props : AttrMap;
    createdAt : JsNum;
    updatedAt : JsNum;
    version : option JsNum;
    expiresAt : option JsNum }.

(** [DynamoDbVersionedItem.INITIAL_VERSION_NUMBER = -1] *)
Definition INITIAL_VERSION_NUMBER : JsNum := Int (-1).

(** [Math.trunc(Date.now() / 1000)] at clock [ms] (milliseconds) *)
Definition epoch_seconds (ms : Z) : JsNum := Int (Z.quot ms 1000).

(** [new Type()] at clock [ms]: both timestamps are the clock in seconds,
    the version of a versioned class is the sentinel, and the constructor
    of an expiring class, called without an expiry, leaves
    [Math.trunc(undefined)], which is [NaN]. *)
Definition new_Item (T : ItemType) (ms : Z) : Item :=
  {| item_type := T;
     props := DefaultProps T;
     createdAt := epoch_seconds ms;
     updatedAt := epoch_seconds ms;
     version := if Versioned T then Some INITIAL_VERSION_NUMBER else None;
     expiresAt := if Expiring T then Some NaN else None |}.

(** [MarkUpdated()] *)
Definition MarkUpdated (ms : Z) (it : Item) : Item :=
  {| item_type := item_type it; props := props it; createdAt := createdAt it;
     updatedAt := epoch_seconds ms; version := version it; expiresAt := expiresAt it |}.

Definition set_version (v : JsNum) (it : Item) : Item :=
  {| item_type := item_type it; props := props it; createdAt := createdAt it;
     updatedAt := updatedAt it; version := Some v; expiresAt := expiresAt it |}.

(** [Version()] without an argument. *)
Definition Version (it : Item) : option JsNum := version it.

(** [Version(version)] with a number: the item after the call, or the error
    thrown.  On an item whose [Version] is [undefined]
    ([DynamoDbExpiringItem.Version]) it does nothing. *)
Definition Version_set (ms : Z) (value : JsNum) (it : Item) : Item + JsError :=
  match version it with
  | None => inl it
  | Some this_version =>
      if Num_eqb this_version 0 && Num_eqb value INITIAL_VERSION_NUMBER then
        inl (set_version value it)
      else if Num_ltb value 0 then
        inr (Error "version must be a positive integer")
      else
        inl (MarkUpdated ms (set_version value it))
  end.

(** [IncrementVersion()] *)
Definition IncrementVersion (ms : Z) (it : Item) : Item + JsError :=
  match Version it with
  | None =>
      if Versioned (item_type it)
      then inr (Error "Version is undefined indicating this is not a Versioned item, therefore IncrementVersion is not allowed.")
      else inr (Error "Method not implemented.")
  | Some v => Version_set ms (Num_succ v) it
  end.

Definition num_field (o : option JsVal) (old : option JsNum) : option JsNum :=
  match o with
  | Some (VNum n) => Some n
  | Some _ => None
  | None => old
  end.

(** [Assign(source)], that is [Object.assign(this, source)]: every key of
    [source] overwrites the property of that name. *)
Definition Assign (source : AttrMap) (it : Item) : Item :=
  {| item_type := item_type it;
     props := source ∪ props it;
     createdAt := match source !! "createdAt" with Some (VNum n) => n | _ => createdAt it end;
     updatedAt := match source !! "updatedAt" with Some (VNum n) => n | _ => updatedAt it end;
     version := if Versioned (item_type it)
                then num_field (source !! "version") (version it) else None;
     expiresAt := num_field (source !! "expiresAt") (expiresAt it) |}.

Definition insert_num (k : string) (o : option JsNum) (m : AttrMap) : AttrMap :=
  match o with
  | Some n => <[k := VNum n]> m
  | None => m
  end.

(** The own properties of an instance as an attribute map: what
    [marshall(item, this._marshallOptions)] returns when it returns
    ([convertClassInstanceToMap]). *)
Definition marshall_item (it : Item) : AttrMap :=
  insert_num "expiresAt" (expiresAt it)
    (insert_num "version" (version it)
       (<["updatedAt" := VNum (updatedAt it)]>
          (<["createdAt" := VNum (createdAt it)]> (props it)))).

(** [convertToNumberAttr(num)] of the marshaller: [{ N: num.toString() }],
    or the error for a number it refuses. *)
Definition convertToNumberAttr (num : JsNum) : JsNum + JsError :=
  match num with
  | NaN | Infinity _ =>
      inr (Error ("Special numeric value " ++ Num_toString num ++ " is not allowed"))
  | _ =>
      if Num_gtb num MAX_SAFE_INTEGER then
        inr (Error ("Number " ++ Num_toString num
                      ++ " is greater than Number.MAX_SAFE_INTEGER. Use BigInt."))
      else if Num_ltb num MIN_SAFE_INTEGER then
        inr (Error ("Number " ++ Num_toString num
                      ++ " is lesser than Number.MIN_SAFE_INTEGER. Use BigInt."))
      else inl num
  end.

(** The error of the first value that the marshaller refuses. *)
Fixpoint refusal (values : list JsVal) : option JsError :=
  match values with
  | [] => None
  | VNum n :: rest =>
      match convertToNumberAttr n with
      | inl _ => refusal rest
      | inr e => Some e
      end
  | _ :: rest => refusal rest
  end.

(** [marshall(data)] of an object with the property values [values], which
    come out as the attribute map [data] unless one of them is refused. *)
Definition marshall (values : list JsVal) (data : AttrMap) : AttrMap + JsError :=
  match refusal values with
  | Some e => inr e
  | None => inl data
  end.

(** The values of the own properties of an instance, as [marshall] walks
    them: the timestamps, the version and the expiry, which the constructors
    of the base classes create first and in this order, then the other
    properties.  (A map does not record the order in which the other
    properties were created: when [marshall] refuses several of them, the
    one it reports may be another than here.) *)
Definition own_values (it : Item) : list JsVal :=
  VNum (createdAt it) :: VNum (updatedAt it)
  :: match version it with Some v => [VNum v] | None => [] end
  ++ match expiresAt it with Some x => [VNum x] | None => [] end
  ++ map snd (map_to_list (marshall_item it)).

(** [marshall(item, this._marshallOptions)] *)
Definition marshall_instance (it : Item) : AttrMap + JsError :=
  marshall (own_values it) (marshall_item it).

(** [array.includes(name)], [array.some(t => t === name)] and
    [array.find(t => t === name) !== undefined] on an array of strings. *)
Definition includes (l : list string) (name : string) : bool :=
  existsb (String.eqb name) l.

(** [indexes?.find(c => c.IndexName === name)] is truthy. *)
Definition find_index (indexes : option (list GlobalSecondaryIndex))
    (name : option string) : bool :=
  match indexes with
  | Some l => existsb (fun c => bool_decide (IndexName c = name)) l
  | None => false
  end.

(** ** The wrapper's methods *)

Section Wrapper.

Context {C : Type} {SC : StorageClient C}.
Variable cfg : Config.

Abbreviation W := (World C).

(** [await this.DynamoDbClient.send(new XCommand(input))] *)
Definition send {A : Type} (cmd : Command) (f : C -> SdkResult A * C) : M W A :=
  fun w =>
    let '(r, c') := f (client w) in
    (match r with inl a => Ret a | inr e => Throw e end,
     {| client := c'; calls := calls w ++ [cmd]; logs := logs w; now := now w |}).

Definition log (l : LogLevel) (msg : string) (e : option JsError) : M W unit :=
  fun w =>
    (Ret tt,
     {| client := client w; calls := calls w;
        logs := logs w ++ [ {| level := l; message := msg; logged_error := e |} ];
        now := now w |}).

(** [await new Promise(resolve => setTimeout(resolve, ms))] *)
Definition sleep (ms : Z) : M W unit :=
  fun w =>
    (Ret tt,
     {| client := client w; calls := calls w; logs := logs w; now := (now w + ms)%Z |}).

(** [Date.now()] *)
Definition Date_now : M W Z := fun w => (Ret (now w), w).

(** A computation on the world, run next to a local mutable object. *)
Definition liftW {X A : Type} (m : M W A) : M (X * W) A :=
  fun s =>
    let '(r, w') := m (snd s) in (r, (fst s, w')).

Definition get_local {X : Type} : M (X * W) X := fun s => (Ret (fst s), s).

Definition set_local {X : Type} (x : X) : M (X * W) unit :=
  fun s => (Ret tt, (x, snd s)).

(** Run a computation with a fresh local object and drop the object. *)
Definition with_local {X A : Type} (x0 : X) (m : M (X * W) A) : M W A :=
  fun w => let '(r, s) := m (x0, w) in (r, snd s).

Fixpoint for_each {A : Type} (l : list A) (body : A -> M W unit) : M W unit :=
  match l with
  | [] => ret tt
  | x :: l' => body x ;; for_each l' body
  end.

(** [GenerateTableName(item)], on the base table name. *)
Definition GenerateTableName (baseTableName : string) : string :=
  if truthy_str (TablePrefix cfg)
  then show_opt (TablePrefix cfg) ++ "." ++ baseTableName
  else baseTableName.

(** [CreateSchema(type, options)] *)
Definition CreateSchema (type : ItemType) (options : option ICreateSchemaOptions)
  : CreateTableInput :=
  {| cti_TableName := GenerateTableName (BaseTableName type);
     cti_BillingMode := default "PAY_PER_REQUEST" (options ≫= cso_BillingMode);
     cti_StreamEnabled := default false (options ≫= cso_StreamEnabled);
     cti_Tags := options ≫= cso_Tags;
     cti_AttributeDefinitions := AttributeDefinitions type;
     cti_KeySchema := KeySchema type;
     cti_LocalSecondaryIndexes := LocalSecondaryIndexes type;
     cti_GlobalSecondaryIndexes := GlobalSecondaryIndexes type |}.

(** [ListTables()] *)
Definition ListTables : M W (list string) :=
  try_catch
    (TableNames <- send ListTablesCommand listTables ;;
     ret (default [] TableNames))
    (fun error =>
       log LError "" (Some error) ;;
       throw error).

(** [DescribeTable(tableName)] *)
Definition DescribeTable (tableName : string) : M W (option TableDescription) :=
  try_catch
    (out <- send (DescribeTableCommand (Some tableName)) (describeTable (Some tableName)) ;;
     match out with
     | Some Table =>
         if bool_decide (td_TableName Table = Some tableName)
         then ret (Some Table) else ret None
     | None => ret None
     end)
    (fun error =>
       if negb (is_ResourceNotFound error) then
         log LError "" (Some error) ;;
         throw error
       else ret None).

(** The [while (waitForActive && tableDescription &&
    tableDescription.TableStatus != 'ACTIVE')] loop of [CreateTable]. *)
Fixpoint waitForActive_loop (fuel : nat) (waitForActive : bool)
    (tableDescription : TableDescription) : M W TableDescription :=
  if waitForActive && negb (bool_decide (td_TableStatus tableDescription = Some "ACTIVE")) then
    match fuel with
    | O => pending
    | S fuel' =>
        sleep 500 ;;
        tableDescription' <-
          try_catch
            (data <- send (DescribeTableCommand (td_TableName tableDescription))
                          (describeTable (td_TableName tableDescription)) ;;
             match data with
             | Some Table =>
                 log LDebug "Table Status" None ;;
                 ret Table
             | None =>
                 throw (Error ("Unable to describe table '"
                                 ++ show_opt (td_TableName tableDescription) ++ "'"))
             end)
            (fun error =>
               log LError "CreateTable: Waiting for ACTIVE" (Some error) ;;
               throw error) ;;
        waitForActive_loop fuel' waitForActive tableDescription'
    end
  else ret tableDescription.

(** [CreateTable(input, waitForActive, ttlAttributeName)] *)
Definition CreateTable (fuel : nat) (input : CreateTableInput) (waitForActive : bool)
    (ttlAttributeName : option string) : M W (option TableDescription) :=
  if match ttlAttributeName with
     | Some s => Nat.eqb (String.length s) 0
     | None => false
     end
  then throw (ArgumentError "ttlAttributeName cannot be an empty string")
  else
    let table := input in
    (* CREATE THE TABLE *)
    created <-
      try_catch
        (data <- send (CreateTableCommand table) (createTable table) ;;
         match data with
         | Some TableDescription =>
             log LDebug "Table Created" None ;;
             ret (Some TableDescription)
         | None =>
             throw (Error ("Unable to create table '" ++ cti_TableName table ++ "'"))
         end)
        (fun error =>
           log LError "CreateTable" (Some error) ;;
           ret None) ;;
    match created with
    | None => ret None
    | Some tableDescription =>
        (* WAIT FOR TABLE TO BE 'ACTIVE' *)
        tableDescription <- waitForActive_loop fuel waitForActive tableDescription ;;
        (if negb (Z.eqb (_delayAfterCreateTable cfg) 0) then
           log LInfo ("Pausing for " ++ pretty (_delayAfterCreateTable cfg) ++ "ms after "
                        ++ show_opt (td_TableName tableDescription)
                        ++ " has reported ACTIVE...") None ;;
           sleep (_delayAfterCreateTable cfg)
         else ret tt) ;;
        (if truthy_str ttlAttributeName then
           let input :=
             {| ttl_TableName := td_TableName tableDescription;
                ttl_Enabled := true;
                ttl_AttributeName := show_opt ttlAttributeName |} in
           try_catch
             (data <- send (UpdateTimeToLiveCommand input) (updateTimeToLive input) ;;
              match data with
              | Some true => ret tt
              | _ =>
                  throw (Error ("Unable to enable TTL on '"
                                  ++ show_opt (td_TableName tableDescription)
                                  ++ "' using attribute '" ++ show_opt ttlAttributeName ++ "'"))
              end)
             (fun error =>
                log LError "CreateTable:EnableTTL" (Some error) ;;
                throw error)
         else ret tt) ;;
        ret (Some tableDescription)
    end.

(** [CreateTableIfNotExists(input, waitForActive, ttlAttributeName)] *)
Definition CreateTableIfNotExists (fuel : nat) (input : CreateTableInput)
    (waitForActive : bool) (ttlAttributeName : option string)
  : M W (option TableDescription) :=
  tables <- ListTables ;;
  if includes tables (cti_TableName input) then
    tableDescription <- DescribeTable (cti_TableName input) ;;
    ret tableDescription
  else
    CreateTable fuel input waitForActive ttlAttributeName.

(** [InitializeTable(Type, existingTables, options)] *)
Definition InitializeTable (fuel : nat) (Type_ : ItemType)
    (existingTables : option (list string)) (options : option ICreateSchemaOptions)
  : M W unit :=
  existingTables <-
    match existingTables with
    | Some l => ret l
    | None => ListTables
    end ;;
  let typeShell := Type_ in
  let tableName := GenerateTableName (BaseTableName typeShell) in
  if includes existingTables tableName then
    log LInfo "InitializeTable: Table Exists" None
  else
    log LInfo "Initialize Table" None ;;
    created <- CreateTableIfNotExists fuel (CreateSchema typeShell options) true
                 (TTLFieldName typeShell) ;;
    match created with
    | Some _ => ret tt
    | None => throw (Error ("Fatal Error: Could not create " ++ tableName))
    end.

(** [UpdateTable(item)] *)
Definition UpdateTable (item : ItemType) : M W (option TableDescription) :=
  let TableName := GenerateTableName (BaseTableName item) in
  table <- DescribeTable TableName ;;
  match table with
  | None => throw (Error ("Table Not Found: " ++ TableName))
  | Some table =>
      let gsiCurrent := GlobalSecondaryIndexes item in
      for_each (default [] (td_GlobalSecondaryIndexes table)) (fun gsi =>
        if negb (find_index gsiCurrent (IndexName gsi)) then
          let input :=
            {| uti_TableName := TableName;
               uti_AttributeDefinitions := None;
               uti_GlobalSecondaryIndexUpdates := [Delete (IndexName gsi)] |} in
          updated <- send (UpdateTableCommand input) (updateTable input) ;;
          log LDebug ("Deleted GSI: " ++ TableName ++ "/" ++ show_opt (IndexName gsi)) None
        else ret tt) ;;
      let AttributeDefinitions := AttributeDefinitions item in
      for_each (default [] gsiCurrent) (fun gsi =>
        if negb (find_index (td_GlobalSecondaryIndexes table) (IndexName gsi)) then
          let input :=
            {| uti_TableName := TableName;
               uti_AttributeDefinitions := Some AttributeDefinitions;
               uti_GlobalSecondaryIndexUpdates := [Create gsi] |} in
          updated <- send (UpdateTableCommand input) (updateTable input) ;;
          log LDebug ("Created GSI: " ++ TableName ++ "/" ++ show_opt (IndexName gsi)) None
        else ret tt) ;;
      DescribeTable TableName
  end.

(** [_CreateKeyMapping(item, id, range)]; it throws synchronously. *)
Definition _CreateKeyMapping (item : ItemType) (id : JsVal) (range : option JsVal)
  : AttrMap + JsError :=
  let keys : AttrMap := {[ IdFieldName item := id ]} in
  match RangeFieldName item with
  | Some rangeFieldName =>
      match range with
      | Some r => inl (<[rangeFieldName := r]> keys)
      | None =>
          inr (ArgumentError
                 ("The IDynamoDbItem defines a RangeFieldName but an undefined range parameter was provided. "
                  ++ "If a Range field is defined in the table schema for DynamoDB, you MUST provide it to lookup an item."))
      end
  | None => inl keys
  end.

Definition of_result {S A : Type} (r : A + JsError) : M S A :=
  match r with
  | inl a => ret a
  | inr e => throw e
  end.

Inductive ReturnValue : Type := NONE | ALL_OLD.

Definition ReturnValue_string (r : ReturnValue) : string :=
  match r with NONE => "NONE" | ALL_OLD => "ALL_OLD" end.

(** [Promise<T | boolean>] *)
Inductive DeleteResult : Type :=
| DeletedFlag (ok : bool)
| DeletedItem (item : Item).

(** [DeleteItem(Type, id, range, returnValue)] *)
Definition DeleteItem (Type_ : ItemType) (id : JsVal) (range : option JsVal)
    (returnValue : ReturnValue) : M W DeleteResult :=
  if is_empty_string id then throw (ArgumentError "id cannot be an empty string")
  else if is_empty_string_opt range then throw (ArgumentError "range cannot be an empty string")
  else
    ms <- Date_now ;;
    let item := new_Item Type_ ms in
    Key <- of_result (_CreateKeyMapping Type_ id range) ;;
    let params :=
      {| ki_TableName := GenerateTableName (BaseTableName Type_);
         ki_Key := Key;
         ki_ReturnValues := Some (ReturnValue_string returnValue);
         ki_ConsistentRead := None |} in
    early <-
      try_catch
        (Attributes <- send (DeleteItemCommand params) (deleteItem params) ;;
         log LDebug "DeleteItem: Deleted" None ;;
         match Attributes, returnValue with
         | None, ALL_OLD => ret (inl (DeletedFlag false))
         | _, _ => ret (inr Attributes)
         end)
        (fun error =>
           log LError "DeleteItem" (Some error) ;;
           throw error) ;;
    match early with
    | inl r => ret r
    | inr Attributes =>
        match returnValue with
        | ALL_OLD =>
            match Attributes with
            | None =>
                throw (Error "DeleteItem appeared to succeed however ALL_OLD was specified and no attributes are returned. In theory, thiis should not be possible...")
            | Some attrs =>
                log LDebug "DeleteItem: Unmarshalled" None ;;
                ret (DeletedItem (Assign attrs item))
            end
        | NONE => ret (DeletedFlag true)
        end
    end.

(** ** Reads *)

(** [IGetItemOptions], [IScanOptions] and [IQueryOptions] in one record; an
    absent option is [None], and an absent [options] argument is
    [no_options].  [GetItem] spreads its options over defaults, so for
    [Required] a property that is left out ([None]) differs from a property
    that is there with the value [undefined] ([Some None]). *)
Record ReadOptions : Type :=
  { Required : option (option bool);
    ConsistentRead : option bool;
    opt_IndexName : option string;
    IndexPartitionKeyFieldName : option string;
    IndexRangeFieldName : option string;
    IgnoreTableNotFound : option bool;
    Limit : option Z;
    FilterExpression : option string;
    ExpressionAttributeValues : option AttrMap;
    ExclusiveStartKey : option JsVal;
    ScanIndexForward : option bool }.

Definition no_options : ReadOptions :=
  {| Required := None; ConsistentRead := None; opt_IndexName := None;
     IndexPartitionKeyFieldName := None; IndexRangeFieldName := None;
     IgnoreTableNotFound := None; Limit := None; FilterExpression := None;
     ExpressionAttributeValues := None; ExclusiveStartKey := None;
     ScanIndexForward := None |}.

(** [params.ExclusiveStartKey = LastEvaluatedKey] *)
Definition set_ExclusiveStartKey (k : option AttrMap) (p : ReadInput) : ReadInput :=
  {| ri_TableName := ri_TableName p;
     ri_IndexName := ri_IndexName p;
     ri_KeyConditionExpression := ri_KeyConditionExpression p;
     ri_FilterExpression := ri_FilterExpression p;
     ri_ExpressionAttributeValues := ri_ExpressionAttributeValues p;
     ri_ExpressionAttributeNames := ri_ExpressionAttributeNames p;
     ri_Select := ri_Select p;
     ri_ExclusiveStartKey := k;
     ri_Limit := ri_Limit p;
     ri_ConsistentRead := ri_ConsistentRead p;
     ri_ScanIndexForward := ri_ScanIndexForward p |}.

(** [options.Limit === undefined || items.length < options.Limit] *)
Definition under_limit (limit : option Z) (items : list Item) : bool :=
  match limit with
  | None => true
  | Some n => Z.ltb (Z.of_nat (length items)) n
  end.

(** The [do { ... } while (params.ExclusiveStartKey !== undefined && ...)]
    loop of [Scan] and of [Query]; the two loops differ only in the command
    sent and in the label of their log records.  The accumulator [items] is
    the local object, visible to the [catch] block around the loop. *)
Fixpoint page_loop (fuel : nat) (sendPage : ReadInput -> M W ReadOutput) (label : string)
    (Type_ : ItemType) (options : ReadOptions) (params : ReadInput)
  : M (list Item * W) unit :=
  match fuel with
  | O => pending
  | S fuel' =>
      result <- liftW (sendPage params) ;;
      liftW (if _debugMode cfg then
               log LDebug (label ++ "CommandOutput") None ;;
               log LDebug (label ++ ": Response.Items") None
             else log LDebug (label ++ " Info") None) ;;
      match Items result with
      | Some Items =>
          ms <- liftW Date_now ;;
          items <- get_local ;;
          set_local (items ++ map (fun i => Assign i (new_Item Type_ ms)) Items)
      | None => ret tt
      end ;;
      liftW (if _debugMode cfg then log LDebug (label ++ ": Unmarshalled") None else ret tt) ;;
      let params := set_ExclusiveStartKey (LastEvaluatedKey result) params in
      items <- get_local ;;
      if bool_decide (ri_ExclusiveStartKey params <> None) && under_limit (Limit options) items
      then page_loop fuel' sendPage label Type_ options params
      else ret tt
  end.

(** The [catch (error)] block around the page loop. *)
Definition read_catch (label : string) (options : ReadOptions) (error : JsError)
  : M (list Item * W) unit :=
  if is_ResourceNotFound error then
    liftW (log LWarn (label ++ ": ResourceNotFoundException - the Table does not exist") None) ;;
    liftW (if _debugMode cfg then
             existingTables <- ListTables ;;
             log LDebug "Existing Tables" None
           else ret tt) ;;
    if negb (bool_decide (IgnoreTableNotFound options = Some true))
    then throw error
    else ret tt
  else
    liftW (log LError (label ++ ": " ++ err_name error) (Some error)) ;;
    throw error.

(** [ExclusiveStartKey[partitionKeyName] = options.ExclusiveStartKey],
    marshalled, when the option is truthy. *)
Definition start_key (partitionKeyName : string) (options : ReadOptions) : option AttrMap :=
  match ExclusiveStartKey options with
  | Some v => if truthy v then Some {[ partitionKeyName := v ]} else None
  | None => None
  end.

Definition sort_key_name (Type_ : ItemType) (options : ReadOptions) : option string :=
  match IndexRangeFieldName options with
  | Some s => Some s
  | None => RangeFieldName Type_
  end.

Definition range_msg : string :=
  "Range value was provided but Range Field name cannot be determined.".

(** [`${(e ? `${e} AND ` : '')}${clause}`] *)
Definition and_join (e : option string) (clause : string) : string :=
  (if truthy_str e then show_opt e ++ " AND " else "") ++ clause.

(** [Scan(Type, id, range, options)], from its first line to the [params]
    object: the argument checks and the filter expression. *)
Definition Scan_params (Type_ : ItemType) (id : option JsVal) (range : option JsVal)
    (options : ReadOptions) : M W ReadInput :=
  if is_empty_string_opt id then throw (ArgumentError "id cannot be an empty string")
  else if is_empty_string_opt range then throw (ArgumentError "range cannot be an empty string")
  else
    (if _debugMode cfg && truthy_str (opt_IndexName options)
        && negb (truthy_str (IndexPartitionKeyFieldName options))
     then log LWarn "IndexName is specified but IndexPartitionKeyFieldName is not." None
     else ret tt) ;;
    let typeShell := Type_ in
    let rawExpressionAttributeValues : AttrMap :=
      default ∅ (ExpressionAttributeValues options) in
    let partitionKeyName :=
      default (IdFieldName typeShell) (IndexPartitionKeyFieldName options) in
    let '(FilterExpression0, rawExpressionAttributeValues, ExpressionAttributeNames) :=
      match id with
      | Some idv =>
          (Some ("#" ++ partitionKeyName ++ " = :partitionkeyval")%string,
           <[":partitionkeyval" := idv]> rawExpressionAttributeValues,
           ({[ ("#" ++ partitionKeyName)%string := partitionKeyName ]} : gmap string string))
      | None => (None, rawExpressionAttributeValues, (∅ : gmap string string))
      end in
    (* add in range condition if applicable... *)
    built <-
      match range with
      | Some r =>
          let sortKeyName := sort_key_name typeShell options in
          if negb (truthy_str sortKeyName) then
            log LError range_msg None ;;
            throw (Error range_msg)
          else
            ret (Some (and_join FilterExpression0 ("#" ++ show_opt sortKeyName ++ " = :sortkeyval")%string),
                 <[":sortkeyval" := r]> rawExpressionAttributeValues,
                 <[("#" ++ show_opt sortKeyName)%string := show_opt sortKeyName]> ExpressionAttributeNames)
      | None => ret (FilterExpression0, rawExpressionAttributeValues, ExpressionAttributeNames)
      end ;;
    let '(FilterExpression1, rawExpressionAttributeValues, ExpressionAttributeNames) := built in
    let FilterExpression2 :=
      if truthy_str (FilterExpression options)
      then Some (and_join FilterExpression1 (show_opt (FilterExpression options)))
      else FilterExpression1 in
    let params :=
      {| ri_TableName := GenerateTableName (BaseTableName typeShell);
         ri_IndexName := opt_IndexName options;
         ri_KeyConditionExpression := None;
         ri_FilterExpression := FilterExpression2;
         ri_ExpressionAttributeValues :=
           if bool_decide (rawExpressionAttributeValues = ∅) then None
           else Some rawExpressionAttributeValues;
         ri_ExpressionAttributeNames :=
           if bool_decide (ExpressionAttributeNames = ∅) then None
           else Some ExpressionAttributeNames;
         ri_Select := "ALL_ATTRIBUTES";
         ri_ExclusiveStartKey := start_key partitionKeyName options;
         ri_Limit := Limit options;
         ri_ConsistentRead := ConsistentRead options;
         ri_ScanIndexForward := ScanIndexForward options |} in
    ret params.

(** [Scan(Type, id, range, options)] *)
Definition Scan (fuel : nat) (Type_ : ItemType) (id : option JsVal) (range : option JsVal)
    (options : ReadOptions) : M W (list Item) :=
  params <- Scan_params Type_ id range options ;;
  log LDebug "Scan" None ;;
  with_local []
    (try_catch
       (page_loop fuel (fun p => send (ScanCommand p) (scan p)) "Scan" Type_ options params)
       (read_catch "Scan" options) ;;
     get_local).

(** [Query(Type, id, range, options)], from its first line to the [params]
    object: the argument checks and the key condition expression. *)
Definition Query_params (Type_ : ItemType) (id : JsVal) (range : option JsVal)
    (options : ReadOptions) : M W ReadInput :=
  if is_empty_string id then throw (ArgumentError "id cannot be an empty string")
  else if is_empty_string_opt range then throw (ArgumentError "range cannot be an empty string")
  else
    (if _debugMode cfg && truthy_str (opt_IndexName options)
        && negb (truthy_str (IndexPartitionKeyFieldName options))
     then log LWarn "IndexName is specified but IndexPartitionKeyFieldName is not." None
     else ret tt) ;;
    let typeShell := Type_ in
    let partitionKeyName :=
      default (IdFieldName typeShell) (IndexPartitionKeyFieldName options) in
    let conditionExpression := ("#" ++ partitionKeyName ++ " = :partitionkeyval")%string in
    let rawExpressionAttributeValues : AttrMap :=
      <[":partitionkeyval" := id]> (default ∅ (ExpressionAttributeValues options)) in
    let ExpressionAttributeNames : gmap string string :=
      {[ ("#" ++ partitionKeyName)%string := partitionKeyName ]} in
    (* add in range condition if applicable... *)
    built <-
      match range with
      | Some r =>
          let sortKeyName := sort_key_name typeShell options in
          if negb (truthy_str sortKeyName) then
            log LError range_msg None ;;
            throw (Error range_msg)
          else
            ret ((conditionExpression ++ " AND #" ++ show_opt sortKeyName ++ " = :sortkeyval")%string,
                 <[":sortkeyval" := r]> rawExpressionAttributeValues,
                 <[("#" ++ show_opt sortKeyName)%string := show_opt sortKeyName]> ExpressionAttributeNames)
      | None => ret (conditionExpression, rawExpressionAttributeValues, ExpressionAttributeNames)
      end ;;
    let '(conditionExpression, rawExpressionAttributeValues, ExpressionAttributeNames) := built in
    let params :=
      {| ri_TableName := GenerateTableName (BaseTableName typeShell);
         ri_IndexName := opt_IndexName options;
         ri_KeyConditionExpression := Some conditionExpression;
         ri_FilterExpression := FilterExpression options;
         ri_ExpressionAttributeValues := Some rawExpressionAttributeValues;
         ri_ExpressionAttributeNames := Some ExpressionAttributeNames;
         ri_Select := "ALL_ATTRIBUTES";
         ri_ExclusiveStartKey := start_key partitionKeyName options;
         ri_Limit := Limit options;
         ri_ConsistentRead := ConsistentRead options;
         ri_ScanIndexForward := ScanIndexForward options |} in
    ret params.

(** [Query(Type, id, range, options)] *)
Definition Query (fuel : nat) (Type_ : ItemType) (id : JsVal) (range : option JsVal)
    (options : ReadOptions) : M W (list Item) :=
  params <- Query_params Type_ id range options ;;
  log LDebug "Query" None ;;
  with_local []
    (try_catch
       (page_loop fuel (fun p => send (QueryCommand p) (query p)) "Query" Type_ options params)
       (read_catch "Query" options) ;;
     get_local).

(** [GetItems(type, id, range, options)] *)
Definition GetItems (fuel : nat) (type : ItemType) (id : option JsVal) (range : option JsVal)
    (options : ReadOptions) : M W (list Item) :=
  match id with
  | Some idv =>
      log LDebug "GetItems ==> Query" None ;;
      Query fuel type idv range options
  | None =>
      log LDebug "GetItems ==> Scan" None ;;
      Scan fuel type None range options
  end.

(** Template-literal rendering of an id. *)
Definition show_val (v : JsVal) : string :=
  match v with
  | VStr s => s
  | VNum n => Num_toString n
  | VBool b => if b then "true" else "false"
  end.

(** The options object that [GetItem] builds for [GetItems] when
    [options.IndexName] is set: [IndexName], [IndexPartitionKeyFieldName],
    [IndexRangeFieldName] and [ConsistentRead], nothing else. *)
Definition GetItem_index_options (options : ReadOptions) : ReadOptions :=
  {| Required := None;
     ConsistentRead := ConsistentRead options;
     opt_IndexName := opt_IndexName options;
     IndexPartitionKeyFieldName := IndexPartitionKeyFieldName options;
     IndexRangeFieldName := IndexRangeFieldName options;
     IgnoreTableNotFound := None; Limit := None; FilterExpression := None;
     ExpressionAttributeValues := None; ExclusiveStartKey := None;
     ScanIndexForward := None |}.

(** [GetItem(Type, id, range, options)] *)
Definition GetItem (fuel : nat) (Type_ : ItemType) (id : JsVal) (range : option JsVal)
    (options : ReadOptions) : M W (option Item) :=
  if is_empty_string id then throw (ArgumentError "id cannot be an empty string")
  else if is_empty_string_opt range then throw (ArgumentError "range cannot be an empty string")
  else
    (* options = { Required: true, IgnoreTableNotFound: false, ...options } *)
    let opt_Required :=
      match Required options with
      | None => true
      | Some given => default false given
      end in
    let opt_IgnoreTableNotFound := default false (IgnoreTableNotFound options) in
    if truthy_str (opt_IndexName options) then
      items <- GetItems fuel Type_ (Some id) range (GetItem_index_options options) ;;
      ret (items !! 0%nat)
    else
      ms <- Date_now ;;
      let item := new_Item Type_ ms in
      Key <- of_result (_CreateKeyMapping Type_ id range) ;;
      let params :=
        {| ki_TableName := GenerateTableName (BaseTableName Type_);
           ki_Key := Key;
           ki_ReturnValues := None;
           ki_ConsistentRead := ConsistentRead options |} in
      log LDebug "GetItemInput" None ;;
      try_catch
        (Item_ <- send (GetItemCommand params) (getItem params) ;;
         log LDebug "GetItem: Response.Item" None ;;
         match Item_ with
         | None =>
             if opt_Required then
               throw (Error ("Unable to retrieve '" ++ show_val id ++ "' from '"
                               ++ ki_TableName params ++ "'"))
             else ret None
         | Some attrs =>
             log LDebug "GetItem: Unmarshalled" None ;;
             ret (Some (Assign attrs item))
         end)
        (fun error =>
           if is_ResourceNotFound error then
             log LWarn "GetItem: ResourceNotFoundException - the Table does not exist" None ;;
             (if _debugMode cfg then
                existingTables <- ListTables ;;
                log LDebug "Existing Tables" None
              else ret tt) ;;
             if negb opt_IgnoreTableNotFound then throw error else ret None
           else
             log LError ("GetItem: " ++ err_name error) (Some error) ;;
             throw error).

(** ** Writes *)

(** [IPutItemOptions]; an absent [options] argument is [no_put_options]. *)
Record IPutItemOptions : Type :=
  { opt_CreateTableIfNotExists : option bool;
    CreateSchemaOptions : option ICreateSchemaOptions;
    Class : option ItemType }.

Definition no_put_options : IPutItemOptions :=
  {| opt_CreateTableIfNotExists := None; CreateSchemaOptions := None; Class := None |}.

(** A method call on the item that [PutItem] was given: the item is the
    local object, mutated in place. *)
Definition on_item (method : Z -> Item -> Item + JsError) : M (Item * W) unit :=
  fun s =>
    match method (now (snd s)) (fst s) with
    | inl item' => (Ret tt, (item', snd s))
    | inr e => (Throw e, s)
    end.

(** The conditional guard of the write: [ConditionExpression] and
    [ExpressionAttributeValues] as [PutItem] chooses them from [oldVersion]. *)
Definition PutItem_guard (oldVersion : option JsNum) : option string * option AttrMap :=
  match oldVersion with
  | Some v =>
      if Num_gtb v INITIAL_VERSION_NUMBER
      then (Some "version = :version", Some {[ ":version" := VNum v ]})
      else (Some "attribute_not_exists(version)", None)
  | None => (None, None)
  end.

(** The [params] object of [PutItem], built after the version increment,
    when the marshaller has accepted the old version and the record. *)
Definition PutItem_params (oldVersion : option JsNum) (item : Item) : PutItemInput :=
  {| pi_TableName := GenerateTableName (BaseTableName (item_type item));
     pi_Item := marshall_item item;
     pi_ReturnValues := "NONE";
     pi_ConditionExpression := fst (PutItem_guard oldVersion);
     pi_ExpressionAttributeValues := snd (PutItem_guard oldVersion) |}.

(** The [catch (error)] block of [PutItem].  [retry] is the recursive call
    [this.PutItem(item, ...)], [fuel'] bounds the polls of the table creation. *)
Definition PutItem_catch (retry : IPutItemOptions -> M (Item * W) bool) (fuel' : nat)
    (oldVersion : option JsNum) (params : PutItemInput) (options : IPutItemOptions)
    (error : JsError) : M (Item * W) bool :=
  (* we need to reset the item version if there was a problem saving it *)
  match oldVersion with
  | Some v => on_item (fun ms => Version_set ms v)
  | None => ret tt
  end ;;
  retried <-
    (if bool_decide (opt_CreateTableIfNotExists options = Some true) then
       match Class options with
       | None =>
           throw (Error "Cannot infer type to create table. Class is required in the options in order to create the table.")
       | Some Class_ =>
           if is_ResourceNotFound error then
             existingTables <- liftW ListTables ;;
             let tableExists := includes existingTables (pi_TableName params) in
             if tableExists then
               liftW (log LWarn "Error while calling PutItem. Cannot try and create a table that already exists so assuming the error is something else..." None) ;;
               ret None
             else
               liftW (log LInfo ("PutItem: TableNotFound (" ++ pi_TableName params
                                   ++ ") ... trying to create it for you...") None) ;;
               liftW (InitializeTable fuel' Class_ (Some existingTables)
                        (CreateSchemaOptions options)) ;;
               r <- retry {| opt_CreateTableIfNotExists := Some false;
                             CreateSchemaOptions := None; Class := None |} ;;
               ret (Some r)
           else ret None
       end
     else ret None) ;;
  match retried with
  | Some r => ret r
  | None =>
      liftW (log LError "PutItem" (Some error)) ;;
      throw error
  end.

(** [PutItem(item, options)].  [fuel] bounds the depth of the recursive
    retry and the polls of the table creation it may start. *)
Fixpoint PutItem (fuel : nat) (options : IPutItemOptions) : M (Item * W) bool :=
  match fuel with
  | O => pending
  | S fuel' =>
      item <- get_local ;;
      let oldVersion := Version item in
      guard <-
        match oldVersion with
        | Some v =>
            guard <-
              (if Num_gtb v INITIAL_VERSION_NUMBER then
                 ExpressionAttributeValues <-
                   of_result (marshall [VNum v] {[ ":version" := VNum v ]}) ;;
                 ret (Some "version = :version", Some ExpressionAttributeValues)
               else ret (Some "attribute_not_exists(version)", None)) ;;
            on_item IncrementVersion ;;
            item <- get_local ;;
            liftW (log LDebug ("PutItem: Incremented Version: " ++ Num_toString v ++ " -> "
                                 ++ from_option Num_toString "undefined" (Version item))
                     None) ;;
            ret guard
        | None => ret (None, None)
        end ;;
      item <- get_local ;;
      Item_ <- of_result (marshall_instance item) ;;
      let params :=
        {| pi_TableName := GenerateTableName (BaseTableName (item_type item));
           pi_Item := Item_;
           pi_ReturnValues := "NONE";
           pi_ConditionExpression := fst guard;
           pi_ExpressionAttributeValues := snd guard |} in
      try_catch
        (liftW (log LDebug "PutItem:" None) ;;
         data <- liftW (send (PutItemCommand params) (putItem params)) ;;
         liftW (log LDebug "PutItemOutput:" None) ;;
         ret true)
        (PutItem_catch (PutItem fuel') fuel' oldVersion params options)
  end.

End Wrapper.

(** ** Two storage clients *)

(** A scripted client: every [send] consumes the next prepared reply,
    whatever the command.  Any behaviour of a real client along one run of a
    wrapper method is the behaviour of some script. *)
Module Scripted.

Inductive Reply : Type :=
| Names (o : option (list string))
| Table (o : option TableDescription)
| Flag (o : option bool)
| Attrs (o : option AttrMap)
| Page (out : ReadOutput)
| Done
| Reject (e : JsError).

Definition unexpected : JsError := Error "unexpected call".

Definition next {A : Type} (pick : Reply -> option A) (script : list Reply)
  : SdkResult A * list Reply :=
  match script with
  | [] => (inr unexpected, [])
  | Reject e :: rest => (inr e, rest)
  | r :: rest =>
      (match pick r with Some a => inl a | None => inr unexpected end, rest)
  end.

Definition names (r : Reply) := match r with Names o => Some o | _ => None end.
Definition table (r : Reply) := match r with Table o => Some o | _ => None end.
Definition flag (r : Reply) := match r with Flag o => Some o | _ => None end.
Definition attrs (r : Reply) := match r with Attrs o => Some o | _ => None end.
Definition page (r : Reply) := match r with Page o => Some o | _ => None end.
Definition done (r : Reply) := match r with Done => Some tt | _ => None end.

#[global] Instance scripted_client : StorageClient (list Reply) :=
  {| listTables := next names;
     describeTable := fun _ => next table;
     createTable := fun _ => next table;
     updateTimeToLive := fun _ => next flag;
     updateTable := fun _ => next table;
     deleteItem := fun _ => next attrs;
     getItem := fun _ => next attrs;
     scan := fun _ => next page;
     query := fun _ => next page;
     putItem := fun _ => next done |}.

Definition world (script : list Reply) : World (list Reply) :=
  {| client := script; calls := []; logs := []; now := 0 |}.

End Scripted.

#[global] Instance JsNum_eq_dec : EqDecision JsNum.
Proof. solve_decision. Defined.

#[global] Instance JsVal_eq_dec : EqDecision JsVal.
Proof. solve_decision. Defined.

(** A small in-memory service: tables by name with a status that turns
    ['ACTIVE'] after a number of describe calls, their global secondary
    indexes, and their items with the conditional put. *)
Module Service.

Record SimTable : Type :=
  { polls_left : nat;
    key_schema : list KeySchemaElement;
    indexes : list GlobalSecondaryIndex;
    ttl_attribute : option string;
    rows : list AttrMap }.

Record State : Type :=
  { tables : gmap string SimTable;
    creating_polls : nat }.

Definition fault (name : string) : JsError :=
  {| err_name := name; err_message := name |}.

Definition describe (name : string) (t : SimTable) : TableDescription :=
  {| td_TableName := Some name;
     td_TableStatus := Some (if Nat.eqb (polls_left t) 0 then "ACTIVE" else "CREATING");
     td_GlobalSecondaryIndexes :=
       match indexes t with [] => None | l => Some l end |}.

Definition with_table (s : State) (name : string) (t : SimTable) : State :=
  {| tables := <[name := t]> (tables s); creating_polls := creating_polls s |}.

Definition polled (t : SimTable) : SimTable :=
  {| polls_left := Nat.pred (polls_left t); key_schema := key_schema t;
     indexes := indexes t; ttl_attribute := ttl_attribute t; rows := rows t |}.

Definition with_indexes (l : list GlobalSecondaryIndex) (t : SimTable) : SimTable :=
  {| polls_left := polls_left t; key_schema := key_schema t;
     indexes := l; ttl_attribute := ttl_attribute t; rows := rows t |}.

Definition with_ttl (a : string) (t : SimTable) : SimTable :=
  {| polls_left := polls_left t; key_schema := key_schema t;
     indexes := indexes t; ttl_attribute := Some a; rows := rows t |}.

Definition with_rows (l : list AttrMap) (t : SimTable) : SimTable :=
  {| polls_left := polls_left t; key_schema := key_schema t;
     indexes := indexes t; ttl_attribute := ttl_attribute t; rows := l |}.

Definition apply_update (l : list GlobalSecondaryIndex) (u : GlobalSecondaryIndexUpdate)
  : list GlobalSecondaryIndex :=
  match u with
  | Delete name => filter (fun g => IndexName g <> name) l
  | Create g => l ++ [g]
  end.

(** The key of a row: its values at the attributes of the key schema. *)
Definition row_key (t : SimTable) (row : AttrMap) : list (option JsVal) :=
  map (fun k => row !! ks_AttributeName k) (key_schema t).

Definition same_key (t : SimTable) (a b : AttrMap) : bool :=
  bool_decide (row_key t a = row_key t b).

Definition condition_holds (input : PutItemInput) (stored : option AttrMap) : bool :=
  match pi_ConditionExpression input with
  | None => true
  | Some e =>
      if String.eqb e "attribute_not_exists(version)" then
        match stored with
        | Some row => bool_decide (row !! "version" = None)
        | None => true
        end
      else if String.eqb e "version = :version" then
        match stored with
        | Some row =>
            match row !! "version" with
            | Some v =>
                bool_decide ((pi_ExpressionAttributeValues input ≫= (.!! ":version")) = Some v)
            | None => false
            end
        | None => false
        end
      else false
  end.

Definition on_table {A : Type} (name : option string) (s : State)
    (k : string -> SimTable -> SdkResult A * State) : SdkResult A * State :=
  match name with
  | None => (inr (fault "ValidationException"), s)
  | Some n =>
      match tables s !! n with
      | Some t => k n t
      | None => (inr (fault "ResourceNotFoundException"), s)
      end
  end.

#[global] Instance service_client : StorageClient State :=
  {| listTables := fun s => (inl (Some (map fst (map_to_list (tables s)))), s);
     describeTable := fun name s =>
       on_table name s (fun n t =>
         (inl (Some (describe n (polled t))), with_table s n (polled t)));
     createTable := fun input s =>
       let n := cti_TableName input in
       match tables s !! n with
       | Some _ => (inr (fault "ResourceInUseException"), s)
       | None =>
           let t := {| polls_left := creating_polls s;
                       key_schema := cti_KeySchema input;
                       indexes := default [] (cti_GlobalSecondaryIndexes input);
                       ttl_attribute := None;
                       rows := [] |} in
           (inl (Some (describe n t)), with_table s n t)
       end;
     updateTimeToLive := fun input s =>
       on_table (ttl_TableName input) s (fun n t =>
         (inl (Some (ttl_Enabled input)), with_table s n (with_ttl (ttl_AttributeName input) t)));
     updateTable := fun input s =>
       on_table (Some (uti_TableName input)) s (fun n t =>
         let t' := with_indexes
                     (fold_left apply_update (uti_GlobalSecondaryIndexUpdates input) (indexes t)) t in
         (inl (Some (describe n t')), with_table s n t'));
     deleteItem := fun input s =>
       on_table (Some (ki_TableName input)) s (fun n t =>
         let old := List.find (same_key t (ki_Key input)) (rows t) in
         (inl (if bool_decide (ki_ReturnValues input = Some "ALL_OLD") then old else None),
          with_table s n
            (with_rows (List.filter (fun r => negb (same_key t (ki_Key input) r)) (rows t)) t)));
     getItem := fun input s =>
       on_table (Some (ki_TableName input)) s (fun n t =>
         (inl (List.find (same_key t (ki_Key input)) (rows t)), s));
     scan := fun input s =>
       on_table (Some (ri_TableName input)) s (fun n t =>
         (inl {| Items := Some (rows t); LastEvaluatedKey := None |}, s));
     query := fun input s =>
       on_table (Some (ri_TableName input)) s (fun n t =>
         (inl {| Items := Some (rows t); LastEvaluatedKey := None |}, s));
     putItem := fun input s =>
       on_table (Some (pi_TableName input)) s (fun n t =>
         let stored := List.find (same_key t (pi_Item input)) (rows t) in
         if condition_holds input stored then
           (inl tt,
            with_table s n
              (with_rows
                 (List.filter (fun r => negb (same_key t (pi_Item input) r)) (rows t)
                    ++ [pi_Item input]) t))
         else (inr (fault "ConditionalCheckFailedException"), s)) |}.

Definition world (s : State) : World State :=
  {| client := s; calls := []; logs := []; now := 0 |}.

End Service.

(** ** Behaviours of a client along a run *)

Section Behaviours.

Context {C : Type} {SC : StorageClient C}.

(** [poll_rejects e c td n]: starting from client state [c] with the table
    description [td] not yet ['ACTIVE'], the first [n - 1] describe calls
    answer with descriptions that are not ['ACTIVE'] and the [n]-th one fails
    with [e], either rejected by the client or for want of a [Table]. *)
Inductive poll_rejects : JsError -> C -> TableDescription -> nat -> Prop :=
| poll_rejects_now e c td c' :
    td_TableStatus td <> Some "ACTIVE" ->
    describeTable (td_TableName td) c = (inr e, c') ->
    poll_rejects e c td 1
| poll_rejects_empty c td c' :
    td_TableStatus td <> Some "ACTIVE" ->
    describeTable (td_TableName td) c = (inl None, c') ->
    poll_rejects (Error ("Unable to describe table '" ++ show_opt (td_TableName td) ++ "'"))
                 c td 1
| poll_rejects_later e c td c' td' n :
    td_TableStatus td <> Some "ACTIVE" ->
    describeTable (td_TableName td) c = (inl (Some td'), c') ->
    poll_rejects e c' td' n ->
    poll_rejects e c td (S n).

(** [serves sendPage c p pages]: asked for pages from the request [p] on, each
    request carrying the cursor of the page before it, the client in state
    [c] answers with the item lists [pages], every page but the last with a
    continuation cursor. *)
Inductive serves (sendPage : ReadInput -> C -> SdkResult ReadOutput * C)
  : C -> ReadInput -> list (list AttrMap) -> Prop :=
| serves_last c p c' items :
    sendPage p c = (inl {| Items := Some items; LastEvaluatedKey := None |}, c') ->
    serves sendPage c p [items]
| serves_more c p c' items k rest :
    sendPage p c = (inl {| Items := Some items; LastEvaluatedKey := Some k |}, c') ->
    serves sendPage c' (set_ExclusiveStartKey (Some k) p) rest ->
    serves sendPage c p (items :: rest).

(** [accepts c requests c']: the client in state [c] accepts the update-table
    [requests] one after the other and is left in state [c']. *)
Inductive accepts : C -> list UpdateTableInput -> C -> Prop :=
| accepts_nil c : accepts c [] c
| accepts_cons c request out c1 rest c' :
    updateTable request c = (inl out, c1) ->
    accepts c1 rest c' ->
    accepts c (request :: rest) c'.

End Behaviours.

(** The requests of an index reconciliation, as C7 words them: one delete
    request for each live index whose name is not declared, then one create
    request, carrying the attribute definitions of the item, for each
    declared index whose name is not live. *)
Definition delete_request (TableName : string) (gsi : GlobalSecondaryIndex)
  : UpdateTableInput :=
  {| uti_TableName := TableName;
     uti_AttributeDefinitions := None;
     uti_GlobalSecondaryIndexUpdates := [Delete (IndexName gsi)] |}.

Definition create_request (TableName : string) (definitions : list AttributeDefinition)
    (gsi : GlobalSecondaryIndex) : UpdateTableInput :=
  {| uti_TableName := TableName;
     uti_AttributeDefinitions := Some definitions;
     uti_GlobalSecondaryIndexUpdates := [Create gsi] |}.

Definition undeclared (item : ItemType) (table : TableDescription)
  : list GlobalSecondaryIndex :=
  List.filter (fun gsi => negb (find_index (GlobalSecondaryIndexes item) (IndexName gsi)))
    (default [] (td_GlobalSecondaryIndexes table)).

Definition not_live (item : ItemType) (table : TableDescription)
  : list GlobalSecondaryIndex :=
  List.filter (fun gsi => negb (find_index (td_GlobalSecondaryIndexes table) (IndexName gsi)))
    (default [] (GlobalSecondaryIndexes item)).

Definition reconciliation (TableName : string) (item : ItemType) (table : TableDescription)
  : list UpdateTableInput :=
  map (delete_request TableName) (undeclared item table)
  ++ map (create_request TableName (AttributeDefinitions item)) (not_live item table).

Definition reconciliation_log (TableName : string) (item : ItemType)
    (table : TableDescription) : list LogEntry :=
  map (fun gsi => {| level := LDebug;
                     message := "Deleted GSI: " ++ TableName ++ "/" ++ show_opt (IndexName gsi);
                     logged_error := None |}) (undeclared item table)
  ++ map (fun gsi => {| level := LDebug;
                        message := "Created GSI: " ++ TableName ++ "/" ++ show_opt (IndexName gsi);
                        logged_error := None |}) (not_live item table).

(** Counting the commands of one kind in a call log. *)
Definition is_CreateTable (c : Command) : bool :=
  match c with CreateTableCommand _ => true | _ => false end.

Definition is_PutItem (c : Command) : bool :=
  match c with PutItemCommand _ => true | _ => false end.

Definition is_Read (c : Command) : bool :=
  match c with QueryCommand _ | ScanCommand _ => true | _ => false end.

Definition count (f : Command -> bool) (l : list Command) : nat :=
  length (List.filter f l).

Definition entry (l : LogLevel) (msg : string) (e : option JsError) : LogEntry :=
  {| level := l; message := msg; logged_error := e |}.

(** The world after a command was sent and the client moved to [c]. *)
Definition sent {C : Type} (cmd : Command) (c : C) (w : World C) : World C :=
  {| client := c; calls := calls w ++ [cmd]; logs := logs w; now := now w |}.

(** The world after the logger recorded [es]. *)
Definition logged {C : Type} (es : list LogEntry) (w : World C) : World C :=
  {| client := client w; calls := calls w; logs := logs w ++ es; now := now w |}.

(** The log record of [PutItem] after the increment of a version. *)
Definition increment_log (oldVersion : option JsNum) (item1 : Item) : list LogEntry :=
  match oldVersion with
  | Some v =>
      [ entry LDebug ("PutItem: Incremented Version: " ++ Num_toString v ++ " -> "
                        ++ from_option Num_toString "undefined" (Version item1)) None ]
  | None => []
  end.

(** The log records of [PutItem] before the write is sent. *)
Definition before_write (oldVersion : option JsNum) (item1 : Item) : list LogEntry :=
  increment_log oldVersion item1 ++ [ entry LDebug "PutItem:" None ].

(** ** Versions and the marshaller *)

(** The numbers that [IncrementVersion()] moves on from: those whose
    successor is not negative.  For the others it throws. *)
Definition incrementable (v : JsNum) : bool := negb (Num_ltb (Num_succ v) 0).

(** The numbers that [Version(value)] takes back after an increment: the
    sentinel, through the special case for a first save, and the numbers
    that are not negative.  A number strictly between [-1] and [0] can be
    incremented and not be taken back. *)
Definition restorable (v : JsNum) : bool :=
  Num_eqb v INITIAL_VERSION_NUMBER || negb (Num_ltb v 0).

(** The record as [IncrementVersion()] at clock [ms] leaves it when it does
    not throw; a record without a version is not incremented by [PutItem]. *)
Definition incremented (ms : Z) (item : Item) : Item :=
  match Version item with
  | Some v => MarkUpdated ms (set_version (Num_succ v) item)
  | None => item
  end.

(** The marshaller accepts the record: none of its numbers is [NaN], an
    infinity or beyond the safe integers. *)
Definition marshallable (item : Item) : Prop :=
  marshall_instance item = inl (marshall_item item).

(** What [PutItem] leaves of the version when it does not return: the
    version is again what it was, unless the error raised is the refusal of
    the record by the marshaller, after the increment and before any write
    of that call. *)
Definition version_kept {C : Type} (v : JsNum) (r : Outcome bool * (Item * World C))
  : Prop :=
  match fst r with
  | Ret _ => True
  | Throw e =>
      Version (fst (snd r)) = Some v \/
      (Version (fst (snd r)) = Some (Num_succ v) /\
       marshall_instance (fst (snd r)) = inr e)
  | Pending => Version (fst (snd r)) = Some v
  end.

(** The error with which the marshaller refuses the values of the guard,
    [{ ':version': oldVersion }], when [PutItem] marshals them. *)
Definition guard_refusal (oldVersion : option JsNum) : option JsError :=
  match oldVersion with
  | Some v => if Num_gtb v INITIAL_VERSION_NUMBER then refusal [VNum v] else None
  | None => None
  end.

(** The bound of C5 on the commands a call adds to the log: at most [puts]
    writes and at most [creates] create-table requests. *)
Definition within (puts creates : nat) (new : list Command) : Prop :=
  count is_PutItem new <= puts /\ count is_CreateTable new <= creates.

(** The call log of [w'] is the call log of [w] followed by commands [new]
    that satisfy [P]. *)
Definition grew {C : Type} (P : list Command -> Prop) (w w' : World C) : Prop :=
  exists new, calls w' = calls w ++ new /\ P new.

(** A call was refused for its arguments: it raised an [ArgumentError], and
    the client and the call log are as they were. *)
Definition refused {C A : Type} (r : Outcome A * World C) (w : World C) : Prop :=
  (exists msg, fst r = Throw (ArgumentError msg)) /\
  calls (snd r) = calls w /\ client (snd r) = client w.

(** [Items.map(i => new Type().Assign(unmarshall(i)))] at clock [ms]. *)
Definition hydrate (Type_ : ItemType) (ms : Z) (rows : list AttrMap) : list Item :=
  map (fun i => Assign i (new_Item Type_ ms)) rows.

(** The log records of one turn of the page loop. *)
Definition page_log (debug : bool) (label : string) : list LogEntry :=
  if debug then
    [ entry LDebug (label ++ "CommandOutput") None;
      entry LDebug (label ++ ": Response.Items") None;
      entry LDebug (label ++ ": Unmarshalled") None ]
  else [ entry LDebug (label ++ " Info") None ].

(** What C8 says of a read with limit [N] over a client that serves [pages],
    started in world [w] and ended with [r]: the read fetched the pages
    [front ++ [last]] and returned their items; it sent one request per
    fetched page; before each page after the first the count was below [N];
    it stopped at a page without cursor or with the count at [N] or more; so
    it returns [N] items at least, and no more than [N] and the last page. *)
Definition stops_at_limit {C : Type} (Type_ : ItemType) (N : nat)
    (pages : list (list AttrMap)) (w : World C)
    (r : Outcome (list Item) * World C) : Prop :=
  exists (front : list (list AttrMap)) (last : list AttrMap)
         (unfetched : list (list AttrMap)) (items : list Item),
    pages = front ++ last :: unfetched /\
    fst r = Ret items /\
    items = hydrate Type_ (now w) (concat (front ++ [last])) /\
    grew (fun new => length new = S (length front) /\ count is_Read new = S (length front))
         w (snd r) /\
    (front = [] \/ length (concat front) < N) /\
    (unfetched = [] \/ N <= length (concat (front ++ [last]))) /\
    N <= length items /\
    length items <= N + length last.

(** [options] with other values of [Required] and [IgnoreTableNotFound]. *)
Definition with_Required (required : option (option bool))
    (ignoreTableNotFound : option bool) (o : ReadOptions) : ReadOptions :=
  {| Required := required;
     ConsistentRead := ConsistentRead o;
     opt_IndexName := opt_IndexName o;
     IndexPartitionKeyFieldName := IndexPartitionKeyFieldName o;
     IndexRangeFieldName := IndexRangeFieldName o;
     IgnoreTableNotFound := ignoreTableNotFound;
     Limit := Limit o; FilterExpression := FilterExpression o;
     ExpressionAttributeValues := ExpressionAttributeValues o;
     ExclusiveStartKey := ExclusiveStartKey o;
     ScanIndexForward := ScanIndexForward o |}.

(** ** Sample data *)

Module Sample.

Definition cfg : Config :=
  {| TablePrefix := Some "local"; _debugMode := false;
     _delayAfterCreateTable := DEFAULT_CREATE_TABLE_DELAY_AFTER_ACTIVE |}.

Definition gsi (name : string) : GlobalSecondaryIndex :=
  {| IndexName := Some name;
     gsi_KeySchema := [ {| ks_AttributeName := name; KeyType := "HASH" |} ];
     gsi_ProjectionType := Some "ALL" |}.

(** A versioned class keyed by [id], declaring the indexes [B] and [C]. *)
Definition Thing : ItemType :=
  {| BaseTableName := "Things";
     IdFieldName := "id";
     RangeFieldName := None;
     TTLFieldName := None;
     AttributeDefinitions :=
       DynamoDbItem_AttributeDefinitions "id" None
         ++ [ {| AttributeName := "B"; AttributeType := "S" |};
              {| AttributeName := "C"; AttributeType := "S" |} ];
     KeySchema := DynamoDbItem_KeySchema "id" None;
     LocalSecondaryIndexes := None;
     GlobalSecondaryIndexes := Some [gsi "B"; gsi "C"];
     Versioned := true;
     Expiring := false;
     DefaultProps := {[ "id" := VStr "" ]} |}.

(** [new Thing(id)] at clock 0. *)
Definition thing (id : string) : Item :=
  Assign {[ "id" := VStr id ]} (new_Item Thing 0).

Definition thing_at (id : string) (v : JsNum) : Item := set_version v (thing id).

(** [new Thing('a1').Assign({ version: -0.5 })]: the instance that a read
    builds from a stored row whose [version] attribute is [-0.5]. *)
Definition half : Item := Assign {[ "version" := VNum (Frac (-1) 1) ]} (thing "a1").

Definition boom : JsError :=
  {| err_name := "InternalServerError"; err_message := "boom" |}.

Definition conflict : JsError :=
  {| err_name := "ConditionalCheckFailedException";
     err_message := "The conditional request failed" |}.

Definition not_found : JsError :=
  {| err_name := "ResourceNotFoundException";
     err_message := "Requested resource not found" |}.

Definition creating : TableDescription :=
  {| td_TableName := Some "local.Things"; td_TableStatus := Some "CREATING";
     td_GlobalSecondaryIndexes := None |}.

Definition active : TableDescription :=
  {| td_TableName := Some "local.Things"; td_TableStatus := Some "ACTIVE";
     td_GlobalSecondaryIndexes := None |}.

Definition empty_service : Service.State :=
  {| Service.tables := ∅; Service.creating_polls := 2 |}.

(** A service holding the table of [Thing] with the live indexes [A], [B]. *)
Definition service_AB : Service.State :=
  {| Service.tables :=
       {[ "local.Things" :=
            {| Service.polls_left := 0;
               Service.key_schema := KeySchema Thing;
               Service.indexes := [gsi "A"; gsi "B"];
               Service.ttl_attribute := None;
               Service.rows := [] |} ]};
     Service.creating_polls := 2 |}.

(** The create-table request for [Thing]. *)
Definition schema : CreateTableInput := CreateSchema cfg Thing None.

(** [{ CreateTableIfNotExists: true, Class: Thing }] *)
Definition heal : IPutItemOptions :=
  {| opt_CreateTableIfNotExists := Some true; CreateSchemaOptions := None;
     Class := Some Thing |}.

(** [{ CreateTableIfNotExists: true }], without the class. *)
Definition heal_without_class : IPutItemOptions :=
  {| opt_CreateTableIfNotExists := Some true; CreateSchemaOptions := None;
     Class := None |}.

(** The world after [thing "a1"] was first saved, with self-healing, on the
    empty service: the table exists and holds the record at version 0. *)
Definition saved_world : World Service.State :=
  snd (snd (PutItem cfg 6 heal (thing "a1", Service.world empty_service))).

Definition row (id : string) : AttrMap := {[ "id" := VStr id ]}.

Definition cursor (id : string) : option AttrMap := Some {[ "id" := VStr id ]}.

(** Five rows served in three pages, the first two with a cursor. *)
Definition pages : list (list AttrMap) :=
  [ [row "1"; row "2"]; [row "3"; row "4"]; [row "5"] ].

Definition paged_script : list Scripted.Reply :=
  [ Scripted.Page {| Items := Some [row "1"; row "2"]; LastEvaluatedKey := cursor "2" |};
    Scripted.Page {| Items := Some [row "3"; row "4"]; LastEvaluatedKey := cursor "4" |};
    Scripted.Page {| Items := Some [row "5"]; LastEvaluatedKey := None |} ].

(** [{ Limit: 3 }] *)
Definition limit3 : ReadOptions :=
  {| Required := None; ConsistentRead := None; opt_IndexName := None;
     IndexPartitionKeyFieldName := None; IndexRangeFieldName := None;
     IgnoreTableNotFound := None; Limit := Some 3%Z; FilterExpression := None;
     ExpressionAttributeValues := None; ExclusiveStartKey := None;
     ScanIndexForward := None |}.

(** [{ IndexName: 'B', IndexPartitionKeyFieldName: 'B', Required: true,
       IgnoreTableNotFound: true }] *)
Definition by_index : ReadOptions :=
  {| Required := Some (Some true); ConsistentRead := None; opt_IndexName := Some "B";
     IndexPartitionKeyFieldName := Some "B"; IndexRangeFieldName := None;
     IgnoreTableNotFound := Some true; Limit := None; FilterExpression := None;
     ExpressionAttributeValues := None; ExclusiveStartKey := None;
     ScanIndexForward := None |}.

End Sample.

(** ** Construction of the wrapper *)

(** [IDynamoDbClientWrapperOptions], by the fields that reach the table
    operations: the settle delay and the debug switch. *)
Record WrapperOptions : Type :=
  { DelayAfterCreateTable : option Z;
    DebugMode : option bool }.

(** [process.env.TABLE_PREFIX || process.env.ENVIRONMENT_NAME || 'local'] *)
Definition DEFAULT_TABLE_PREFIX (TABLE_PREFIX ENVIRONMENT_NAME : option string) : string :=
  if truthy_str TABLE_PREFIX then show_opt TABLE_PREFIX
  else if truthy_str ENVIRONMENT_NAME then show_opt ENVIRONMENT_NAME
  else "local".

(** [set TablePrefix(prefix)] *)
Definition set_TablePrefix (prefix : option string) (cfg : Config) : Config + JsError :=
  if match prefix with
     | Some s => Nat.eqb (String.length s) 0
     | None => false
     end
  then inr (ArgumentError "prefix cannot be an empty string")
  else inl {| TablePrefix := prefix;
              _debugMode := _debugMode cfg;
              _delayAfterCreateTable := _delayAfterCreateTable cfg |}.

(** [new DynamoDbClientWrapper(tablePrefix, options)], in an environment whose
    [DEFAULT_TABLE_PREFIX] is [default_prefix]: an absent [tablePrefix] takes
    the default, the prefix goes through the setter, and [??] keeps every
    value of an option that is not [undefined]. *)
Definition new_DynamoDbClientWrapper (default_prefix : string) (tablePrefix : option string)
    (options : option WrapperOptions) : Config + JsError :=
  match set_TablePrefix (Some (default default_prefix tablePrefix))
          {| TablePrefix := None; _debugMode := false;
             _delayAfterCreateTable := DEFAULT_CREATE_TABLE_DELAY_AFTER_ACTIVE |} with
  | inl this =>
      inl {| TablePrefix := TablePrefix this;
             _debugMode := default false (options ≫= DebugMode);
             _delayAfterCreateTable :=
               default DEFAULT_CREATE_TABLE_DELAY_AFTER_ACTIVE
                 (options ≫= DelayAfterCreateTable) |}
  | inr e => inr e
  end.

(** ** Calls on the version of an item *)

(** A call of [IncrementVersion()] or of [Version(value)] with a number. *)
Inductive VersionCall : Type :=
| CallIncrementVersion
| CallVersion (value : Z).

(** The item after the call at clock [ms]; a call that throws does so before
    it assigns anything, and leaves the item as it was. *)
Definition call_version (it : Item) (c : Z * VersionCall) : Item :=
  match (match snd c with
         | CallIncrementVersion => IncrementVersion (fst c) it
         | CallVersion value => Version_set (fst c) value it
         end) with
  | inl it' => it'
  | inr _ => it
  end.

(** ** More behaviours of a client along a run *)

Section Polls.

Context {C : Type} {SC : StorageClient C}.

(** [becomes_active c td polls c' td']: from client state [c] and the
    description [td], the wait loop sends the describe commands [polls], each
    for the table name of the description before it and each answered with a
    description; the last one, [td'], is the first that is ['ACTIVE'], and the
    client is left in state [c']. *)
Inductive becomes_active
  : C -> TableDescription -> list Command -> C -> TableDescription -> Prop :=
| becomes_active_now c td :
    td_TableStatus td = Some "ACTIVE" ->
    becomes_active c td [] c td
| becomes_active_later c td c1 td1 polls c' td' :
    td_TableStatus td <> Some "ACTIVE" ->
    describeTable (td_TableName td) c = (inl (Some td1), c1) ->
    becomes_active c1 td1 polls c' td' ->
    becomes_active c td (DescribeTableCommand (td_TableName td) :: polls) c' td'.

(** [stays_inactive c td n]: the description [td] and the answers to the
    next [n] describe calls are all descriptions that are not ['ACTIVE']. *)
Inductive stays_inactive : C -> TableDescription -> nat -> Prop :=
| stays_inactive_O c td :
    td_TableStatus td <> Some "ACTIVE" ->
    stays_inactive c td 0
| stays_inactive_S c td c1 td1 n :
    td_TableStatus td <> Some "ACTIVE" ->
    describeTable (td_TableName td) c = (inl (Some td1), c1) ->
    stays_inactive c1 td1 n ->
    stays_inactive c td (S n).

(** [fails_after sendPage c p pages e c']: the client serves [pages], each
    with a continuation cursor, and rejects the request after them with [e]. *)
Inductive fails_after (sendPage : ReadInput -> C -> SdkResult ReadOutput * C)
  : C -> ReadInput -> list (list AttrMap) -> JsError -> C -> Prop :=
| fails_now c p e c' :
    sendPage p c = (inr e, c') ->
    fails_after sendPage c p [] e c'
| fails_later c p c1 items k rest e c' :
    sendPage p c = (inl {| Items := Some items; LastEvaluatedKey := Some k |}, c1) ->
    fails_after sendPage c1 (set_ExclusiveStartKey (Some k) p) rest e c' ->
    fails_after sendPage c p (items :: rest) e c'.

(** [rejects c requests e c']: the client accepts the update-table
    [requests] but the last, which it rejects with [e]. *)
Inductive rejects : C -> list UpdateTableInput -> JsError -> C -> Prop :=
| rejects_last c request e c' :
    updateTable request c = (inr e, c') ->
    rejects c [request] e c'
| rejects_later c request out c1 rest e c' :
    updateTable request c = (inl out, c1) ->
    rejects c1 rest e c' ->
    rejects c (request :: rest) e c'.

End Polls.

(** The commands that read and do not change a table or an item. *)
Definition is_lookup (c : Command) : bool :=
  match c with
  | ListTablesCommand | DescribeTableCommand _ | GetItemCommand _
  | ScanCommand _ | QueryCommand _ => true
  | _ => false
  end.

(** The call log of [w'] is that of [w] followed by lookups only. *)
Definition only_lookups {C : Type} (w w' : World C) : Prop :=
  grew (fun new => forallb is_lookup new = true) w w'.

(** The request of a read by primary key, of [GetItem] and of [DeleteItem]. *)
Definition keyed_request (cfg : Config) (Type_ : ItemType) (Key : AttrMap)
    (returnValues : option string) (consistentRead : option bool) : KeyedInput :=
  {| ki_TableName := GenerateTableName cfg (BaseTableName Type_);
     ki_Key := Key;
     ki_ReturnValues := returnValues;
     ki_ConsistentRead := consistentRead |}.

(** The request that enables the time-to-live of a created table. *)
Definition ttl_request (td : TableDescription) (attribute : string) : UpdateTimeToLiveInput :=
  {| ttl_TableName := td_TableName td;
     ttl_Enabled := true;
     ttl_AttributeName := attribute |}.

(** The values of the caller, [options.ExpressionAttributeValues || {}]. *)
Definition caller_values (options : ReadOptions) : AttrMap :=
  default ∅ (ExpressionAttributeValues options).

(** ** More sample data *)

Module Sample2.

(** An unversioned, expiring class keyed by [id] and [at], with the default
    attribute definitions and key schema. *)
Definition Event : ItemType :=
  {| BaseTableName := "Events";
     IdFieldName := "id";
     RangeFieldName := Some "at";
     TTLFieldName := Some "expiresAt";
     AttributeDefinitions := DynamoDbItem_AttributeDefinitions "id" (Some "at");
     KeySchema := DynamoDbItem_KeySchema "id" (Some "at");
     LocalSecondaryIndexes := None;
     GlobalSecondaryIndexes := None;
     Versioned := false;
     Expiring := true;
     DefaultProps := ∅ |}.

(** [new Event(1700000000)], with the id [e1] and the range value [t1]: an
    instance built with its expiry. *)
Definition event : Item :=
  Assign {[ "id" := VStr "e1"; "at" := VStr "t1"; "expiresAt" := VNum 1700000000 ]}
    (new_Item Event 0).

Definition events_creating : TableDescription :=
  {| td_TableName := Some "local.Events"; td_TableStatus := Some "CREATING";
     td_GlobalSecondaryIndexes := None |}.

Definition events_active : TableDescription :=
  {| td_TableName := Some "local.Events"; td_TableStatus := Some "ACTIVE";
     td_GlobalSecondaryIndexes := None |}.

(** [{ Required: false }] *)
Definition optional : ReadOptions := with_Required (Some (Some false)) None no_options.

(** [{ Required: undefined }] *)
Definition required_undefined : ReadOptions := with_Required (Some None) None no_options.

(** [{ IgnoreTableNotFound: true }] *)
Definition lenient : ReadOptions := with_Required None (Some true) no_options.

(** A stored record of [Thing] at version 4. *)
Definition stored : AttrMap :=
  {[ "id" := VStr "a1"; "version" := VNum 4; "createdAt" := VNum 10;
     "updatedAt" := VNum 20 ]}.

(** [{ ExpressionAttributeValues: { ':partitionkeyval': 'zz', ':min': 3 },
       FilterExpression: 'size > :min' }] *)
Definition filtered : ReadOptions :=
  {| Required := None; ConsistentRead := None; opt_IndexName := None;
     IndexPartitionKeyFieldName := None; IndexRangeFieldName := None;
     IgnoreTableNotFound := None; Limit := None;
     FilterExpression := Some "size > :min";
     ExpressionAttributeValues := Some {[ ":partitionkeyval" := VStr "zz"; ":min" := VNum 3 ]};
     ExclusiveStartKey := None; ScanIndexForward := None |}.

End Sample2.

(** ** The key in a read request *)

(** [binds_key id range options p]: in the request [p] the placeholders
    [:partitionkeyval] and [:sortkeyval] carry the id and the range value
    that were given, every other placeholder carries what the caller bound
    to it, and neither the values nor the names are an empty object. *)
Definition binds_key (id range : option JsVal) (options : ReadOptions) (p : ReadInput)
  : Prop :=
  let values := default ∅ (ri_ExpressionAttributeValues p) in
  (forall v, id = Some v -> values !! ":partitionkeyval" = Some v) /\
  (forall r, range = Some r -> values !! ":sortkeyval" = Some r) /\
  (forall k, (k = ":partitionkeyval" -> id = None) ->
             (k = ":sortkeyval" -> range = None) ->
             values !! k = caller_values options !! k) /\
  ri_ExpressionAttributeValues p <> Some ∅ /\
  ri_ExpressionAttributeNames p <> Some ∅.


(** * Properties *)

(** ** Running computations *)

(** Unfold the combinators of a computation applied to a state. *)
Ltac mrun :=
  cbv beta iota zeta delta
    [bind try_catch liftW log sleep send ret throw pending get_local set_local
     on_item with_local of_result Date_now];
  cbn [fst snd client calls logs now].

Section Run.

Context {C : Type} {SC : StorageClient C}.
Variable cfg : Config.

Lemma send_run {A : Type} (cmd : Command) (f : C -> SdkResult A * C) (w : World C) :
  send cmd f w =
  (match fst (f (client w)) with inl a => Ret a | inr e => Throw e end,
   {| client := snd (f (client w)); calls := calls w ++ [cmd];
      logs := logs w; now := now w |}).
Proof. unfold send. destruct (f (client w)) as [r c']. reflexivity. Qed.

(** One poll of the wait loop, when the table is not yet active. *)
Lemma waitForActive_loop_step (fuel : nat) (td : TableDescription) (w : World C) :
  td_TableStatus td <> Some "ACTIVE" ->
  waitForActive_loop (S fuel) true td w =
  (let w1 := {| client := snd (describeTable (td_TableName td) (client w));
                calls := calls w ++ [DescribeTableCommand (td_TableName td)];
                logs := logs w; now := (now w + 500)%Z |} in
   match fst (describeTable (td_TableName td) (client w)) with
   | inl (Some td') =>
       waitForActive_loop fuel true td'
         {| client := client w1; calls := calls w1;
            logs := logs w1 ++ [ {| level := LDebug; message := "Table Status";
                                    logged_error := None |} ];
            now := now w1 |}
   | inl None =>
       let e := Error ("Unable to describe table '" ++ show_opt (td_TableName td) ++ "'") in
       (Throw e,
        {| client := client w1; calls := calls w1;
           logs := logs w1 ++ [ {| level := LError;
                                   message := "CreateTable: Waiting for ACTIVE";
                                   logged_error := Some e |} ];
           now := now w1 |})
   | inr e =>
       (Throw e,
        {| client := client w1; calls := calls w1;
           logs := logs w1 ++ [ {| level := LError;
                                   message := "CreateTable: Waiting for ACTIVE";
                                   logged_error := Some e |} ];
           now := now w1 |})
   end).
Proof.
  intros Hna. cbn [waitForActive_loop].
  rewrite bool_decide_eq_false_2 by exact Hna. cbn [andb negb].
  unfold bind, try_catch, sleep, send, log, ret, throw. cbn [client calls logs now].
  destruct (describeTable (td_TableName td) (client w)) as [[[td'|]|e] c']; reflexivity.
Qed.

(** A poll that fails ends the wait loop with the failure. *)
Lemma waitForActive_loop_rejects (e : JsError) (c : C) (td : TableDescription) (n : nat) :
  poll_rejects e c td n ->
  forall (fuel : nat) (w : World C),
    client w = c -> n <= fuel ->
    fst (waitForActive_loop fuel true td w) = Throw e.
Proof.
  induction 1 as [e c td c' Hna Hd | c td c' Hna Hd | e c td c' td' n Hna Hd Hrest IH];
    intros fuel w Hc Hfuel; (destruct fuel as [|fuel]; [lia|]);
    rewrite waitForActive_loop_step by exact Hna; rewrite Hc, Hd; cbn [fst snd].
  - reflexivity.
  - reflexivity.
  - apply IH; [reflexivity | lia].
Qed.

(** [CreateTable] up to the end of its first [try/catch]. *)
Lemma CreateTable_rejected (fuel : nat) (input : CreateTableInput) (waitForActive : bool)
    (ttlAttributeName : option string) (w : World C) (e : JsError) (c1 : C) :
  ttlAttributeName <> Some "" ->
  createTable input (client w) = (inr e, c1) ->
  CreateTable cfg fuel input waitForActive ttlAttributeName w =
  (Ret None,
   {| client := c1; calls := calls w ++ [CreateTableCommand input];
      logs := logs w ++ [ {| level := LError; message := "CreateTable";
                             logged_error := Some e |} ];
      now := now w |}).
Proof.
  intros Httl Hc. unfold CreateTable.
  replace (match ttlAttributeName with
           | Some s => Nat.eqb (String.length s) 0
           | None => false
           end) with false.
  2:{ destruct ttlAttributeName as [[|a s]|]; try reflexivity. congruence. }
  unfold bind, try_catch, send, log, ret. rewrite Hc. reflexivity.
Qed.

Lemma CreateTable_polls_reject (fuel : nat) (input : CreateTableInput)
    (ttlAttributeName : option string) (w : World C)
    (td : TableDescription) (c1 : C) (e : JsError) (n : nat) :
  ttlAttributeName <> Some "" ->
  createTable input (client w) = (inl (Some td), c1) ->
  poll_rejects e c1 td n ->
  n <= fuel ->
  fst (CreateTable cfg fuel input true ttlAttributeName w) = Throw e.
Proof.
  intros Httl Hc Hp Hfuel. unfold CreateTable.
  replace (match ttlAttributeName with
           | Some s => Nat.eqb (String.length s) 0
           | None => false
           end) with false.
  2:{ destruct ttlAttributeName as [[|a s]|]; try reflexivity. congruence. }
  unfold bind at 1. unfold try_catch at 1. unfold bind at 1. rewrite send_run, Hc.
  cbn [fst snd]. unfold bind at 1. unfold log at 1. unfold ret at 1.
  unfold bind at 1.
  match goal with
  | |- context [waitForActive_loop fuel true td ?w1] =>
      pose proof (waitForActive_loop_rejects e c1 td n Hp fuel w1 eq_refl Hfuel) as Hw;
      destruct (waitForActive_loop fuel true td w1) as [r w2]
  end.
  cbn [fst] in Hw. subst r. reflexivity.
Qed.

End Run.

(** ** The commands a method sends *)

Lemma count_app (f : Command -> bool) (l1 l2 : list Command) :
  count f (l1 ++ l2) = count f l1 + count f l2.
Proof. unfold count. rewrite List.filter_app, length_app. reflexivity. Qed.

Lemma grew_weaken {C : Type} (P Q : list Command -> Prop) (w w' : World C) :
  (forall l, P l -> Q l) -> grew P w w' -> grew Q w w'.
Proof. intros HPQ (new & Hc & HP). exists new. auto. Qed.

Lemma within_weaken (a b a' b' : nat) (l : list Command) :
  a <= a' -> b <= b' -> within a b l -> within a' b' l.
Proof. unfold within. lia. Qed.

(** Close a goal [grew P w w'] when the call log of [w'] is, through the
    [grew] facts at hand, the call log of [w] and more. *)
Ltac grew_leaf :=
  repeat match goal with
         | H : grew _ _ _ |- _ =>
             let new := fresh "new" in
             let Hc := fresh "Hcalls" in
             let Hw := fresh "Hwithin" in
             destruct H as (new & Hc & Hw)
         end;
  cbn [calls fst snd] in *;
  eexists; split;
  [ cbn [calls fst snd];
    repeat match goal with
           | H : calls _ = _ |- _ => rewrite H; clear H
           end;
    rewrite <- ?app_assoc; first [reflexivity | symmetry; apply app_nil_r]
  | unfold within in *; rewrite ?count_app;
    cbn [count List.filter is_PutItem is_CreateTable length app]; lia ].

Section Calls.

Context {C : Type} {SC : StorageClient C}.
Variable cfg : Config.

Lemma ListTables_calls (w : World C) :
  calls (snd (ListTables w)) = calls w ++ [ListTablesCommand].
Proof.
  unfold ListTables. mrun.
  destruct (listTables (client w)) as [[names|e] c1]; reflexivity.
Qed.

Lemma ListTables_settles (w : World C) : fst (ListTables w) <> Pending.
Proof.
  unfold ListTables. mrun.
  destruct (listTables (client w)) as [[names|e] c1]; discriminate.
Qed.

Lemma DescribeTable_calls (tableName : string) (w : World C) :
  calls (snd (DescribeTable tableName w)) =
  calls w ++ [DescribeTableCommand (Some tableName)].
Proof.
  unfold DescribeTable. mrun.
  destruct (describeTable (Some tableName) (client w)) as [[[td|]|e] c1]; cbn [fst snd].
  - destruct (bool_decide (td_TableName td = Some tableName)); reflexivity.
  - reflexivity.
  - destruct (is_ResourceNotFound e); reflexivity.
Qed.

Lemma waitForActive_loop_calls (fuel : nat) (waitForActive : bool)
    (td : TableDescription) (w : World C) :
  grew (within 0 0) w (snd (waitForActive_loop fuel waitForActive td w)).
Proof.
  revert td w. induction fuel as [|fuel IH]; intros td w.
  - cbn [waitForActive_loop].
    destruct (waitForActive && negb (bool_decide (td_TableStatus td = Some "ACTIVE")));
      mrun; grew_leaf.
  - destruct waitForActive.
    + destruct (decide (td_TableStatus td = Some "ACTIVE")) as [Ha|Hna].
      * cbn [waitForActive_loop]. rewrite bool_decide_eq_true_2 by exact Ha.
        mrun. grew_leaf.
      * rewrite waitForActive_loop_step by exact Hna. cbn zeta.
        destruct (describeTable (td_TableName td) (client w)) as [[[td'|]|e] c1];
          cbn [fst snd client calls logs now].
        -- match goal with
           | |- context [waitForActive_loop fuel true td' ?w1] =>
               pose proof (IH td' w1) as Hrest
           end.
           grew_leaf.
        -- grew_leaf.
        -- grew_leaf.
    + cbn [waitForActive_loop andb]. mrun. grew_leaf.
Qed.

Lemma CreateTable_calls (fuel : nat) (input : CreateTableInput) (waitForActive : bool)
    (ttlAttributeName : option string) (w : World C) :
  grew (within 0 1) w (snd (CreateTable cfg fuel input waitForActive ttlAttributeName w)).
Proof.
  unfold CreateTable.
  destruct (match ttlAttributeName with
            | Some s => Nat.eqb (String.length s) 0
            | None => false
            end); mrun; [grew_leaf|].
  destruct (createTable input (client w)) as [[[td|]|e] c1]; mrun; try grew_leaf.
  match goal with
  | |- context [waitForActive_loop fuel waitForActive td ?w1] =>
      pose proof (waitForActive_loop_calls fuel waitForActive td w1) as Hloop;
      destruct (waitForActive_loop fuel waitForActive td w1) as [[td'|e|] w2]
  end; mrun; try grew_leaf.
  destruct (negb (Z.eqb (_delayAfterCreateTable cfg) 0)); mrun;
    (destruct (truthy_str ttlAttributeName); mrun;
     [ match goal with
       | |- context [updateTimeToLive ?i ?c] =>
           destruct (updateTimeToLive i c) as [[[[|]|]|e] c3]
       end; mrun; grew_leaf
     | grew_leaf ]).
Qed.

Lemma CreateTableIfNotExists_calls (fuel : nat) (input : CreateTableInput)
    (waitForActive : bool) (ttlAttributeName : option string) (w : World C) :
  grew (within 0 1) w
       (snd (CreateTableIfNotExists cfg fuel input waitForActive ttlAttributeName w)).
Proof.
  unfold CreateTableIfNotExists. mrun.
  pose proof (ListTables_calls w) as Hl.
  destruct (ListTables w) as [[names|e|] w1]; mrun; try grew_leaf.
  destruct (includes names (cti_TableName input)).
  - pose proof (DescribeTable_calls (cti_TableName input) w1) as Hd.
    destruct (DescribeTable (cti_TableName input) w1) as [[td|e|] w2]; mrun; grew_leaf.
  - pose proof (CreateTable_calls fuel input waitForActive ttlAttributeName w1) as Hc.
    destruct (CreateTable cfg fuel input waitForActive ttlAttributeName w1) as [r w2].
    grew_leaf.
Qed.

Lemma InitializeTable_calls (fuel : nat) (Type_ : ItemType)
    (existingTables : option (list string)) (options : option ICreateSchemaOptions)
    (w : World C) :
  grew (within 0 1) w (snd (InitializeTable cfg fuel Type_ existingTables options w)).
Proof.
  unfold InitializeTable. mrun.
  assert (Hstart : forall (names : list string) (w1 : World C),
             grew (within 0 0) w w1 ->
             grew (within 0 1) w
               (snd ((if includes names (GenerateTableName cfg (BaseTableName Type_))
                      then log LInfo "InitializeTable: Table Exists" None
                      else
                        log LInfo "Initialize Table" None ;;
                        created <- CreateTableIfNotExists cfg fuel (CreateSchema cfg Type_ options)
                                     true (TTLFieldName Type_) ;;
                        match created with
                        | Some _ => ret tt
                        | None =>
                            throw (Error ("Fatal Error: Could not create "
                                            ++ GenerateTableName cfg (BaseTableName Type_)))
                        end) w1))).
  { intros names w1 H1.
    destruct (includes names (GenerateTableName cfg (BaseTableName Type_))); mrun.
    - grew_leaf.
    - match goal with
      | |- context [CreateTableIfNotExists cfg fuel ?i true ?t ?w2] =>
          pose proof (CreateTableIfNotExists_calls fuel i true t w2) as Hc;
          destruct (CreateTableIfNotExists cfg fuel i true t w2) as [[[td|]|e|] w3]
      end; mrun; grew_leaf. }
  destruct existingTables as [names|]; mrun.
  - apply (Hstart names w). exists []. split; [symmetry; apply app_nil_r|].
    unfold within; cbn; lia.
  - pose proof (ListTables_calls w) as Hl.
    destruct (ListTables w) as [[names|e|] w1]; cbn [fst snd] in *; try grew_leaf.
    apply (Hstart names w1). exists [ListTablesCommand]. split; [exact Hl|].
    unfold within; cbn; lia.
Qed.

End Calls.

(** ** Numbers *)

Lemma pow2_pos (k : positive) : (0 < 2 ^ Z.pos k)%Z.
Proof. apply Z.pow_pos_nonneg; lia. Qed.

(** Turn the comparisons of numbers in the goal and the hypotheses into
    comparisons of integers, by cases on the numbers. *)
Ltac num_cases v :=
  unfold restorable, Num_gtb, Num_ltb, Num_eqb, Num_compare, INITIAL_VERSION_NUMBER in *;
  destruct v as [n|m k| |[|]];
  try pose proof (pow2_pos k);
  cbn [negb andb orb] in *;
  repeat match goal with
         | |- context [(?a ?= ?b)%Z] => destruct (Z.compare_spec a b)
         | H : context [(?a ?= ?b)%Z] |- _ => destruct (Z.compare_spec a b)
         end;
  cbn [negb andb orb] in *;
  try discriminate; try reflexivity; try lia.

(** A reduced fraction has the sign of its numerator. *)
Lemma dyadic_compare_0 (k : nat) :
  forall y : Z, Num_compare (dyadic y k) (Int 0) = Some (y ?= 0)%Z.
Proof.
  induction k as [|k IH]; intros y; cbn [dyadic]; [reflexivity|].
  destruct (Z.even y) eqn:He.
  - rewrite IH. f_equal. apply Z.even_spec in He. destruct He as [z ->].
    rewrite Z.div2_div, Z.mul_comm, Z.div_mul by lia. destruct z; reflexivity.
  - cbn [Num_compare]. rewrite Z.mul_0_l. reflexivity.
Qed.


(** The bits that [round53] keeps when it drops [d] bits: there are 53. *)
Lemma kept_bits (a : Z) :
  (0 < Z.log2 a + 1 - 53)%Z ->
  (4503599627370496 <= Z.shiftr a (Z.log2 a + 1 - 53))%Z.
Proof.
  intros Hd.
  assert (Ha : (0 < a)%Z).
  { destruct (Z_lt_le_dec 0 a) as [Hlt|Hle]; [exact Hlt|].
    rewrite (Z.log2_nonpos a Hle) in Hd. lia. }
  rewrite Z.shiftr_div_pow2 by lia.
  apply Z.div_le_lower_bound; [apply Z.pow_pos_nonneg; lia|].
  change 4503599627370496%Z with (2 ^ 52)%Z.
  rewrite <- Z.pow_add_r by lia.
  replace (Z.log2 a + 1 - 53 + 52)%Z with (Z.log2 a) by lia.
  apply Z.log2_spec. exact Ha.
Qed.

(** Rounding keeps the sign, and only zero rounds to zero. *)
Lemma round53_compare_0 (x : Z) (k : nat) :
  Num_compare (round53 x k) (Int 0) = Some (x ?= 0)%Z.
Proof.
  unfold round53. cbv zeta.
  destruct (Z.leb_spec (Z.log2 (Z.abs x) + 1 - 53) 0) as [Hd|Hd];
    [apply dyadic_compare_0|].
  pose proof (kept_bits (Z.abs x) Hd) as Hq.
  set (d := (Z.log2 (Z.abs x) + 1 - 53)%Z) in *.
  set (q := Z.shiftr (Z.abs x) d) in *.
  match goal with
  | |- context [(Z.sgn x * ?c)%Z] => set (q' := c)
  end.
  assert (Hq' : (0 < q')%Z) by (subst q'; destruct (_ || _); lia).
  assert (Hsign : (Z.sgn x * q' ?= 0)%Z = (x ?= 0)%Z).
  { destruct x as [|p|p]; cbn [Z.sgn].
    - reflexivity.
    - destruct (Z.compare_spec (1 * q') 0); try reflexivity; lia.
    - destruct (Z.compare_spec (-1 * q') 0); try reflexivity; lia. }
  destruct (Z.ltb_spec d (Z.of_nat k)) as [Hk|Hk].
  - rewrite dyadic_compare_0. f_equal. exact Hsign.
  - cbn [Num_compare]. f_equal. rewrite <- Hsign.
    assert (Hp : (0 < 2 ^ (d - Z.of_nat k))%Z) by (apply Z.pow_pos_nonneg; lia).
    destruct (Z.compare_spec (Z.sgn x * q' * 2 ^ (d - Z.of_nat k)) 0);
      destruct (Z.compare_spec (Z.sgn x * q') 0); try reflexivity; nia.
Qed.


(** A number of [2^53] and more, over [2^k], rounds to an integer of [2^53]
    and more. *)
Lemma round53_large (x : Z) (k : nat) :
  (2 ^ (53 + Z.of_nat k) <= x)%Z ->
  exists N : Z, round53 x k = Int N /\ (9007199254740992 <= N)%Z.
Proof.
  intros Hx.
  assert (Hpos : (0 < 2 ^ (53 + Z.of_nat k))%Z) by (apply Z.pow_pos_nonneg; lia).
  assert (Hlog : (53 + Z.of_nat k <= Z.log2 x)%Z).
  { rewrite <- (Z.log2_pow2 (53 + Z.of_nat k)) by lia. apply Z.log2_le_mono. exact Hx. }
  unfold round53. cbv zeta. rewrite (Z.abs_eq x) by lia.
  pose proof (kept_bits x ltac:(lia)) as Hq.
  set (d := (Z.log2 x + 1 - 53)%Z) in *.
  set (q := Z.shiftr x d) in *.
  destruct (Z.leb_spec d 0) as [Hd|Hd]; [lia|].
  destruct (Z.ltb_spec d (Z.of_nat k)) as [Hk|Hk]; [lia|].
  eexists. split; [reflexivity|].
  rewrite (Z.sgn_pos x) by lia. rewrite Z.mul_1_l.
  assert (Hp : (2 <= 2 ^ (d - Z.of_nat k))%Z).
  { change 2%Z with (2 ^ 1)%Z at 1. apply Z.pow_le_mono_r; lia. }
  destruct (_ || _); nia.
Qed.

(** [v + 1] is to [0] as [v] is to [-1]. *)
Lemma Num_succ_compare_0 (v : JsNum) :
  Num_compare (Num_succ v) (Int 0) = Num_compare v (Int (-1)).
Proof.
  destruct v as [n|m k| |s]; cbn [Num_succ]; try reflexivity.
  - cbn [Num_compare]. f_equal.
    destruct (Z.compare_spec (n + 1) 0); destruct (Z.compare_spec n (-1));
      try reflexivity; lia.
  - rewrite round53_compare_0. cbn [Num_compare]. f_equal.
    pose proof (pow2_pos k).
    destruct (Z.compare_spec (m + 2 ^ Z.pos k) 0);
      destruct (Z.compare_spec m (-1 * 2 ^ Z.pos k)); try reflexivity; lia.
Qed.

Lemma incrementable_eq (v : JsNum) :
  incrementable v = negb (Num_ltb v INITIAL_VERSION_NUMBER).
Proof.
  unfold incrementable, Num_ltb, INITIAL_VERSION_NUMBER.
  rewrite Num_succ_compare_0. reflexivity.
Qed.

Lemma restorable_incrementable (v : JsNum) :
  restorable v = true -> incrementable v = true.
Proof. rewrite incrementable_eq. intros H. num_cases v. Qed.

(** The special case of [Version(value)] is met after an increment from
    the sentinel. *)
Lemma Num_succ_sentinel (v : JsNum) :
  Num_eqb (Num_succ v) 0 = Num_eqb v INITIAL_VERSION_NUMBER.
Proof.
  unfold Num_eqb, INITIAL_VERSION_NUMBER. rewrite Num_succ_compare_0. reflexivity.
Qed.

(** The special case of [Version(value)] is not the case of an increment. *)
Lemma Num_succ_not_sentinel (v : JsNum) :
  Num_eqb v 0 && Num_eqb (Num_succ v) INITIAL_VERSION_NUMBER = false.
Proof.
  destruct (Num_eqb (Num_succ v) INITIAL_VERSION_NUMBER) eqn:Heq; [|apply andb_false_r].
  assert (Hneg : Num_ltb (Num_succ v) 0 = true).
  { revert Heq. generalize (Num_succ v). intros w Heq. num_cases w. }
  unfold Num_ltb in Hneg. rewrite Num_succ_compare_0 in Hneg.
  rewrite andb_true_r. clear Heq. num_cases v.
Qed.

Lemma incrementable_guard (v : JsNum) :
  incrementable v = false -> Num_gtb v INITIAL_VERSION_NUMBER = false.
Proof. rewrite incrementable_eq. intros H. num_cases v. Qed.

(** The doubles [-0.5], [0.1] and [1.9999999999999998] incremented, and some
    doubles written out. *)
Example Num_samples :
  Num_succ (Frac (-1) 1) = Frac 1 1 /\
  Num_toString (Frac (-1) 1) = "-0.5" /\
  Num_toString (Frac 3602879701896397 55) = "0.1" /\
  Num_toString (Num_succ (Frac 3602879701896397 55)) = "1.1" /\
  Num_toString (Frac 9007199254740991 52) = "1.9999999999999998" /\
  Num_succ (Frac 9007199254740991 52) = Int 3 /\
  Num_toString (Int (2 ^ 60)) = "1152921504606847000" /\
  Num_toString (Int (10 ^ 21)) = "1e+21" /\
  Num_toString (Frac 1 1074) = "5e-324".
Proof. vm_compute. repeat split. Qed.

(** ** The marshaller *)

Lemma convertToNumberAttr_inl (n n' : JsNum) :
  convertToNumberAttr n = inl n' -> n' = n.
Proof.
  unfold convertToNumberAttr. intros H.
  destruct n; try discriminate;
    destruct (Num_gtb _ _); try discriminate;
    destruct (Num_ltb _ _); try discriminate; congruence.
Qed.

(** A number beyond the safe integers stays beyond them when incremented. *)
Lemma Num_succ_large (v : JsNum) :
  Num_gtb v MAX_SAFE_INTEGER = true -> Num_gtb (Num_succ v) MAX_SAFE_INTEGER = true.
Proof.
  unfold MAX_SAFE_INTEGER. destruct v as [n|m k| |s]; cbn [Num_succ]; try (intros H; exact H).
  - unfold Num_gtb, Num_ltb, Num_compare.
    destruct (Z.compare_spec 9007199254740991 n);
      destruct (Z.compare_spec 9007199254740991 (n + 1));
      intros; try discriminate; try reflexivity; lia.
  - intros Hbig. pose proof (pow2_pos k) as Hp.
    assert (Hm : (9007199254740991 * 2 ^ Z.pos k < m)%Z).
    { revert Hbig. unfold Num_gtb, Num_ltb, Num_compare.
      destruct (Z.compare_spec (9007199254740991 * 2 ^ Z.pos k) m);
        intros; try discriminate; lia. }
    destruct (round53_large (m + 2 ^ Z.pos k) (Pos.to_nat k)) as (N & -> & HN).
    { rewrite positive_nat_Z, Z.pow_add_r by lia.
      change (2 ^ 53)%Z with 9007199254740992%Z. lia. }
    unfold Num_gtb, Num_ltb, Num_compare.
    destruct (Z.compare_spec 9007199254740991 N); try reflexivity; lia.
Qed.

(** A number above the sentinel whose successor the marshaller accepts is
    accepted too. *)
Lemma convertToNumberAttr_pred (v n : JsNum) :
  convertToNumberAttr (Num_succ v) = inl n ->
  Num_gtb v INITIAL_VERSION_NUMBER = true ->
  convertToNumberAttr v = inl v.
Proof.
  unfold convertToNumberAttr. intros Hs Hg.
  destruct (Num_gtb v MAX_SAFE_INTEGER) eqn:Hmax.
  - rewrite (Num_succ_large v Hmax) in Hs.
    destruct (Num_succ v); discriminate.
  - assert (Hmin : Num_ltb v MIN_SAFE_INTEGER = false).
    { revert Hg. clear. unfold MIN_SAFE_INTEGER. intros Hg. num_cases v. }
    rewrite Hmin.
    destruct v as [n0|m k| |[|]]; try reflexivity; try discriminate.
Qed.

Lemma guard_refusal_accepted (v x : JsNum) :
  convertToNumberAttr v = inl x -> guard_refusal (Some v) = None.
Proof.
  intros H. unfold guard_refusal. cbn [refusal]. rewrite H.
  destruct (Num_gtb v INITIAL_VERSION_NUMBER); reflexivity.
Qed.

(** A number that the marshaller accepts is finite. *)
Lemma convertToNumberAttr_finite (v x : JsNum) :
  convertToNumberAttr v = inl x -> v <> NaN /\ forall s, v <> Infinity s.
Proof. intros H. split; [|intros s]; intros ->; discriminate H. Qed.


Lemma incrementable_succ (v : JsNum) :
  incrementable v = true -> incrementable (Num_succ v) = true.
Proof.
  rewrite (incrementable_eq (Num_succ v)). unfold incrementable.
  generalize (Num_succ v). intros w H. num_cases w.
Qed.

(** After an increment that the marshaller accepts the version is above
    the sentinel. *)
Lemma succ_above_sentinel (v x : JsNum) :
  incrementable v = true ->
  convertToNumberAttr (Num_succ v) = inl x ->
  Num_gtb (Num_succ v) INITIAL_VERSION_NUMBER = true.
Proof.
  unfold incrementable. intros Hinc Hacc.
  destruct (convertToNumberAttr_finite _ _ Hacc) as [Hnan Hinf].
  clear Hacc. revert Hinc Hnan Hinf. generalize (Num_succ v). intros w Hinc Hnan Hinf.
  num_cases w; congruence.
Qed.


Lemma refusal_app (l1 l2 : list JsVal) :
  refusal (l1 ++ l2) = match refusal l1 with Some e => Some e | None => refusal l2 end.
Proof.
  induction l1 as [|x l1 IH]; [reflexivity|].
  cbn [app refusal]. destruct x as [s|n|b]; try exact IH.
  destruct (convertToNumberAttr n); [exact IH | reflexivity].
Qed.

Lemma marshall_inl (values : list JsVal) (data m : AttrMap) :
  marshall values data = inl m -> refusal values = None /\ m = data.
Proof.
  unfold marshall. destruct (refusal values); [discriminate|].
  intros H. inversion H. auto.
Qed.

Lemma marshallable_refusal (item : Item) :
  marshallable item <-> refusal (own_values item) = None.
Proof.
  unfold marshallable, marshall_instance, marshall.
  destruct (refusal (own_values item)); split; intros H; congruence.
Qed.

(** The marshaller accepts the version of a record that it accepts. *)
Lemma marshallable_version (item : Item) (v : JsNum) :
  marshallable item -> version item = Some v -> convertToNumberAttr v = inl v.
Proof.
  intros Hm Hv. apply marshallable_refusal in Hm. unfold own_values in Hm.
  rewrite Hv in Hm. cbn [app refusal] in Hm.
  destruct (convertToNumberAttr (createdAt item)); [|discriminate].
  destruct (convertToNumberAttr (updatedAt item)); [|discriminate].
  destruct (convertToNumberAttr v) as [n|e] eqn:Hc; [|discriminate].
  apply convertToNumberAttr_inl in Hc. congruence.
Qed.

(** The values of the guard are accepted when the record is, once its
    version is incremented. *)
Lemma guard_accepted (item1 : Item) (v : JsNum) :
  marshallable item1 -> version item1 = Some (Num_succ v) ->
  guard_refusal (Some v) = None.
Proof.
  intros Hm Hv. unfold guard_refusal.
  destruct (Num_gtb v INITIAL_VERSION_NUMBER) eqn:Hg; [|reflexivity].
  cbn [refusal].
  rewrite (convertToNumberAttr_pred v _ (marshallable_version _ _ Hm Hv) Hg).
  reflexivity.
Qed.

(** ** Versions *)

Lemma IncrementVersion_ok (ms : Z) (item : Item) (v : JsNum) :
  Version item = Some v -> incrementable v = true ->
  IncrementVersion ms item = inl (MarkUpdated ms (set_version (Num_succ v) item)).
Proof.
  unfold IncrementVersion, Version, Version_set, incrementable.
  intros Hv Hok. rewrite Hv, Num_succ_not_sentinel.
  destruct (Num_ltb (Num_succ v) 0); [discriminate Hok | reflexivity].
Qed.

Lemma IncrementVersion_below (ms : Z) (item : Item) (v : JsNum) :
  Version item = Some v -> incrementable v = false ->
  IncrementVersion ms item = inr (Error "version must be a positive integer").
Proof.
  unfold IncrementVersion, Version, Version_set, incrementable.
  intros Hv Hok. rewrite Hv, Num_succ_not_sentinel.
  destruct (Num_ltb (Num_succ v) 0); [reflexivity | discriminate Hok].
Qed.

Lemma IncrementVersion_incremented (ms : Z) (item item1 : Item) (v : JsNum) :
  Version item = Some v -> IncrementVersion ms item = inl item1 ->
  incrementable v = true /\ item1 = incremented ms item.
Proof.
  intros Hv Hinc. destruct (incrementable v) eqn:Hok.
  - rewrite (IncrementVersion_ok ms item v Hv Hok) in Hinc.
    unfold incremented. rewrite Hv. split; congruence.
  - rewrite (IncrementVersion_below ms item v Hv Hok) in Hinc. discriminate.
Qed.

(** Setting the version back after an increment does not throw when the
    old version is the sentinel or is not negative. *)
Lemma Version_set_back (ms : Z) (item1 : Item) (v : JsNum) :
  version item1 = Some (Num_succ v) -> restorable v = true ->
  exists item2,
    Version_set ms v item1 = inl item2 /\ version item2 = Some v /\
    item_type item2 = item_type item1 /\ props item2 = props item1 /\
    createdAt item2 = createdAt item1 /\ expiresAt item2 = expiresAt item1.
Proof.
  unfold Version_set. intros Hv Hok. rewrite Hv.
  destruct (Num_eqb (Num_succ v) 0 && Num_eqb v INITIAL_VERSION_NUMBER) eqn:Hspecial.
  - eexists. split; [reflexivity|]. cbn. auto.
  - destruct (Num_ltb v 0) eqn:Hneg.
    + exfalso. rewrite Num_succ_sentinel in Hspecial. clear Hv. num_cases v.
    + eexists. split; [reflexivity|]. cbn. auto.
Qed.


(** ** Table creation *)

(** C4, as the code has it.  When the create-table request is rejected,
    [CreateTable] logs the fault and returns [undefined]: the fault is not
    raised, and exactly the one command was sent.  When the create-table
    request succeeded and a later poll of the wait-for-ACTIVE loop fails,
    whether rejected by the client or answered without a table, [CreateTable]
    raises that very fault. *)
Theorem CreateTable_faults
    {C : Type} {SC : StorageClient C} (cfg : Config) (fuel : nat)
    (input : CreateTableInput) (ttlAttributeName : option string) (w : World C) :
  ttlAttributeName <> Some "" ->
  (forall (waitForActive : bool) (e : JsError) (c1 : C),
      createTable input (client w) = (inr e, c1) ->
      let r := CreateTable cfg fuel input waitForActive ttlAttributeName w in
      fst r = Ret None /\
      calls (snd r) = calls w ++ [CreateTableCommand input] /\
      logs (snd r) = logs w ++ [ {| level := LError; message := "CreateTable";
                                     logged_error := Some e |} ]) /\
  (forall (td : TableDescription) (c1 : C) (e : JsError) (n : nat),
      createTable input (client w) = (inl (Some td), c1) ->
      poll_rejects e c1 td n ->
      n <= fuel ->
      fst (CreateTable cfg fuel input true ttlAttributeName w) = Throw e).
Proof.
  intros Httl. split.
  - intros waitForActive e c1 Hc r. subst r.
    rewrite (CreateTable_rejected cfg fuel input waitForActive ttlAttributeName w e c1 Httl Hc).
    cbn [fst snd calls logs]. auto.
  - intros td c1 e n Hc Hp Hfuel.
    exact (CreateTable_polls_reject cfg fuel input ttlAttributeName w td c1 e n Httl Hc Hp Hfuel).
Qed.

Lemma CreateTable_faults_witness :
  fst (CreateTable Sample.cfg 3 Sample.schema true None
         (Scripted.world [Scripted.Reject Sample.boom])) = Ret None /\
  fst (CreateTable Sample.cfg 3 Sample.schema true None
         (Scripted.world [Scripted.Table (Some Sample.creating);
                          Scripted.Table (Some Sample.creating);
                          Scripted.Reject Sample.boom])) = Throw Sample.boom.
Proof.
  split.
  - refine (proj1 (proj1 (CreateTable_faults Sample.cfg 3 Sample.schema None
                            (Scripted.world [Scripted.Reject Sample.boom]) _)
                     true Sample.boom [] _)).
    + discriminate.
    + reflexivity.
  - refine (proj2 (CreateTable_faults Sample.cfg 3 Sample.schema None
                     (Scripted.world [Scripted.Table (Some Sample.creating);
                                      Scripted.Table (Some Sample.creating);
                                      Scripted.Reject Sample.boom]) _)
              Sample.creating
              [Scripted.Table (Some Sample.creating); Scripted.Reject Sample.boom]
              Sample.boom 2 _ _ _).
    + discriminate.
    + reflexivity.
    + apply (poll_rejects_later Sample.boom _ Sample.creating
               [Scripted.Reject Sample.boom] Sample.creating 1).
      * discriminate.
      * reflexivity.
      * apply (poll_rejects_now Sample.boom _ Sample.creating []).
        -- discriminate.
        -- reflexivity.
    + lia.
Defined.

(** C4 as the specification states it fails: the client rejects the
    create-table request with a fault, and [CreateTable] returns [undefined]
    instead of raising it. *)
Lemma CreateTable_create_fault_not_raised :
  fst (createTable Sample.schema [Scripted.Reject Sample.boom]) = inr Sample.boom /\
  fst (CreateTable Sample.cfg 3 Sample.schema true None
         (Scripted.world [Scripted.Reject Sample.boom])) = Ret None /\
  fst (CreateTable Sample.cfg 3 Sample.schema true None
         (Scripted.world [Scripted.Reject Sample.boom])) <> Throw Sample.boom.
Proof.
  split; [reflexivity|]. split; [reflexivity|]. discriminate.
Qed.

(** ** Optimistic writes *)

Section Writes.

Context {C : Type} {SC : StorageClient C}.
Variable cfg : Config.

Lemma liftW_run {X A : Type} (m : M (World C) A) (x : X) (w : World C) :
  liftW m (x, w) = (fst (m w), (x, snd (m w))).
Proof. unfold liftW. cbn [fst snd]. destruct (m w). reflexivity. Qed.

(** [PutItem] from its first line to the settlement of the write: the
    marshaller may refuse the old version, the increment may throw, the
    marshaller may refuse the record, all three before the [try] block; then
    the write is sent, and its rejection enters the [catch] block. *)
Lemma PutItem_run (fuel : nat) (options : IPutItemOptions) (item : Item) (w : World C) :
  PutItem cfg (S fuel) options (item, w) =
  match guard_refusal (Version item) with
  | Some e => (Throw e, (item, w))
  | None =>
      match (match Version item with
             | Some _ => IncrementVersion (now w) item
             | None => inl item
             end) with
      | inr e => (Throw e, (item, w))
      | inl item1 =>
          match refusal (own_values item1) with
          | Some e => (Throw e, (item1, logged (increment_log (Version item) item1) w))
          | None =>
              let params := PutItem_params cfg (Version item) item1 in
              let w1 := sent (PutItemCommand params) (snd (putItem params (client w)))
                          (logged (before_write (Version item) item1) w) in
              match fst (putItem params (client w)) with
              | inl _ => (Ret true, (item1, logged [entry LDebug "PutItemOutput:" None] w1))
              | inr error =>
                  PutItem_catch cfg (PutItem cfg fuel) fuel (Version item) params options
                    error (item1, w1)
              end
          end
      end
  end.
Proof.
  cbn [PutItem]. unfold guard_refusal, marshall_instance, marshall, PutItem_params,
    PutItem_guard, before_write, increment_log, logged, sent, entry.
  mrun.
  destruct (Version item) as [v|] eqn:Hv; mrun.
  - destruct (Num_gtb v INITIAL_VERSION_NUMBER); mrun.
    + destruct (refusal [VNum v]) as [e|]; mrun; [reflexivity|].
      destruct (IncrementVersion (now w) item) as [item1|e]; mrun; [|reflexivity].
      destruct (refusal (own_values item1)) as [e|]; mrun; [reflexivity|].
      destruct (putItem _ (client w)) as [[u|e] c1];
        cbn [fst snd client calls logs now]; rewrite <- ?app_assoc; cbn [app]; reflexivity.
    + destruct (IncrementVersion (now w) item) as [item1|e]; mrun; [|reflexivity].
      destruct (refusal (own_values item1)) as [e|]; mrun; [reflexivity|].
      destruct (putItem _ (client w)) as [[u|e] c1];
        cbn [fst snd client calls logs now]; rewrite <- ?app_assoc; cbn [app]; reflexivity.
  - destruct (refusal (own_values item)) as [e|]; mrun.
    + destruct w; cbn [client calls logs now]. rewrite app_nil_r. reflexivity.
    + destruct (putItem _ (client w)) as [[u|e] c1];
        cbn [fst snd client calls logs now app]; rewrite <- ?app_assoc; cbn [app]; reflexivity.
Qed.

(** [PutItem] on a record whose version cannot be incremented: the
    increment throws and nothing else happens. *)
Lemma PutItem_below (fuel : nat) (options : IPutItemOptions) (item : Item) (w : World C)
    (v : JsNum) :
  Version item = Some v -> incrementable v = false ->
  PutItem cfg (S fuel) options (item, w) =
  (Throw (Error "version must be a positive integer"), (item, w)).
Proof.
  intros Hv Hno. rewrite PutItem_run, Hv. unfold guard_refusal.
  rewrite (incrementable_guard v Hno), (IncrementVersion_below _ _ _ Hv Hno).
  reflexivity.
Qed.

(** [PutItem] on a record whose old version the marshaller refuses:
    nothing is sent and the record is as it was. *)
Lemma PutItem_guard_refused (fuel : nat) (options : IPutItemOptions) (item : Item)
    (w : World C) (e : JsError) :
  guard_refusal (Version item) = Some e ->
  PutItem cfg (S fuel) options (item, w) = (Throw e, (item, w)).
Proof. intros He. rewrite PutItem_run, He. reflexivity. Qed.

(** [PutItem] on a record that the marshaller refuses once its version is
    incremented: nothing is sent, and the record keeps the increment. *)
Lemma PutItem_record_refused (fuel : nat) (options : IPutItemOptions) (item : Item)
    (w : World C) (e : JsError) :
  guard_refusal (Version item) = None ->
  match Version item with Some v => incrementable v = true | None => True end ->
  refusal (own_values (incremented (now w) item)) = Some e ->
  PutItem cfg (S fuel) options (item, w) =
  (Throw e, (incremented (now w) item,
             logged (increment_log (Version item) (incremented (now w) item)) w)).
Proof.
  intros Hg Hok He. rewrite PutItem_run, Hg. unfold incremented in *.
  destruct (Version item) as [v|] eqn:Hv.
  - rewrite (IncrementVersion_ok _ _ _ Hv Hok), He. reflexivity.
  - rewrite He. reflexivity.
Qed.

(** [PutItem] up to the settlement of the write, when the version can be
    incremented and the marshaller accepts the record: [item1] is the item
    after the increment of a version that is a number, or the item itself. *)
Lemma PutItem_write (fuel : nat) (options : IPutItemOptions) (item : Item) (w : World C) :
  match Version item with Some v => incrementable v = true | None => True end ->
  marshallable (incremented (now w) item) ->
  let item1 := incremented (now w) item in
  let params := PutItem_params cfg (Version item) item1 in
  let w1 := logged (before_write (Version item) item1) w in
  PutItem cfg (S fuel) options (item, w) =
  match fst (putItem params (client w)) with
  | inl _ =>
      (Ret true,
       (item1, logged [entry LDebug "PutItemOutput:" None]
                 (sent (PutItemCommand params) (snd (putItem params (client w))) w1)))
  | inr error =>
      PutItem_catch cfg (PutItem cfg fuel) fuel (Version item) params options error
        (item1, sent (PutItemCommand params) (snd (putItem params (client w))) w1)
  end.
Proof.
  intros Hok Hm item1 params w1. subst item1 params w1.
  rewrite PutItem_run. unfold incremented in *.
  destruct (Version item) as [v|] eqn:Hv.
  - rewrite (guard_accepted _ v Hm eq_refl).
    rewrite (IncrementVersion_ok _ _ _ Hv Hok).
    rewrite (proj1 (marshallable_refusal _) Hm). reflexivity.
  - cbn [guard_refusal].
    rewrite (proj1 (marshallable_refusal _) Hm). reflexivity.
Qed.

(** The catch block when the version cannot be set back: the error of
    [Version(oldVersion)] leaves the block in place of the error of the
    write, before anything is logged or sent. *)
Lemma PutItem_catch_rollback_throws (retry : IPutItemOptions -> M (Item * World C) bool)
    (fuel : nat) (v : JsNum) (params : PutItemInput) (options : IPutItemOptions)
    (error e : JsError) (item1 : Item) (w1 : World C) :
  Version_set (now w1) v item1 = inr e ->
  PutItem_catch cfg retry fuel (Some v) params options error (item1, w1) =
  (Throw e, (item1, w1)).
Proof.
  intros Hback. unfold PutItem_catch. mrun. rewrite Hback. reflexivity.
Qed.

Lemma PutItem_catch_keeps_version (fuel : nat) (params : PutItemInput)
    (options : IPutItemOptions) (error : JsError) (item1 : Item) (w1 : World C)
    (v : JsNum) :
  (forall (options : IPutItemOptions) (item : Item) (w : World C),
      Version item = Some v ->
      version_kept v (PutItem cfg fuel options (item, w))) ->
  version item1 = Some (Num_succ v) -> restorable v = true ->
  version_kept v
    (PutItem_catch cfg (PutItem cfg fuel) fuel (Some v) params options error (item1, w1)).
Proof.
  intros IH Hv1 Hok.
  destruct (Version_set_back (now w1) item1 v Hv1 Hok) as (item2 & Hset & Hv2 & _).
  unfold version_kept, PutItem_catch. mrun. rewrite Hset. mrun.
  destruct (bool_decide (opt_CreateTableIfNotExists options = Some true)); mrun;
    [|left; exact Hv2].
  destruct (Class options) as [Class_|]; mrun; [|left; exact Hv2].
  destruct (is_ResourceNotFound error); mrun; [|left; exact Hv2].
  destruct (ListTables w1) as [[names|e|] w2]; mrun; try (left; exact Hv2); try exact Hv2.
  destruct (includes names (pi_TableName params)); mrun; [left; exact Hv2|].
  match goal with
  | |- context [InitializeTable cfg fuel Class_ (Some names) ?o ?w] =>
      destruct (InitializeTable cfg fuel Class_ (Some names) o w) as [[[]|e|] w3]
  end; mrun; try (left; exact Hv2); try exact Hv2.
  match goal with
  | |- context [PutItem cfg fuel ?o (item2, w3)] =>
      specialize (IH o item2 w3 Hv2); unfold version_kept in IH;
      destruct (PutItem cfg fuel o (item2, w3)) as [[r|e|] [item4 w4]]
  end; cbn [fst snd] in *; auto.
Qed.

Lemma PutItem_keeps_version (fuel : nat) (options : IPutItemOptions) (item : Item)
    (w : World C) (v : JsNum) :
  Version item = Some v -> restorable v = true ->
  version_kept v (PutItem cfg fuel options (item, w)).
Proof.
  intros Hv Hok. revert options item w Hv.
  induction fuel as [|fuel IH]; intros options item w Hv.
  - unfold version_kept. cbn. exact Hv.
  - rewrite PutItem_run, Hv.
    destruct (guard_refusal (Some v)) as [e|]; [left; exact Hv|].
    rewrite (IncrementVersion_ok _ _ _ Hv (restorable_incrementable v Hok)).
    set (item1 := MarkUpdated (now w) (set_version (Num_succ v) item)).
    destruct (refusal (own_values item1)) as [e|] eqn:Href.
    + right. cbn [fst snd]. split; [reflexivity|].
      unfold marshall_instance, marshall. rewrite Href. reflexivity.
    + cbn zeta. destruct (fst (putItem _ (client w))) as [u|error]; [exact I|].
      apply PutItem_catch_keeps_version; [exact IH | reflexivity | exact Hok].
Qed.

(** The catch block when self-healing was not asked for: the version is
    set back, the error is logged and thrown again. *)
Lemma PutItem_catch_plain (retry : IPutItemOptions -> M (Item * World C) bool) (fuel : nat)
    (oldVersion : option JsNum) (params : PutItemInput) (options : IPutItemOptions)
    (error : JsError) (item1 item2 : Item) (w1 : World C) :
  opt_CreateTableIfNotExists options <> Some true ->
  match oldVersion with
  | Some v => Version_set (now w1) v item1
  | None => inl item1
  end = inl item2 ->
  PutItem_catch cfg retry fuel oldVersion params options error (item1, w1) =
  (Throw error, (item2, logged [entry LError "PutItem" (Some error)] w1)).
Proof.
  intros Hopt Hback. unfold PutItem_catch.
  rewrite bool_decide_eq_false_2 by exact Hopt.
  destruct oldVersion as [v|]; mrun.
  - rewrite Hback. reflexivity.
  - inversion Hback; subst. reflexivity.
Qed.

(** Without self-healing [PutItem] sends the one write, or nothing. *)
Lemma PutItem_plain_calls (fuel : nat) (options : IPutItemOptions) (item : Item)
    (w : World C) :
  opt_CreateTableIfNotExists options <> Some true ->
  grew (fun new => new = [] \/ exists p, new = [PutItemCommand p])
       w (snd (snd (PutItem cfg fuel options (item, w)))).
Proof.
  intros Hopt.
  destruct fuel as [|fuel].
  - cbn. exists []. split; [symmetry; apply app_nil_r | auto].
  - rewrite PutItem_run.
    destruct (guard_refusal (Version item)) as [e|];
      [exists []; split; [symmetry; apply app_nil_r | auto]|].
    destruct (match Version item with
              | Some _ => IncrementVersion (now w) item
              | None => inl item
              end) as [item1|e];
      [|exists []; split; [symmetry; apply app_nil_r | auto]].
    destruct (refusal (own_values item1)) as [e|];
      [exists []; split; [symmetry; apply app_nil_r | auto]|].
    cbn zeta.
    destruct (putItem _ (client w)) as [[u|error] c1]; cbn [fst snd].
    + eexists. split; [reflexivity | eauto].
    + destruct (Version item) as [v|].
      * match goal with
        | |- context [PutItem_catch cfg _ fuel (Some v) ?p options error (item1, ?w1)] =>
            destruct (Version_set (now w1) v item1) as [item2|e] eqn:Hset;
            [ rewrite (PutItem_catch_plain (PutItem cfg fuel) fuel (Some v) p options error
                         item1 item2 w1 Hopt Hset)
            | rewrite (PutItem_catch_rollback_throws (PutItem cfg fuel) fuel v p options
                         error e item1 w1 Hset) ]
        end; eexists; (split; [reflexivity | eauto]).
      * erewrite PutItem_catch_plain; [|exact Hopt|reflexivity].
        eexists. split; [reflexivity | eauto].
Qed.

(** Without self-healing, with fuel, a version that can be incremented and
    a record that the marshaller accepts, [PutItem] sends exactly the one
    write. *)
Lemma PutItem_plain_exact (fuel : nat) (options : IPutItemOptions) (item : Item)
    (w : World C) :
  opt_CreateTableIfNotExists options <> Some true ->
  match Version item with Some v => incrementable v = true | None => True end ->
  marshallable (incremented (now w) item) ->
  calls (snd (snd (PutItem cfg (S fuel) options (item, w))))
  = calls w ++ [PutItemCommand (PutItem_params cfg (Version item) (incremented (now w) item))].
Proof.
  intros Hopt Hok Hm. rewrite (PutItem_write fuel options item w Hok Hm). cbn zeta.
  destruct (putItem _ (client w)) as [[u|error] c1]; cbn [fst snd]; [reflexivity|].
  destruct (Version item) as [v|].
  - match goal with
    | |- context [PutItem_catch cfg _ fuel (Some v) ?p options error (?i1, ?w1)] =>
        destruct (Version_set (now w1) v i1) as [item2|e] eqn:Hset;
        [ rewrite (PutItem_catch_plain (PutItem cfg fuel) fuel (Some v) p options error
                     i1 item2 w1 Hopt Hset)
        | rewrite (PutItem_catch_rollback_throws (PutItem cfg fuel) fuel v p options
                     error e i1 w1 Hset) ]
    end; reflexivity.
  - erewrite PutItem_catch_plain; [|exact Hopt|reflexivity]. reflexivity.
Qed.

(** The errors that the catch block raises again as they came: every error
    when self-healing was not asked for, and with self-healing and the class
    every error other than a missing table. *)
Lemma PutItem_catch_rethrows (retry : IPutItemOptions -> M (Item * World C) bool)
    (fuel : nat) (oldVersion : option JsNum) (params : PutItemInput) (options : IPutItemOptions)
    (error : JsError) (item1 item2 : Item) (w1 : World C) :
  opt_CreateTableIfNotExists options <> Some true \/
  (Class options <> None /\ is_ResourceNotFound error = false) ->
  match oldVersion with
  | Some v => Version_set (now w1) v item1
  | None => inl item1
  end = inl item2 ->
  PutItem_catch cfg retry fuel oldVersion params options error (item1, w1) =
  (Throw error, (item2, logged [entry LError "PutItem" (Some error)] w1)).
Proof.
  intros [Hopt|[Hclass Hother]] Hback.
  - exact (PutItem_catch_plain retry fuel oldVersion params options error item1 item2 w1
             Hopt Hback).
  - unfold PutItem_catch. rewrite Hother.
    destruct (Class options) as [Class_|]; [|congruence].
    destruct (bool_decide (opt_CreateTableIfNotExists options = Some true));
      destruct oldVersion as [v|]; mrun;
      try rewrite Hback; try (inversion Hback; subst); reflexivity.
Qed.

(** The catch block when the table was to be created but no class was given. *)
Lemma PutItem_catch_no_class (retry : IPutItemOptions -> M (Item * World C) bool)
    (fuel : nat) (oldVersion : option JsNum) (params : PutItemInput) (options : IPutItemOptions)
    (error : JsError) (item1 item2 : Item) (w1 : World C) :
  opt_CreateTableIfNotExists options = Some true ->
  Class options = None ->
  match oldVersion with
  | Some v => Version_set (now w1) v item1
  | None => inl item1
  end = inl item2 ->
  PutItem_catch cfg retry fuel oldVersion params options error (item1, w1) =
  (Throw (Error "Cannot infer type to create table. Class is required in the options in order to create the table."),
   (item2, w1)).
Proof.
  intros Hopt Hclass Hback. unfold PutItem_catch.
  rewrite bool_decide_eq_true_2 by exact Hopt. rewrite Hclass.
  destruct oldVersion as [v|]; mrun.
  - rewrite Hback. reflexivity.
  - inversion Hback; subst. reflexivity.
Qed.

Lemma PutItem_catch_calls (fuel : nat) (oldVersion : option JsNum) (params : PutItemInput)
    (options : IPutItemOptions) (error : JsError) (item1 : Item) (w1 : World C) :
  grew (within 1 1) w1
       (snd (snd (PutItem_catch cfg (PutItem cfg fuel) fuel oldVersion params options error
                    (item1, w1)))).
Proof.
  unfold PutItem_catch. mrun.
  assert (Hrest : forall item2 : Item,
    grew (within 1 1) w1
      (snd (snd
        ((retried <-
            (if bool_decide (opt_CreateTableIfNotExists options = Some true) then
               match Class options with
               | None =>
                   throw (Error "Cannot infer type to create table. Class is required in the options in order to create the table.")
               | Some Class_ =>
                   if is_ResourceNotFound error then
                     existingTables <- liftW (ListTables (C := C)) ;;
                     let tableExists := includes existingTables (pi_TableName params) in
                     if tableExists then
                       liftW (log LWarn "Error while calling PutItem. Cannot try and create a table that already exists so assuming the error is something else..." None) ;;
                       ret None
                     else
                       liftW (log LInfo ("PutItem: TableNotFound (" ++ pi_TableName params
                                           ++ ") ... trying to create it for you...") None) ;;
                       liftW (InitializeTable cfg fuel Class_ (Some existingTables)
                                (CreateSchemaOptions options)) ;;
                       r <- PutItem cfg fuel
                              {| opt_CreateTableIfNotExists := Some false;
                                 CreateSchemaOptions := None; Class := None |} ;;
                       ret (Some r)
                   else ret None
               end
             else ret None) ;;
          match retried with
          | Some r => ret r
          | None =>
              liftW (log LError "PutItem" (Some error)) ;;
              throw error
          end) (item2, w1))))).
  { intros item2. mrun.
    destruct (bool_decide (opt_CreateTableIfNotExists options = Some true)); mrun;
      [|grew_leaf].
    destruct (Class options) as [Class_|]; mrun; [|grew_leaf].
    destruct (is_ResourceNotFound error); mrun; [|grew_leaf].
    pose proof (ListTables_calls w1) as Hl.
    destruct (ListTables w1) as [[names|e|] w2]; mrun; try grew_leaf.
    destruct (includes names (pi_TableName params)); mrun; [grew_leaf|].
    match goal with
    | |- context [InitializeTable cfg fuel Class_ (Some names) ?o ?w] =>
        pose proof (InitializeTable_calls cfg fuel Class_ (Some names) o w) as Hi;
        destruct (InitializeTable cfg fuel Class_ (Some names) o w) as [[[]|e|] w3]
    end; mrun; try grew_leaf.
    match goal with
    | |- context [PutItem cfg fuel ?o (item2, w3)] =>
        pose proof (PutItem_plain_calls fuel o item2 w3) as Hp;
        destruct (PutItem cfg fuel o (item2, w3)) as [[r|e|] [item4 w4]]
    end; cbn [fst snd] in *;
      (destruct Hp as (newp & Hcp & Hp); [discriminate|]);
      (destruct Hp as [Hp|[p Hp]]; subst newp); grew_leaf. }
  destruct oldVersion as [v|]; mrun.
  - destruct (Version_set (now w1) v item1) as [item2|e]; mrun.
    + apply (Hrest item2).
    + grew_leaf.
  - apply (Hrest item1).
Qed.

(** One call of [PutItem] sends at most two writes and at most one
    create-table request. *)
Lemma PutItem_calls (fuel : nat) (options : IPutItemOptions) (item : Item) (w : World C) :
  grew (within 2 1) w (snd (snd (PutItem cfg fuel options (item, w)))).
Proof.
  destruct fuel as [|fuel].
  - cbn. grew_leaf.
  - rewrite PutItem_run.
    destruct (guard_refusal (Version item)) as [e|]; [cbn; grew_leaf|].
    destruct (match Version item with
              | Some _ => IncrementVersion (now w) item
              | None => inl item
              end) as [item1|e]; [|cbn; grew_leaf].
    destruct (refusal (own_values item1)) as [e|]; [unfold logged; cbn; grew_leaf|].
    cbn zeta.
    destruct (putItem _ (client w)) as [[u|error] c1]; cbn [fst snd].
    + unfold logged, sent. grew_leaf.
    + match goal with
      | |- context [PutItem_catch cfg _ fuel ?ov ?p options error (?i1, ?w1)] =>
          pose proof (PutItem_catch_calls fuel ov p options error i1 w1) as Hc;
          destruct (PutItem_catch cfg (PutItem cfg fuel) fuel ov p options error (i1, w1))
            as [r [item5 w5]]
      end.
      unfold logged, sent in *. grew_leaf.
Qed.

(** The catch block on the self-healing path, once the tables are listed. *)
Lemma PutItem_catch_heal (retry : IPutItemOptions -> M (Item * World C) bool) (fuel : nat)
    (oldVersion : option JsNum) (params : PutItemInput) (options : IPutItemOptions)
    (Class_ : ItemType) (error : JsError) (item1 item2 : Item) (w1 : World C)
    (names : option (list string)) (c2 : C) :
  opt_CreateTableIfNotExists options = Some true ->
  Class options = Some Class_ ->
  is_ResourceNotFound error = true ->
  match oldVersion with
  | Some v => Version_set (now w1) v item1
  | None => inl item1
  end = inl item2 ->
  listTables (client w1) = (inl names, c2) ->
  PutItem_catch cfg retry fuel oldVersion params options error (item1, w1) =
  let w2 := sent ListTablesCommand c2 w1 in
  if includes (default [] names) (pi_TableName params) then
    (Throw error,
     (item2,
      logged [entry LWarn "Error while calling PutItem. Cannot try and create a table that already exists so assuming the error is something else..." None;
              entry LError "PutItem" (Some error)] w2))
  else
    match InitializeTable cfg fuel Class_ (Some (default [] names)) (CreateSchemaOptions options)
            (logged [entry LInfo ("PutItem: TableNotFound (" ++ pi_TableName params
                                    ++ ") ... trying to create it for you...") None] w2) with
    | (Ret _, w3) =>
        retry {| opt_CreateTableIfNotExists := Some false;
                 CreateSchemaOptions := None; Class := None |} (item2, w3)
    | (Throw e, w3) => (Throw e, (item2, w3))
    | (Pending, w3) => (Pending, (item2, w3))
    end.
Proof.
  intros Hopt Hclass Hrnf Hback Hlist. unfold PutItem_catch.
  rewrite bool_decide_eq_true_2 by exact Hopt. rewrite Hclass, Hrnf.
  assert (Hrest : forall i : Item,
    (retried <-
       (existingTables <- liftW (ListTables (C := C)) ;;
        let tableExists := includes existingTables (pi_TableName params) in
        if tableExists then
          liftW (log LWarn "Error while calling PutItem. Cannot try and create a table that already exists so assuming the error is something else..." None) ;;
          ret None
        else
          liftW (log LInfo ("PutItem: TableNotFound (" ++ pi_TableName params
                              ++ ") ... trying to create it for you...") None) ;;
          liftW (InitializeTable cfg fuel Class_ (Some existingTables)
                   (CreateSchemaOptions options)) ;;
          r <- retry {| opt_CreateTableIfNotExists := Some false;
                        CreateSchemaOptions := None; Class := None |} ;;
          ret (Some r)) ;;
     match retried with
     | Some r => ret r
     | None =>
         liftW (log LError "PutItem" (Some error)) ;;
         throw error
     end) (i, w1) =
    (let w2 := sent ListTablesCommand c2 w1 in
     if includes (default [] names) (pi_TableName params) then
       (Throw error,
        (i,
         logged [entry LWarn "Error while calling PutItem. Cannot try and create a table that already exists so assuming the error is something else..." None;
                 entry LError "PutItem" (Some error)] w2))
     else
       match InitializeTable cfg fuel Class_ (Some (default [] names))
               (CreateSchemaOptions options)
               (logged [entry LInfo ("PutItem: TableNotFound (" ++ pi_TableName params
                                       ++ ") ... trying to create it for you...") None] w2) with
       | (Ret _, w3) =>
           retry {| opt_CreateTableIfNotExists := Some false;
                    CreateSchemaOptions := None; Class := None |} (i, w3)
       | (Throw e, w3) => (Throw e, (i, w3))
       | (Pending, w3) => (Pending, (i, w3))
       end)).
  { intros i. unfold ListTables. mrun. rewrite Hlist. cbn [fst snd]. cbn zeta.
    unfold sent, logged, entry. cbn [client calls logs now].
    destruct (includes (default [] names) (pi_TableName params)); mrun.
    - rewrite <- app_assoc. reflexivity.
    - destruct (InitializeTable cfg fuel Class_ (Some (default [] names)) _ _)
        as [[[]|e|] w3]; mrun; try reflexivity.
      destruct (retry _ (i, w3)) as [[r|e|] s3]; reflexivity. }
  destruct oldVersion as [v|].
  - unfold bind at 1. unfold on_item. cbn [fst snd]. rewrite Hback. apply Hrest.
  - inversion Hback; subst item2. unfold bind at 1. unfold ret at 1. apply Hrest.
Qed.

Lemma marshall_item_version (item : Item) (n : JsNum) :
  version item = Some n -> marshall_item item !! "version" = Some (VNum n).
Proof.
  intros Hv. unfold marshall_item. rewrite Hv.
  destruct (expiresAt item) as [x|]; cbn [insert_num].
  - rewrite lookup_insert_ne by discriminate. apply lookup_insert_eq.
  - apply lookup_insert_eq.
Qed.

End Writes.

Lemma guard_by_sentinel (v x : JsNum) :
  incrementable v = true ->
  convertToNumberAttr (Num_succ v) = inl x ->
  Num_gtb v INITIAL_VERSION_NUMBER = negb (Num_eqb v INITIAL_VERSION_NUMBER).
Proof.
  intros Hinc Hacc.
  assert (Hnan : v <> NaN) by (intros ->; discriminate Hacc).
  clear Hacc. rewrite incrementable_eq in Hinc. revert Hnan.
  num_cases v; intros Hnan; congruence.
Qed.

(** C1, as the code has it.  For a record whose version is the sentinel or
    a number that is not negative: when the write of [PutItem] is sent and
    the client rejects it, the first thing the [catch] block does is to set
    the version back, and the call goes on as the block does for a record at
    the old version; without self-healing it raises the error of the write
    with the version as it was when [PutItem] was called.  And whatever the
    options and the path, when [PutItem] raises an error the version is the
    old one again, unless that error is the marshaller refusing the record,
    which leaves the [try] block unentered and no write sent by that call. *)
Theorem PutItem_failure_restores_version
    {C : Type} {SC : StorageClient C} (cfg : Config) (fuel : nat)
    (options : IPutItemOptions) (item : Item) (w : World C) (v : JsNum) :
  Version item = Some v ->
  restorable v = true ->
  let item1 := MarkUpdated (now w) (set_version (Num_succ v) item) in
  let params := PutItem_params cfg (Some v) item1 in
  let w1 := sent (PutItemCommand params) (snd (putItem params (client w)))
              (logged (before_write (Some v) item1) w) in
  (forall error : JsError,
      marshallable item1 ->
      fst (putItem params (client w)) = inr error ->
      let r := PutItem cfg (S fuel) options (item, w) in
      (exists item2 : Item,
          Version_set (now w) v item1 = inl item2 /\
          Version item2 = Some v /\
          r = PutItem_catch cfg (PutItem cfg fuel) fuel None params options error
                (item2, w1)) /\
      (opt_CreateTableIfNotExists options <> Some true ->
       fst r = Throw error /\ Version (fst (snd r)) = Some v)) /\
  (forall error : JsError,
      fst (PutItem cfg fuel options (item, w)) = Throw error ->
      Version (fst (snd (PutItem cfg fuel options (item, w)))) = Some v \/
      (Version (fst (snd (PutItem cfg fuel options (item, w)))) = Some (Num_succ v) /\
       marshall_instance (fst (snd (PutItem cfg fuel options (item, w)))) = inr error)).
Proof.
  intros Hv Hok item1 params w1. split.
  - intros error Hm Hreject r.
    destruct (Version_set_back (now w) item1 v eq_refl Hok)
      as (item2 & Hset & Hv2 & _).
    assert (Hr : r = PutItem_catch cfg (PutItem cfg fuel) fuel (Some v) params options
                       error (item1, w1)).
    { subst r. rewrite (PutItem_write cfg fuel options item w);
        unfold incremented; rewrite Hv;
        [ | exact (restorable_incrementable v Hok) | exact Hm ].
      cbn zeta. fold item1. fold params. rewrite Hreject. reflexivity. }
    split.
    + exists item2. split; [exact Hset|]. split; [exact Hv2|].
      rewrite Hr. unfold PutItem_catch. mrun.
      change (now w1) with (now w). rewrite Hset. reflexivity.
    + intros Hopt. rewrite Hr.
      erewrite PutItem_catch_plain; [|exact Hopt|exact Hset].
      cbn [fst snd]. auto.
  - intros error Hthrow.
    pose proof (PutItem_keeps_version cfg fuel options item w v Hv Hok) as H.
    unfold version_kept in H. rewrite Hthrow in H. exact H.
Qed.

Lemma PutItem_failure_restores_version_witness :
  Version (fst (snd (PutItem Sample.cfg 2 no_put_options
                       (Sample.thing "a1", Sample.saved_world))))
  = Some INITIAL_VERSION_NUMBER /\
  fst (PutItem Sample.cfg 2 no_put_options (Sample.thing "a1", Sample.saved_world))
  = Throw (Service.fault "ConditionalCheckFailedException").
Proof.
  assert (H := PutItem_failure_restores_version Sample.cfg 1 no_put_options
                 (Sample.thing "a1") Sample.saved_world INITIAL_VERSION_NUMBER
                 eq_refl eq_refl).
  cbv zeta in H. destruct H as [H _].
  specialize (H (Service.fault "ConditionalCheckFailedException")).
  destruct H as [_ H]; [reflexivity | vm_compute; reflexivity |].
  destruct H as [Hthrow Hversion]; [discriminate|].
  split; [exact Hversion | exact Hthrow].
Defined.

(** C1 as the specification states it fails for a version that
    [Version(value)] does not take back.  A record at version [-0.5]: the
    write is sent, guarded by the old version, and rejected by the client;
    the rollback throws inside the [catch] block, so [PutItem] raises
    ['version must be a positive integer'] in place of the rejection, and
    the version stays at [0.5]. *)
Lemma PutItem_rollback_refused :
  Version Sample.half = Some (Frac (-1) 1) /\
  calls (snd (snd (PutItem Sample.cfg 2 no_put_options
                     (Sample.half, Scripted.world [Scripted.Reject Sample.conflict]))))
  = [PutItemCommand
       (PutItem_params Sample.cfg (Some (Frac (-1) 1))
          (MarkUpdated 0 (set_version (Frac 1 1) Sample.half)))] /\
  fst (putItem
         (PutItem_params Sample.cfg (Some (Frac (-1) 1))
            (MarkUpdated 0 (set_version (Frac 1 1) Sample.half)))
         [Scripted.Reject Sample.conflict]) = inr Sample.conflict /\
  fst (PutItem Sample.cfg 2 no_put_options
         (Sample.half, Scripted.world [Scripted.Reject Sample.conflict]))
  = Throw (Error "version must be a positive integer") /\
  Version (fst (snd (PutItem Sample.cfg 2 no_put_options
                       (Sample.half, Scripted.world [Scripted.Reject Sample.conflict]))))
  = Some (Frac 1 1) /\
  Some (Frac 1 1) <> Version Sample.half.
Proof. vm_compute. repeat split; discriminate. Qed.

(** C2, as the code has it.  For a record whose version is a number [v]
    with [v + 1] not negative, and which the marshaller accepts once the
    version is incremented, the first command [PutItem] sends is the
    conditional write for the item after its increment: the in-memory
    version is [v + 1] when the command is built, the marshalled item
    carries [v + 1], and the guard is [attribute_not_exists(version)] at the
    sentinel and [version = :version] with [:version] bound to [v]
    otherwise.  For a number with [v + 1] negative the increment throws: no
    command is sent and the record is untouched.  When the marshaller
    refuses the old version or the record, its error is raised and no
    command is sent.  For an integer [n], [v + 1] is not negative from [-1]
    on and the marshaller accepts it up to [Number.MAX_SAFE_INTEGER - 1]. *)
Theorem PutItem_conditional_write
    {C : Type} {SC : StorageClient C} (cfg : Config) (fuel : nat)
    (options : IPutItemOptions) (item : Item) (w : World C) (v : JsNum) :
  Version item = Some v ->
  let item1 := MarkUpdated (now w) (set_version (Num_succ v) item) in
  let params := PutItem_params cfg (Some v) item1 in
  let r := PutItem cfg (S fuel) options (item, w) in
  (incrementable v = true ->
   marshallable item1 ->
   IncrementVersion (now w) item = inl item1 /\
   Version item1 = Some (Num_succ v) /\
   (exists rest, calls (snd (snd r)) = calls w ++ PutItemCommand params :: rest) /\
   pi_Item params !! "version" = Some (VNum (Num_succ v)) /\
   pi_ConditionExpression params
   = Some (if Num_eqb v INITIAL_VERSION_NUMBER
           then "attribute_not_exists(version)" else "version = :version") /\
   pi_ExpressionAttributeValues params
   = (if Num_eqb v INITIAL_VERSION_NUMBER then None
      else Some {[ ":version" := VNum v ]})) /\
  (incrementable v = false ->
   r = (Throw (Error "version must be a positive integer"), (item, w))) /\
  (forall e : JsError,
      guard_refusal (Some v) = Some e -> r = (Throw e, (item, w))) /\
  (forall e : JsError,
      guard_refusal (Some v) = None ->
      incrementable v = true ->
      marshall_instance item1 = inr e ->
      fst r = Throw e /\ calls (snd (snd r)) = calls w /\
      Version (fst (snd r)) = Some (Num_succ v)) /\
  (forall n : Z,
      v = Int n ->
      (incrementable v = true <-> (-1 <= n)%Z) /\
      (convertToNumberAttr (Num_succ v) = inl (Num_succ v)
       <-> (MIN_SAFE_INTEGER - 1 <= n <= MAX_SAFE_INTEGER - 1)%Z) /\
      ((-1 <= n <= MAX_SAFE_INTEGER)%Z -> Num_succ v = Int (n + 1))).
Proof.
  intros Hv item1 params r. split; [|split; [|split; [|split]]].
  - intros Hinc Hm.
    split; [exact (IncrementVersion_ok (now w) item v Hv Hinc)|].
    split; [reflexivity|].
    split.
    + subst r. rewrite (PutItem_write cfg fuel options item w);
        unfold incremented; rewrite Hv; [ | exact Hinc | exact Hm ].
      cbn zeta. fold item1. fold params.
      destruct (putItem params (client w)) as [[u|error] c1]; cbn [fst snd].
      * exists []. reflexivity.
      * match goal with
        | |- context [PutItem_catch cfg _ fuel ?ov ?p options error (?i1, ?w1)] =>
            destruct (PutItem_catch_calls cfg fuel ov p options error i1 w1)
              as (rest & Hrest & _)
        end.
        exists rest. rewrite Hrest. cbn [sent calls logged].
        rewrite <- app_assoc. reflexivity.
    + split; [apply marshall_item_version; reflexivity|].
      unfold params, PutItem_params, PutItem_guard.
      cbn [pi_ConditionExpression pi_ExpressionAttributeValues].
      rewrite (guard_by_sentinel v _ Hinc (marshallable_version item1 _ Hm eq_refl)).
      destruct (Num_eqb v INITIAL_VERSION_NUMBER); split; reflexivity.
  - intros Hno. exact (PutItem_below cfg fuel options item w v Hv Hno).
  - intros e Hg. subst r.
    exact (PutItem_guard_refused cfg fuel options item w e
             (eq_ind_r (fun o => guard_refusal o = Some e) Hg Hv)).
  - intros e Hg Hinc Hrec. subst r.
    rewrite (PutItem_record_refused cfg fuel options item w e);
      unfold incremented; rewrite Hv; try assumption.
    + cbn [fst snd logged calls]. repeat split; reflexivity.
    + fold item1. unfold marshall_instance, marshall in Hrec.
      destruct (refusal (own_values item1)); congruence.
  - intros n ->.
    unfold incrementable, convertToNumberAttr, MAX_SAFE_INTEGER, MIN_SAFE_INTEGER,
      Num_gtb, Num_ltb, Num_compare. cbn [Num_succ negb].
    split; [|split; [|intros _; reflexivity]].
    + destruct (Z.compare_spec (n + 1) 0); cbn [negb]; split; intros; try lia;
        try reflexivity; discriminate.
    + destruct (Z.compare_spec 9007199254740991 (n + 1));
        destruct (Z.compare_spec (n + 1) (-9007199254740991));
        split; intros; try lia; try reflexivity; discriminate.
Qed.

Lemma PutItem_conditional_write_witness :
  (exists rest,
      calls (snd (snd (PutItem Sample.cfg 1 no_put_options
                         (Sample.thing "a1", Scripted.world [Scripted.Done]))))
      = [] ++ PutItemCommand
                (PutItem_params Sample.cfg (Some INITIAL_VERSION_NUMBER)
                   (MarkUpdated 0 (set_version 0 (Sample.thing "a1")))) :: rest) /\
  PutItem Sample.cfg 1 no_put_options
    (Sample.thing_at "a1" (-2), Scripted.world [Scripted.Done])
  = (Throw (Error "version must be a positive integer"),
     (Sample.thing_at "a1" (-2), Scripted.world [Scripted.Done])) /\
  fst (PutItem Sample.cfg 1 no_put_options
         (Sample.thing_at "a1" MAX_SAFE_INTEGER, Scripted.world [Scripted.Done]))
  = Throw (Error "Number 9007199254740992 is greater than Number.MAX_SAFE_INTEGER. Use BigInt.").
Proof.
  split; [|split].
  - assert (H := PutItem_conditional_write Sample.cfg 0 no_put_options
                   (Sample.thing "a1") (Scripted.world [Scripted.Done])
                   INITIAL_VERSION_NUMBER eq_refl).
    cbv zeta in H. destruct H as [H _].
    destruct H as (_ & _ & H & _); [reflexivity | reflexivity | exact H].
  - assert (H := PutItem_conditional_write Sample.cfg 0 no_put_options
                   (Sample.thing_at "a1" (-2)) (Scripted.world [Scripted.Done])
                   (Int (-2)) eq_refl).
    cbv zeta in H. destruct H as (_ & H & _). apply H. reflexivity.
  - assert (H := PutItem_conditional_write Sample.cfg 0 no_put_options
                   (Sample.thing_at "a1" MAX_SAFE_INTEGER)
                   (Scripted.world [Scripted.Done])
                   (Int MAX_SAFE_INTEGER) eq_refl).
    cbv zeta in H. destruct H as (_ & _ & _ & H & _).
    destruct (H (Error "Number 9007199254740992 is greater than Number.MAX_SAFE_INTEGER. Use BigInt."))
      as (Hthrow & _); [reflexivity | reflexivity | reflexivity | exact Hthrow].
Defined.

(** C2 as the specification states it fails on a record whose version is a
    number other than the sentinel and below it: no conditional write is
    issued at all.  Nor is one issued for a record at
    [Number.MAX_SAFE_INTEGER], whose incremented version the marshaller
    refuses. *)
Lemma PutItem_below_sentinel_sends_nothing :
  (Version (Sample.thing_at "a1" (-2)) = Some (Int (-2)) /\
   fst (PutItem Sample.cfg 2 no_put_options
          (Sample.thing_at "a1" (-2), Scripted.world [Scripted.Done]))
   = Throw (Error "version must be a positive integer") /\
   calls (snd (snd (PutItem Sample.cfg 2 no_put_options
                      (Sample.thing_at "a1" (-2), Scripted.world [Scripted.Done])))) = []) /\
  (Version (Sample.thing_at "a1" MAX_SAFE_INTEGER) = Some (Int MAX_SAFE_INTEGER) /\
   fst (PutItem Sample.cfg 2 no_put_options
          (Sample.thing_at "a1" MAX_SAFE_INTEGER, Scripted.world [Scripted.Done]))
   = Throw (Error "Number 9007199254740992 is greater than Number.MAX_SAFE_INTEGER. Use BigInt.") /\
   calls (snd (snd (PutItem Sample.cfg 2 no_put_options
                      (Sample.thing_at "a1" MAX_SAFE_INTEGER,
                       Scripted.world [Scripted.Done])))) = []).
Proof. vm_compute. auto. Qed.

(** C6, as the code has it.  The write of [PutItem] is sent and rejected
    with [error], for a record without a version or whose version is the
    sentinel or a number that is not negative.  When self-healing was not
    asked for, or the class was given and the error is not a missing table,
    or the class was given and the listing holds the table, [PutItem] sets
    the version back, records [error] with the logger at error level and
    raises [error] itself.  When [CreateTableIfNotExists] is set without
    [Class] and the error is a missing table, [PutItem] raises the error
    "Cannot infer type to create table" in its place. *)
Theorem PutItem_failure_rethrown
    {C : Type} {SC : StorageClient C} (cfg : Config) (fuel : nat)
    (options : IPutItemOptions) (item : Item) (w : World C) (error : JsError) :
  match Version item with Some v => restorable v = true | None => True end ->
  let item1 := incremented (now w) item in
  marshallable item1 ->
  let params := PutItem_params cfg (Version item) item1 in
  let w1 := sent (PutItemCommand params) (snd (putItem params (client w)))
              (logged (before_write (Version item) item1) w) in
  fst (putItem params (client w)) = inr error ->
  let r := PutItem cfg (S fuel) options (item, w) in
  (opt_CreateTableIfNotExists options <> Some true \/
   (Class options <> None /\ is_ResourceNotFound error = false) ->
   exists item2,
     Version item2 = Version item /\
     r = (Throw error, (item2, logged [entry LError "PutItem" (Some error)] w1))) /\
  (forall (names : option (list string)) (c2 : C),
      opt_CreateTableIfNotExists options = Some true ->
      Class options <> None ->
      is_ResourceNotFound error = true ->
      listTables (client w1) = (inl names, c2) ->
      includes (default [] names) (pi_TableName params) = true ->
      fst r = Throw error /\
      In (entry LError "PutItem" (Some error)) (logs (snd (snd r)))) /\
  (opt_CreateTableIfNotExists options = Some true ->
   Class options = None ->
   is_ResourceNotFound error = true ->
   fst r = Throw (Error "Cannot infer type to create table. Class is required in the options in order to create the table.")).
Proof.
  intros Hok item1 Hm params w1 Hreject r.
  assert (Hinc : match Version item with
                 | Some v => incrementable v = true
                 | None => True
                 end).
  { destruct (Version item) as [v|]; [exact (restorable_incrementable v Hok) | exact I]. }
  assert (Hback : exists item2,
             match Version item with
             | Some v => Version_set (now w1) v item1
             | None => inl item1
             end = inl item2 /\ Version item2 = Version item).
  { subst item1. unfold incremented. destruct (Version item) as [v|] eqn:Hv.
    - destruct (Version_set_back (now w1) (MarkUpdated (now w) (set_version (Num_succ v) item))
                  v eq_refl Hok) as (item2 & Hset & Hv2 & _).
      exists item2. auto.
    - exists item. auto. }
  destruct Hback as (item2 & Hback & Hv2).
  assert (Hr : r = PutItem_catch cfg (PutItem cfg fuel) fuel (Version item) params
                     options error (item1, w1)).
  { subst r. rewrite (PutItem_write cfg fuel options item w Hinc Hm). cbn zeta.
    fold item1. fold params. rewrite Hreject. reflexivity. }
  split; [|split].
  - intros Hcase. exists item2. split; [exact Hv2|].
    rewrite Hr.
    exact (PutItem_catch_rethrows cfg (PutItem cfg fuel) fuel (Version item) params options
             error item1 item2 w1 Hcase Hback).
  - intros names c2 Hopt Hclass Hrnf Hlist Hin.
    destruct (Class options) as [Class_|] eqn:HC; [|congruence].
    rewrite (PutItem_catch_heal cfg (PutItem cfg fuel) fuel (Version item) params
               options Class_ error item1 item2 w1 names c2 Hopt HC Hrnf Hback Hlist) in Hr.
    cbn zeta in Hr. rewrite Hin in Hr. rewrite Hr. cbn [fst snd logged logs].
    split; [reflexivity|].
    apply in_or_app. right. right. left. reflexivity.
  - intros Hopt Hclass Hrnf. rewrite Hr.
    rewrite (PutItem_catch_no_class cfg (PutItem cfg fuel) fuel (Version item) params options
               error item1 item2 w1 Hopt Hclass Hback).
    reflexivity.
Qed.

Lemma PutItem_failure_rethrown_witness :
  (exists item2,
      Version item2 = Some (Int 0) /\
      PutItem Sample.cfg 1 no_put_options
        (Sample.thing_at "a1" 0, Scripted.world [Scripted.Reject Sample.conflict])
      = (Throw Sample.conflict,
         (item2,
          logged [entry LError "PutItem" (Some Sample.conflict)]
            (sent (PutItemCommand
                     (PutItem_params Sample.cfg (Some (Int 0))
                        (incremented 0 (Sample.thing_at "a1" 0))))
               []
               (logged (before_write (Some (Int 0))
                          (incremented 0 (Sample.thing_at "a1" 0)))
                  (Scripted.world [Scripted.Reject Sample.conflict])))))) /\
  fst (PutItem Sample.cfg 1 Sample.heal_without_class
         (Sample.thing_at "a1" 0, Scripted.world [Scripted.Reject Sample.not_found]))
  = Throw (Error "Cannot infer type to create table. Class is required in the options in order to create the table.").
Proof.
  split.
  - refine (proj1 (PutItem_failure_rethrown Sample.cfg 0 no_put_options
                     (Sample.thing_at "a1" 0)
                     (Scripted.world [Scripted.Reject Sample.conflict])
                     Sample.conflict _ _ _) _).
    + reflexivity.
    + reflexivity.
    + reflexivity.
    + left. discriminate.
  - refine (proj2 (proj2 (PutItem_failure_rethrown Sample.cfg 0 Sample.heal_without_class
                            (Sample.thing_at "a1" 0)
                            (Scripted.world [Scripted.Reject Sample.not_found])
                            Sample.not_found _ _ _)) _ _ _).
    + reflexivity.
    + reflexivity.
    + reflexivity.
    + reflexivity.
    + reflexivity.
    + reflexivity.
Defined.

(** C6 as the specification states it fails.  With [CreateTableIfNotExists]
    set and no [Class], the client rejects the write, once for a missing
    table and once for a version conflict; each time [PutItem] raises the
    "Cannot infer type" error in place of the rejection, and no record of the
    rejection reaches the logger at error level.  With no options at all and
    a record at version [-0.5], the client rejects the write for a version
    conflict: the rollback throws, [PutItem] raises ['version must be a
    positive integer'] in place of the rejection, and again no record of the
    rejection reaches the logger at error level. *)
Lemma PutItem_error_replaced :
  (fst (PutItem Sample.cfg 2 Sample.heal_without_class
          (Sample.thing_at "a1" 0, Scripted.world [Scripted.Reject Sample.not_found]))
   = Throw (Error "Cannot infer type to create table. Class is required in the options in order to create the table.") /\
   List.filter (fun e => match level e with LError => true | _ => false end)
     (logs (snd (snd (PutItem Sample.cfg 2 Sample.heal_without_class
                        (Sample.thing_at "a1" 0,
                         Scripted.world [Scripted.Reject Sample.not_found]))))) = []) /\
  (fst (PutItem Sample.cfg 2 Sample.heal_without_class
          (Sample.thing_at "a1" 0, Scripted.world [Scripted.Reject Sample.conflict]))
   = Throw (Error "Cannot infer type to create table. Class is required in the options in order to create the table.") /\
   List.filter (fun e => match level e with LError => true | _ => false end)
     (logs (snd (snd (PutItem Sample.cfg 2 Sample.heal_without_class
                        (Sample.thing_at "a1" 0,
                         Scripted.world [Scripted.Reject Sample.conflict]))))) = []) /\
  (fst (PutItem Sample.cfg 2 no_put_options
          (Sample.half, Scripted.world [Scripted.Reject Sample.conflict]))
   = Throw (Error "version must be a positive integer") /\
   List.filter (fun e => match level e with LError => true | _ => false end)
     (logs (snd (snd (PutItem Sample.cfg 2 no_put_options
                        (Sample.half,
                         Scripted.world [Scripted.Reject Sample.conflict]))))) = []).
Proof. vm_compute. auto. Qed.

(** ** Reads *)

Section Reads.

Context {C : Type} {SC : StorageClient C}.
Variable cfg : Config.

Lemma Query_params_refused (Type_ : ItemType) (id : JsVal) (range : option JsVal)
    (options : ReadOptions) (w : World C) :
  is_empty_string id || is_empty_string_opt range = true ->
  exists msg, Query_params cfg Type_ id range options w = (Throw (ArgumentError msg), w).
Proof.
  intros He. unfold Query_params.
  destruct (is_empty_string id); [eexists; reflexivity|].
  cbn [orb] in He. rewrite He. eexists; reflexivity.
Qed.

Lemma Scan_params_refused (Type_ : ItemType) (id : option JsVal) (range : option JsVal)
    (options : ReadOptions) (w : World C) :
  is_empty_string_opt id || is_empty_string_opt range = true ->
  exists msg, Scan_params cfg Type_ id range options w = (Throw (ArgumentError msg), w).
Proof.
  intros He. unfold Scan_params.
  destruct (is_empty_string_opt id); [eexists; reflexivity|].
  cbn [orb] in He. rewrite He. eexists; reflexivity.
Qed.

Lemma Query_refused (fuel : nat) (Type_ : ItemType) (id : JsVal) (range : option JsVal)
    (options : ReadOptions) (w : World C) :
  is_empty_string id || is_empty_string_opt range = true ->
  refused (Query cfg fuel Type_ id range options w) w.
Proof.
  intros He. destruct (Query_params_refused Type_ id range options w He) as (msg & Hp).
  unfold Query, bind. rewrite Hp. split; [exists msg; reflexivity | split; reflexivity].
Qed.

Lemma Scan_refused (fuel : nat) (Type_ : ItemType) (id : option JsVal) (range : option JsVal)
    (options : ReadOptions) (w : World C) :
  is_empty_string_opt id || is_empty_string_opt range = true ->
  refused (Scan cfg fuel Type_ id range options w) w.
Proof.
  intros He. destruct (Scan_params_refused Type_ id range options w He) as (msg & Hp).
  unfold Scan, bind. rewrite Hp. split; [exists msg; reflexivity | split; reflexivity].
Qed.

Lemma GetItems_refused (fuel : nat) (Type_ : ItemType) (id : option JsVal)
    (range : option JsVal) (options : ReadOptions) (w : World C) :
  is_empty_string_opt id || is_empty_string_opt range = true ->
  refused (GetItems cfg fuel Type_ id range options w) w.
Proof.
  intros He. unfold GetItems. destruct id as [idv|].
  - unfold bind at 1. unfold log at 1.
    match goal with
    | |- refused (Query cfg fuel Type_ idv range options ?w1) w =>
        destruct (Query_refused fuel Type_ idv range options w1 He) as (Hm & Hc & Hcl)
    end.
    split; [exact Hm | split; [rewrite Hc | rewrite Hcl]; reflexivity].
  - unfold bind at 1. unfold log at 1.
    match goal with
    | |- refused (Scan cfg fuel Type_ None range options ?w1) w =>
        destruct (Scan_refused fuel Type_ None range options w1 He) as (Hm & Hc & Hcl)
    end.
    split; [exact Hm | split; [rewrite Hc | rewrite Hcl]; reflexivity].
Qed.

Lemma GetItem_refused (fuel : nat) (Type_ : ItemType) (id : JsVal) (range : option JsVal)
    (options : ReadOptions) (w : World C) :
  is_empty_string id || is_empty_string_opt range = true ->
  refused (GetItem cfg fuel Type_ id range options w) w.
Proof.
  intros He. unfold GetItem.
  destruct (is_empty_string id).
  - split; [eexists; reflexivity | split; reflexivity].
  - cbn [orb] in He. rewrite He. split; [eexists; reflexivity | split; reflexivity].
Qed.

Lemma DeleteItem_refused (Type_ : ItemType) (id : JsVal) (range : option JsVal)
    (returnValue : ReturnValue) (w : World C) :
  is_empty_string id || is_empty_string_opt range = true ->
  refused (DeleteItem cfg Type_ id range returnValue w) w.
Proof.
  intros He. unfold DeleteItem.
  destruct (is_empty_string id).
  - split; [eexists; reflexivity | split; reflexivity].
  - cbn [orb] in He. rewrite He. split; [eexists; reflexivity | split; reflexivity].
Qed.

End Reads.

(** C3, as the code has it.  Each entry point that takes an id and a range,
    [GetItem], [GetItems], [Query], [Scan] and [DeleteItem], refuses an
    empty-string id or an empty-string range with an [ArgumentError] and
    sends nothing to the client. *)
Theorem empty_key_refused_before_any_call
    {C : Type} {SC : StorageClient C} (cfg : Config) (fuel : nat) (Type_ : ItemType)
    (id : JsVal) (range : option JsVal) (options : ReadOptions)
    (returnValue : ReturnValue) (w : World C) :
  is_empty_string id || is_empty_string_opt range = true ->
  refused (GetItem cfg fuel Type_ id range options w) w /\
  refused (GetItems cfg fuel Type_ (Some id) range options w) w /\
  refused (Query cfg fuel Type_ id range options w) w /\
  refused (Scan cfg fuel Type_ (Some id) range options w) w /\
  refused (DeleteItem cfg Type_ id range returnValue w) w /\
  (is_empty_string_opt range = true ->
   refused (GetItems cfg fuel Type_ None range options w) w /\
   refused (Scan cfg fuel Type_ None range options w) w).
Proof.
  intros He.
  split; [exact (GetItem_refused cfg fuel Type_ id range options w He)|].
  split; [exact (GetItems_refused cfg fuel Type_ (Some id) range options w He)|].
  split; [exact (Query_refused cfg fuel Type_ id range options w He)|].
  split; [exact (Scan_refused cfg fuel Type_ (Some id) range options w He)|].
  split; [exact (DeleteItem_refused cfg Type_ id range returnValue w He)|].
  intros Hr. split.
  - apply GetItems_refused. exact Hr.
  - apply Scan_refused. exact Hr.
Qed.

Lemma empty_key_refused_before_any_call_witness :
  refused (GetItem Sample.cfg 2 Sample.Thing (VStr "") None no_options
             (Service.world Sample.service_AB))
          (Service.world Sample.service_AB) /\
  refused (Scan Sample.cfg 2 Sample.Thing None (Some (VStr "")) no_options
             (Service.world Sample.service_AB))
          (Service.world Sample.service_AB).
Proof.
  split.
  - refine (proj1 (empty_key_refused_before_any_call Sample.cfg 2 Sample.Thing
                     (VStr "") None no_options NONE (Service.world Sample.service_AB) _)).
    reflexivity.
  - refine (proj2 (proj2 (proj2 (proj2 (proj2 (proj2
             (empty_key_refused_before_any_call Sample.cfg 2 Sample.Thing
                (VStr "x") (Some (VStr "")) no_options NONE
                (Service.world Sample.service_AB) _))))) _)).
    + reflexivity.
    + reflexivity.
Defined.

(** C3 as the specification states it fails for [PutItem]: a record whose
    id is the empty string is marshalled and sent to the client. *)
Lemma PutItem_sends_empty_id :
  props (Sample.thing "") !! IdFieldName Sample.Thing = Some (VStr "") /\
  is_empty_string (VStr "") = true /\
  fst (PutItem Sample.cfg 2 no_put_options (Sample.thing "", Scripted.world [Scripted.Done]))
  = Ret true /\
  calls (snd (snd (PutItem Sample.cfg 2 no_put_options
                     (Sample.thing "", Scripted.world [Scripted.Done]))))
  = [PutItemCommand (PutItem_params Sample.cfg (Some (Int (-1)))
                       (MarkUpdated 0 (set_version 0 (Sample.thing ""))))] /\
  pi_Item (PutItem_params Sample.cfg (Some (Int (-1)))
             (MarkUpdated 0 (set_version 0 (Sample.thing "")))) !! "id" = Some (VStr "").
Proof. vm_compute. auto 6. Qed.

(** ** The page loop *)

Section Pages.

Context {C : Type} {SC : StorageClient C}.
Variable cfg : Config.
Variable mk : ReadInput -> Command.
Variable f : ReadInput -> C -> SdkResult ReadOutput * C.
Variable label : string.
Variable Type_ : ItemType.
Variable options : ReadOptions.

(** One turn of the loop. *)
Lemma page_loop_turn (fuel : nat) (params : ReadInput) (items : list Item) (w : World C) :
  page_loop cfg (S fuel) (fun p => send (mk p) (f p)) label Type_ options params (items, w) =
  match fst (f params (client w)) with
  | inl result =>
      let items' := items ++ hydrate Type_ (now w) (default [] (Items result)) in
      let w1 := logged (page_log (_debugMode cfg) label)
                  (sent (mk params) (snd (f params (client w))) w) in
      if bool_decide (LastEvaluatedKey result <> None) && under_limit (Limit options) items'
      then page_loop cfg fuel (fun p => send (mk p) (f p)) label Type_ options
             (set_ExclusiveStartKey (LastEvaluatedKey result) params) (items', w1)
      else (Ret tt, (items', w1))
  | inr e => (Throw e, (items, sent (mk params) (snd (f params (client w))) w))
  end.
Proof.
  cbn [page_loop]. mrun.
  destruct (f params (client w)) as [[result|e] c1]; cbn [fst snd]; [|reflexivity].
  unfold page_log, logged, sent, entry, hydrate.
  destruct (_debugMode cfg); destruct (Items result) as [rows|];
    cbn [fst snd client calls logs now from_option id set_ExclusiveStartKey
         ri_ExclusiveStartKey];
    rewrite <- ?app_assoc, ?app_nil_r; cbn [app map];
    match goal with
    | |- context [if ?b then _ else _] => destruct b; reflexivity
    end.
Qed.

Lemma hydrate_length (ms : Z) (rows : list AttrMap) :
  length (hydrate Type_ ms rows) = length rows.
Proof. unfold hydrate. apply length_map. Qed.

Lemma hydrate_app (ms : Z) (a b : list AttrMap) :
  hydrate Type_ ms (a ++ b) = hydrate Type_ ms a ++ hydrate Type_ ms b.
Proof. unfold hydrate. apply map_app. Qed.

Hypothesis mk_is_Read : forall p, is_Read (mk p) = true.

(** The loop over a client that serves [pages], with a limit of [N] items:
    it fetches the pages [front ++ [last]] and no more, having gone on after
    each page of [front] because the count was still below [N], and having
    stopped after [last] because it carried no cursor or the count had
    reached [N]. *)
Lemma page_loop_serves (N : nat) (c : C) (params : ReadInput) (pages : list (list AttrMap)) :
  Limit options = Some (Z.of_nat N) ->
  serves f c params pages ->
  forall (fuel : nat) (items : list Item) (w : World C),
    client w = c ->
    length pages <= fuel ->
    exists (front : list (list AttrMap)) (last : list AttrMap)
           (unfetched : list (list AttrMap)) (w' : World C),
      pages = front ++ last :: unfetched /\
      page_loop cfg fuel (fun p => send (mk p) (f p)) label Type_ options params (items, w)
      = (Ret tt, (items ++ hydrate Type_ (now w) (concat (front ++ [last])), w')) /\
      grew (fun new => length new = S (length front) /\ count is_Read new = S (length front))
           w w' /\
      (front = [] \/ length items + length (concat front) < N) /\
      (unfetched = [] \/ N <= length items + length (concat (front ++ [last]))).
Proof.
  intros HN Hs.
  induction Hs as [c p c' rows Hf | c p c' rows k rest Hf Hrest IH];
    intros fuel items w Hc Hfuel;
    (destruct fuel as [|fuel]; [cbn in Hfuel; lia|]);
    rewrite page_loop_turn; rewrite Hc, Hf;
    cbn [fst snd Items LastEvaluatedKey from_option id].
  - exists [], rows, [], (logged (page_log (_debugMode cfg) label) (sent (mk p) c' w)).
    rewrite bool_decide_eq_false_2 by (intros H; apply H; reflexivity).
    cbn [andb app concat]. rewrite app_nil_r.
    split; [reflexivity|]. split; [reflexivity|].
    split.
    { exists [mk p]. split; [reflexivity|]. unfold count. cbn. rewrite mk_is_Read. auto. }
    auto.
  - rewrite bool_decide_eq_true_2 by discriminate. cbn [andb].
    unfold under_limit at 1. rewrite HN.
    destruct (Z.ltb_spec (Z.of_nat (length (items ++ hydrate Type_ (now w) rows)))
                (Z.of_nat N)) as [Hlt|Hge].
    + set (w1 := logged (page_log (_debugMode cfg) label) (sent (mk p) c' w)).
      destruct (IH fuel (items ++ hydrate Type_ (now w) rows) w1 eq_refl)
        as (front & last & unfetched & w' & Hpages & Hrun & Hgrew & Hfront & Hstop).
      { cbn in Hfuel. lia. }
      exists (rows :: front), last, unfetched, w'.
      rewrite length_app, hydrate_length in Hlt, Hfront, Hstop.
      split; [rewrite Hpages; reflexivity|].
      split.
      { rewrite Hrun. cbn [app concat]. rewrite hydrate_app, app_assoc. reflexivity. }
      split.
      { destruct Hgrew as (new & Hcalls & Hlen & Hcount).
        exists (mk p :: new). split.
        - rewrite Hcalls. unfold w1, logged, sent. cbn [calls].
          rewrite <- app_assoc. reflexivity.
        - unfold count in *. cbn [List.filter length]. rewrite mk_is_Read.
          cbn [length]. auto. }
      split.
      { right. cbn [concat]. rewrite length_app.
        destruct Hfront as [->|Hfront]; [cbn; lia | lia]. }
      { destruct Hstop as [->|Hstop]; [left; reflexivity | right].
        cbn [app concat]. rewrite length_app. lia. }
    + exists [], rows, rest, (logged (page_log (_debugMode cfg) label) (sent (mk p) c' w)).
      rewrite length_app, hydrate_length in Hge.
      cbn [app concat]. rewrite app_nil_r.
      split; [reflexivity|]. split; [reflexivity|].
      split.
      { exists [mk p]. split; [reflexivity|]. unfold count. cbn. rewrite mk_is_Read. auto. }
      split; [left; reflexivity | right; lia].
Qed.

End Pages.

Section ReadRuns.

Context {C : Type} {SC : StorageClient C}.
Variable cfg : Config.

(** Building the request sends nothing and leaves the clock alone. *)
Lemma Query_params_world (Type_ : ItemType) (id : JsVal) (range : option JsVal)
    (options : ReadOptions) (w : World C) :
  let w0 := snd (Query_params cfg Type_ id range options w) in
  client w0 = client w /\ calls w0 = calls w /\ now w0 = now w.
Proof.
  unfold Query_params.
  destruct (is_empty_string id); [cbn; auto|].
  destruct (is_empty_string_opt range); [cbn; auto|].
  destruct (_debugMode cfg && truthy_str (opt_IndexName options)
            && negb (truthy_str (IndexPartitionKeyFieldName options)));
    destruct range as [r|]; mrun;
    try (destruct (negb (truthy_str (sort_key_name Type_ options)))); cbn; auto.
Qed.

Lemma Scan_params_world (Type_ : ItemType) (id : option JsVal) (range : option JsVal)
    (options : ReadOptions) (w : World C) :
  let w0 := snd (Scan_params cfg Type_ id range options w) in
  client w0 = client w /\ calls w0 = calls w /\ now w0 = now w.
Proof.
  unfold Scan_params.
  destruct (is_empty_string_opt id); [cbn; auto|].
  destruct (is_empty_string_opt range); [cbn; auto|].
  destruct (_debugMode cfg && truthy_str (opt_IndexName options)
            && negb (truthy_str (IndexPartitionKeyFieldName options)));
    destruct id as [idv|]; destruct range as [r|]; mrun;
    try (destruct (negb (truthy_str (sort_key_name Type_ options)))); cbn; auto.
Qed.

(** [Query] and [Scan] once the request is built and the loop has ended. *)
Lemma Query_returns (fuel : nat) (Type_ : ItemType) (id : JsVal) (range : option JsVal)
    (options : ReadOptions) (w w0 w' : World C) (params : ReadInput) (items : list Item) :
  Query_params cfg Type_ id range options w = (Ret params, w0) ->
  page_loop cfg fuel (fun p => send (QueryCommand p) (query p)) "Query" Type_ options params
    ([], logged [entry LDebug "Query" None] w0) = (Ret tt, (items, w')) ->
  Query cfg fuel Type_ id range options w = (Ret items, w').
Proof.
  intros Hp Hloop. unfold Query.
  cbv beta iota zeta delta [bind try_catch with_local log get_local].
  rewrite Hp. unfold logged, entry in Hloop. cbn [client calls logs now] in Hloop.
  rewrite Hloop. reflexivity.
Qed.

Lemma Scan_returns (fuel : nat) (Type_ : ItemType) (id : option JsVal)
    (range : option JsVal) (options : ReadOptions) (w w0 w' : World C)
    (params : ReadInput) (items : list Item) :
  Scan_params cfg Type_ id range options w = (Ret params, w0) ->
  page_loop cfg fuel (fun p => send (ScanCommand p) (scan p)) "Scan" Type_ options params
    ([], logged [entry LDebug "Scan" None] w0) = (Ret tt, (items, w')) ->
  Scan cfg fuel Type_ id range options w = (Ret items, w').
Proof.
  intros Hp Hloop. unfold Scan.
  cbv beta iota zeta delta [bind try_catch with_local log get_local].
  rewrite Hp. unfold logged, entry in Hloop. cbn [client calls logs now] in Hloop.
  rewrite Hloop. reflexivity.
Qed.

(** The bounds that follow from where the loop stopped. *)
Lemma stop_bounds (N : nat) (front : list (list AttrMap)) (last : list AttrMap)
    (unfetched : list (list AttrMap)) :
  N < length (concat (front ++ last :: unfetched)) ->
  front = [] \/ length (concat front) < N ->
  unfetched = [] \/ N <= length (concat (front ++ [last])) ->
  N <= length (concat (front ++ [last])) /\
  length (concat (front ++ [last])) <= N + length last.
Proof.
  intros Htotal Hfront Hstop.
  rewrite !concat_app, !length_app in *. cbn [concat] in *.
  rewrite ?app_nil_r, ?length_app in *.
  split.
  - destruct Hstop as [->|Hstop]; [cbn in Htotal|]; lia.
  - destruct Hfront as [->|Hfront]; cbn; lia.
Qed.

Lemma reads_stop_at_limit (fuel : nat) (Type_ : ItemType) (range : option JsVal)
    (options : ReadOptions) (w w0 : World C) (params : ReadInput)
    (pages : list (list AttrMap)) (N : nat) :
  Limit options = Some (Z.of_nat N) ->
  N < length (concat pages) ->
  length pages <= fuel ->
  (forall id : JsVal,
      Query_params cfg Type_ id range options w = (Ret params, w0) ->
      serves query (client w0) params pages ->
      stops_at_limit Type_ N pages w (Query cfg fuel Type_ id range options w)) /\
  (forall id : option JsVal,
      Scan_params cfg Type_ id range options w = (Ret params, w0) ->
      serves scan (client w0) params pages ->
      stops_at_limit Type_ N pages w (Scan cfg fuel Type_ id range options w)).
Proof.
  intros HN Htotal Hfuel. split.
  - intros id Hp Hs.
    pose proof (Query_params_world Type_ id range options w) as Hw.
    rewrite Hp in Hw. cbn [snd] in Hw. destruct Hw as (_ & Hcalls0 & Hnow0).
    destruct (page_loop_serves cfg QueryCommand query "Query" Type_ options
                (fun _ => eq_refl) N (client w0) params pages HN Hs fuel []
                (logged [entry LDebug "Query" None] w0) eq_refl Hfuel)
      as (front & last & unfetched & w' & Hpages & Hrun & Hgrew & Hfront & Hstop).
    cbn [app length Nat.add logged now] in Hrun, Hfront, Hstop.
    exists front, last, unfetched, (hydrate Type_ (now w) (concat (front ++ [last]))).
    rewrite Hnow0 in Hrun.
    rewrite (Query_returns fuel Type_ id range options w w0 w' params _ Hp Hrun).
    cbn [fst snd].
    split; [exact Hpages|]. split; [reflexivity|]. split; [reflexivity|].
    split.
    { destruct Hgrew as (new & Hc & Hn). exists new. split; [|exact Hn].
      rewrite Hc. cbn [logged calls]. rewrite Hcalls0. reflexivity. }
    split; [exact Hfront|]. split; [exact Hstop|].
    rewrite hydrate_length. subst pages. apply (stop_bounds N front last unfetched); assumption.
  - intros id Hp Hs.
    pose proof (Scan_params_world Type_ id range options w) as Hw.
    rewrite Hp in Hw. cbn [snd] in Hw. destruct Hw as (_ & Hcalls0 & Hnow0).
    destruct (page_loop_serves cfg ScanCommand scan "Scan" Type_ options
                (fun _ => eq_refl) N (client w0) params pages HN Hs fuel []
                (logged [entry LDebug "Scan" None] w0) eq_refl Hfuel)
      as (front & last & unfetched & w' & Hpages & Hrun & Hgrew & Hfront & Hstop).
    cbn [app length Nat.add logged now] in Hrun, Hfront, Hstop.
    exists front, last, unfetched, (hydrate Type_ (now w) (concat (front ++ [last]))).
    rewrite Hnow0 in Hrun.
    rewrite (Scan_returns fuel Type_ id range options w w0 w' params _ Hp Hrun).
    cbn [fst snd].
    split; [exact Hpages|]. split; [reflexivity|]. split; [reflexivity|].
    split.
    { destruct Hgrew as (new & Hc & Hn). exists new. split; [|exact Hn].
      rewrite Hc. cbn [logged calls]. rewrite Hcalls0. reflexivity. }
    split; [exact Hfront|]. split; [exact Hstop|].
    rewrite hydrate_length. subst pages. apply (stop_bounds N front last unfetched); assumption.
Qed.

End ReadRuns.

(** C8.  A [Query] or a [Scan] with [Limit = N] whose request is accepted,
    over a client that serves more than [N] items in pages: the loop asks for
    a further page exactly while the page before it carried a cursor and the
    count of items was below [N]; the check comes after a page and before
    the next request, and the last page is not trimmed.  So the read returns
    at least [N] items and at most [N] and the items of its last page. *)
Theorem paginated_read_stops_at_limit
    {C : Type} {SC : StorageClient C} (cfg : Config) (fuel : nat) (Type_ : ItemType)
    (range : option JsVal) (options : ReadOptions) (w w0 : World C) (params : ReadInput)
    (pages : list (list AttrMap)) (N : nat) :
  Limit options = Some (Z.of_nat N) ->
  N < length (concat pages) ->
  length pages <= fuel ->
  (forall id : JsVal,
      Query_params cfg Type_ id range options w = (Ret params, w0) ->
      serves query (client w0) params pages ->
      stops_at_limit Type_ N pages w (Query cfg fuel Type_ id range options w)) /\
  (forall id : option JsVal,
      Scan_params cfg Type_ id range options w = (Ret params, w0) ->
      serves scan (client w0) params pages ->
      stops_at_limit Type_ N pages w (Scan cfg fuel Type_ id range options w)).
Proof.
  exact (reads_stop_at_limit cfg fuel Type_ range options w w0 params pages N).
Qed.

Lemma paginated_read_stops_at_limit_witness :
  stops_at_limit Sample.Thing 3 Sample.pages (Scripted.world Sample.paged_script)
    (Query Sample.cfg 5 Sample.Thing (VStr "a1") None Sample.limit3
       (Scripted.world Sample.paged_script)).
Proof.
  refine (proj1 (paginated_read_stops_at_limit Sample.cfg 5 Sample.Thing None Sample.limit3
                   (Scripted.world Sample.paged_script)
                   (snd (Query_params Sample.cfg Sample.Thing (VStr "a1") None Sample.limit3
                           (Scripted.world Sample.paged_script)))
                   (match fst (Query_params Sample.cfg Sample.Thing (VStr "a1") None
                                 Sample.limit3 (Scripted.world Sample.paged_script)) with
                    | Ret p => p
                    | _ => set_ExclusiveStartKey None
                             {| ri_TableName := ""; ri_IndexName := None;
                                ri_KeyConditionExpression := None;
                                ri_FilterExpression := None;
                                ri_ExpressionAttributeValues := None;
                                ri_ExpressionAttributeNames := None;
                                ri_Select := ""; ri_ExclusiveStartKey := None;
                                ri_Limit := None; ri_ConsistentRead := None;
                                ri_ScanIndexForward := None |}
                    end)
                   Sample.pages 3 _ _ _) (VStr "a1") _ _).
  - reflexivity.
  - cbn. lia.
  - cbn. lia.
  - reflexivity.
  - eapply serves_more; [reflexivity|].
    eapply serves_more; [reflexivity|].
    eapply serves_last. reflexivity.
Defined.

Section IndexReads.

Context {C : Type} {SC : StorageClient C}.
Variable cfg : Config.

(** [GetItem] with an index name: the call to [GetItems] and the first
    element of its result. *)
Lemma GetItem_delegates (fuel : nat) (Type_ : ItemType) (id : JsVal) (range : option JsVal)
    (options : ReadOptions) (w : World C) :
  truthy_str (opt_IndexName options) = true ->
  is_empty_string id = false ->
  is_empty_string_opt range = false ->
  GetItem cfg fuel Type_ id range options w =
  (items <- GetItems cfg fuel Type_ (Some id) range (GetItem_index_options options) ;;
   ret (items !! 0%nat)) w.
Proof.
  intros Hi Hid Hrange. unfold GetItem. rewrite Hid, Hrange, Hi. reflexivity.
Qed.

(** Whatever the keys, the index read and the call of [GetItems] agree on
    the outcome and on what reached the client. *)
Lemma GetItem_delegates_outcome (fuel : nat) (Type_ : ItemType) (id : JsVal)
    (range : option JsVal) (options : ReadOptions) (w : World C) :
  truthy_str (opt_IndexName options) = true ->
  let direct := GetItem cfg fuel Type_ id range options w in
  let delegated :=
    (items <- GetItems cfg fuel Type_ (Some id) range (GetItem_index_options options) ;;
     ret (items !! 0%nat)) w in
  fst direct = fst delegated /\
  calls (snd direct) = calls (snd delegated) /\
  client (snd direct) = client (snd delegated).
Proof.
  intros Hi direct delegated.
  destruct (is_empty_string id || is_empty_string_opt range) eqn:He.
  - subst direct delegated. unfold GetItem, GetItems, Query, Query_params.
    destruct (is_empty_string id); [cbn; auto|].
    cbn [orb] in He. rewrite He. cbn. auto.
  - apply orb_false_elim in He. destruct He as [Hid Hrange].
    subst direct delegated.
    rewrite (GetItem_delegates fuel Type_ id range options w Hi Hid Hrange). auto.
Qed.

Lemma GetItem_ignores_Required (fuel : nat) (Type_ : ItemType) (id : JsVal)
    (range : option JsVal) (options : ReadOptions) (required : option (option bool))
    (ignore : option bool)
    (w : World C) :
  truthy_str (opt_IndexName options) = true ->
  GetItem cfg fuel Type_ id range (with_Required required ignore options) w =
  GetItem cfg fuel Type_ id range options w.
Proof.
  intros Hi. unfold GetItem. cbn [opt_IndexName with_Required]. rewrite Hi.
  destruct (is_empty_string id); [reflexivity|].
  destruct (is_empty_string_opt range); reflexivity.
Qed.

(** The index read when the first page of the query is empty and final. *)
Lemma GetItem_index_missing (fuel : nat) (Type_ : ItemType) (id : JsVal)
    (range : option JsVal) (options : ReadOptions) (w w0 : World C) (params : ReadInput)
    (rows : option (list AttrMap)) :
  truthy_str (opt_IndexName options) = true ->
  Query_params cfg Type_ id range (GetItem_index_options options)
    (logged [entry LDebug "GetItems ==> Query" None] w) = (Ret params, w0) ->
  fst (query params (client w0))
  = inl {| Items := rows; LastEvaluatedKey := None |} ->
  default [] rows = [] ->
  fst (GetItem cfg (S fuel) Type_ id range options w) = Ret None.
Proof.
  intros Hi Hp Hq Hrows. unfold GetItem. rewrite Hi.
  destruct (is_empty_string id) eqn:Hid.
  { unfold Query_params in Hp. rewrite Hid in Hp. discriminate. }
  destruct (is_empty_string_opt range) eqn:Hrange.
  { unfold Query_params in Hp. rewrite Hid, Hrange in Hp. discriminate. }
  unfold GetItems, Query.
  cbv beta iota zeta delta [bind try_catch with_local log get_local ret].
  unfold logged, entry in Hp. cbn [client calls logs now] in Hp. rewrite Hp.
  rewrite page_loop_turn. cbn [client calls logs now]. rewrite Hq.
  cbn [Items LastEvaluatedKey]. rewrite Hrows.
  rewrite bool_decide_eq_false_2 by (intros H; apply H; reflexivity).
  reflexivity.
Qed.

(** The index read when the query is rejected for a missing table. *)
Lemma GetItem_index_table_missing (fuel : nat) (Type_ : ItemType) (id : JsVal)
    (range : option JsVal) (options : ReadOptions) (w w0 : World C) (params : ReadInput)
    (error : JsError) :
  truthy_str (opt_IndexName options) = true ->
  Query_params cfg Type_ id range (GetItem_index_options options)
    (logged [entry LDebug "GetItems ==> Query" None] w) = (Ret params, w0) ->
  fst (query params (client w0)) = inr error ->
  is_ResourceNotFound error = true ->
  exists e, fst (GetItem cfg (S fuel) Type_ id range options w) = Throw e /\
            (_debugMode cfg = false -> e = error).
Proof.
  intros Hi Hp Hq Hrnf. unfold GetItem. rewrite Hi.
  destruct (is_empty_string id) eqn:Hid.
  { unfold Query_params in Hp. rewrite Hid in Hp. discriminate. }
  destruct (is_empty_string_opt range) eqn:Hrange.
  { unfold Query_params in Hp. rewrite Hid, Hrange in Hp. discriminate. }
  unfold GetItems, Query.
  cbv beta iota zeta delta [bind try_catch with_local log get_local ret].
  unfold logged, entry in Hp. cbn [client calls logs now] in Hp. rewrite Hp.
  rewrite page_loop_turn. cbn [client calls logs now]. rewrite Hq.
  unfold read_catch. rewrite Hrnf. cbn [IgnoreTableNotFound GetItem_index_options].
  rewrite bool_decide_eq_false_2 by discriminate. cbn [negb].
  destruct (_debugMode cfg).
  - mrun.
    match goal with
    | |- context [ListTables ?w1] =>
        pose proof (ListTables_settles w1) as Hsettles;
        destruct (ListTables w1) as [[names|e|] w2]
    end; mrun.
    + exists error. split; [reflexivity | discriminate].
    + exists e. split; [reflexivity | discriminate].
    + exfalso. apply Hsettles. reflexivity.
  - mrun. exists error. split; reflexivity.
Qed.

End IndexReads.

(** C10.  [GetItem] with a non-empty [IndexName] in its options gives the
    outcome of the call of [GetItems] with the index options alone, followed
    by taking the first element of the list, or [undefined] when the list is
    empty; with keys that are not empty strings it is that computation.  The
    outcome does not depend on [Required] or [IgnoreTableNotFound]: when the
    query answers with an empty final page the result is [undefined] even
    with [Required] left at its default or set, and a table-not-found
    rejection of the query is raised even with [IgnoreTableNotFound] set. *)
Theorem GetItem_by_index
    {C : Type} {SC : StorageClient C} (cfg : Config) (fuel : nat) (Type_ : ItemType)
    (id : JsVal) (range : option JsVal) (options : ReadOptions) (w : World C) :
  truthy_str (opt_IndexName options) = true ->
  let delegated :=
    (items <- GetItems cfg fuel Type_ (Some id) range (GetItem_index_options options) ;;
     ret (items !! 0%nat)) w in
  (fst (GetItem cfg fuel Type_ id range options w) = fst delegated /\
   calls (snd (GetItem cfg fuel Type_ id range options w)) = calls (snd delegated) /\
   client (snd (GetItem cfg fuel Type_ id range options w)) = client (snd delegated)) /\
  (is_empty_string id = false ->
   is_empty_string_opt range = false ->
   GetItem cfg fuel Type_ id range options w = delegated) /\
  (forall (required : option (option bool)) (ignore : option bool),
      GetItem cfg fuel Type_ id range (with_Required required ignore options) w
      = GetItem cfg fuel Type_ id range options w) /\
  (forall (w0 : World C) (params : ReadInput) (rows : option (list AttrMap)),
      Query_params cfg Type_ id range (GetItem_index_options options)
        (logged [entry LDebug "GetItems ==> Query" None] w) = (Ret params, w0) ->
      fst (query params (client w0)) = inl {| Items := rows; LastEvaluatedKey := None |} ->
      default [] rows = [] ->
      fst (GetItem cfg (S fuel) Type_ id range options w) = Ret None) /\
  (forall (w0 : World C) (params : ReadInput) (error : JsError),
      Query_params cfg Type_ id range (GetItem_index_options options)
        (logged [entry LDebug "GetItems ==> Query" None] w) = (Ret params, w0) ->
      fst (query params (client w0)) = inr error ->
      is_ResourceNotFound error = true ->
      exists e, fst (GetItem cfg (S fuel) Type_ id range options w) = Throw e /\
                (_debugMode cfg = false -> e = error)).
Proof.
  intros Hi delegated.
  split; [exact (GetItem_delegates_outcome cfg fuel Type_ id range options w Hi)|].
  split; [intros Hid Hrange;
          exact (GetItem_delegates cfg fuel Type_ id range options w Hi Hid Hrange)|].
  split; [intros required ignore;
          exact (GetItem_ignores_Required cfg fuel Type_ id range options required ignore w Hi)|].
  split.
  - intros w0 params rows Hp Hq Hrows.
    exact (GetItem_index_missing cfg fuel Type_ id range options w w0 params rows
             Hi Hp Hq Hrows).
  - intros w0 params error Hp Hq Hrnf.
    exact (GetItem_index_table_missing cfg fuel Type_ id range options w w0 params error
             Hi Hp Hq Hrnf).
Qed.

Lemma GetItem_by_index_witness :
  fst (GetItem Sample.cfg 1 Sample.Thing (VStr "b1") None Sample.by_index
         (Scripted.world
            [Scripted.Page {| Items := Some []; LastEvaluatedKey := None |}])) = Ret None /\
  exists e,
    fst (GetItem Sample.cfg 1 Sample.Thing (VStr "b1") None Sample.by_index
           (Scripted.world [Scripted.Reject Sample.not_found])) = Throw e /\
    (_debugMode Sample.cfg = false -> e = Sample.not_found).
Proof.
  split.
  - refine (proj1 (proj2 (proj2 (proj2
             (GetItem_by_index Sample.cfg 0 Sample.Thing (VStr "b1") None Sample.by_index
                (Scripted.world
                   [Scripted.Page {| Items := Some []; LastEvaluatedKey := None |}])
                _))))
             (snd (Query_params Sample.cfg Sample.Thing (VStr "b1") None
                     (GetItem_index_options Sample.by_index)
                     (logged [entry LDebug "GetItems ==> Query" None]
                        (Scripted.world
                           [Scripted.Page {| Items := Some []; LastEvaluatedKey := None |}]))))
             _ (Some []) _ _ _).
    + reflexivity.
    + vm_compute. reflexivity.
    + reflexivity.
    + reflexivity.
  - refine (proj2 (proj2 (proj2 (proj2
             (GetItem_by_index Sample.cfg 0 Sample.Thing (VStr "b1") None Sample.by_index
                (Scripted.world [Scripted.Reject Sample.not_found]) _))))
             (snd (Query_params Sample.cfg Sample.Thing (VStr "b1") None
                     (GetItem_index_options Sample.by_index)
                     (logged [entry LDebug "GetItems ==> Query" None]
                        (Scripted.world [Scripted.Reject Sample.not_found]))))
             _ Sample.not_found _ _ _).
    + reflexivity.
    + vm_compute. reflexivity.
    + reflexivity.
    + reflexivity.
Defined.

(** ** Ensuring a table *)

Section Ensure.

Context {C : Type} {SC : StorageClient C}.
Variable cfg : Config.

(** A table found in the listing it was given: [InitializeTable] only logs. *)
Lemma InitializeTable_listed (fuel : nat) (Type_ : ItemType) (names : list string)
    (options : option ICreateSchemaOptions) (w : World C) :
  includes names (GenerateTableName cfg (BaseTableName Type_)) = true ->
  InitializeTable cfg fuel Type_ (Some names) options w
  = (Ret tt, logged [entry LInfo "InitializeTable: Table Exists" None] w).
Proof. intros Hin. unfold InitializeTable. mrun. rewrite Hin. reflexivity. Qed.

(** A table found in the listing [InitializeTable] fetches: one [ListTables]
    command and nothing else. *)
Lemma InitializeTable_found (fuel : nat) (Type_ : ItemType)
    (options : option ICreateSchemaOptions) (w : World C)
    (names : option (list string)) (c1 : C) :
  listTables (client w) = (inl names, c1) ->
  includes (default [] names) (GenerateTableName cfg (BaseTableName Type_)) = true ->
  InitializeTable cfg fuel Type_ None options w
  = (Ret tt, logged [entry LInfo "InitializeTable: Table Exists" None]
               (sent ListTablesCommand c1 w)).
Proof.
  intros Hl Hin. unfold InitializeTable, ListTables. mrun. rewrite Hl. cbn [fst snd].
  rewrite Hin. reflexivity.
Qed.

(** A table missing from a stale listing but found in the fresh one that
    [CreateTableIfNotExists] fetches: the table is described, not created. *)
Lemma InitializeTable_raced (fuel : nat) (Type_ : ItemType) (stale : list string)
    (options : option ICreateSchemaOptions) (w : World C)
    (names : option (list string)) (c1 : C) :
  includes stale (GenerateTableName cfg (BaseTableName Type_)) = false ->
  listTables (client w) = (inl names, c1) ->
  includes (default [] names) (GenerateTableName cfg (BaseTableName Type_)) = true ->
  calls (snd (InitializeTable cfg fuel Type_ (Some stale) options w))
  = calls w ++ [ListTablesCommand;
                DescribeTableCommand (Some (GenerateTableName cfg (BaseTableName Type_)))].
Proof.
  intros Hstale Hl Hin. unfold InitializeTable. mrun. rewrite Hstale. mrun.
  unfold CreateTableIfNotExists. unfold ListTables at 1. mrun. rewrite Hl. cbn [fst snd].
  cbn [CreateSchema cti_TableName]. rewrite Hin.
  match goal with
  | |- context [DescribeTable ?n ?w1] =>
      pose proof (DescribeTable_calls n w1) as Hd;
      destruct (DescribeTable n w1) as [[[td|]|e|] w2]
  end; cbn [fst snd calls] in *; rewrite Hd; rewrite <- app_assoc; reflexivity.
Qed.

End Ensure.

(** ** The in-memory service *)

Lemma includes_true (l : list string) (n : string) : includes l n = true <-> In n l.
Proof.
  unfold includes. rewrite existsb_exists. split.
  - intros (x & Hin & Heq). apply String.eqb_eq in Heq. subst x. exact Hin.
  - intros Hin. exists n. split; [exact Hin | apply String.eqb_refl].
Qed.

Lemma Service_listed (s : Service.State) (n : string) :
  includes (map fst (map_to_list (Service.tables s))) n
  = bool_decide (is_Some (Service.tables s !! n)).
Proof.
  destruct (Service.tables s !! n) as [t|] eqn:Ht.
  - rewrite bool_decide_eq_true_2 by eauto.
    apply includes_true. apply list_elem_of_In.
    apply list_elem_of_fmap. exists (n, t). split; [reflexivity|].
    apply elem_of_map_to_list. exact Ht.
  - rewrite bool_decide_eq_false_2 by (intros [t Ht']; congruence).
    apply not_true_is_false. intros Hin. apply includes_true in Hin.
    apply list_elem_of_In in Hin. apply list_elem_of_fmap in Hin.
    destruct Hin as ([n' t] & Heq & Hin). cbn in Heq. subst n'.
    apply elem_of_map_to_list in Hin. congruence.
Qed.

Lemma Service_listTables (s : Service.State) :
  listTables s = (inl (Some (map fst (map_to_list (Service.tables s)))), s).
Proof. reflexivity. Qed.

Lemma Service_describeTable (s : Service.State) (n : string) (t : Service.SimTable) :
  Service.tables s !! n = Some t ->
  describeTable (Some n) s
  = (inl (Some (Service.describe n (Service.polled t))),
     Service.with_table s n (Service.polled t)).
Proof. intros Ht. cbn. unfold Service.on_table. rewrite Ht. reflexivity. Qed.

Lemma Service_createTable (s : Service.State) (input : CreateTableInput) :
  Service.tables s !! cti_TableName input = None ->
  createTable input s
  = (let t := {| Service.polls_left := Service.creating_polls s;
                 Service.key_schema := cti_KeySchema input;
                 Service.indexes := default [] (cti_GlobalSecondaryIndexes input);
                 Service.ttl_attribute := None;
                 Service.rows := [] |} in
     (inl (Some (Service.describe (cti_TableName input) t)),
      Service.with_table s (cti_TableName input) t)).
Proof. intros Ht. cbn. rewrite Ht. reflexivity. Qed.

Lemma Service_updateTimeToLive (s : Service.State) (n a : string) (t : Service.SimTable) :
  Service.tables s !! n = Some t ->
  updateTimeToLive {| ttl_TableName := Some n; ttl_Enabled := true; ttl_AttributeName := a |} s
  = (inl (Some true), Service.with_table s n (Service.with_ttl a t)).
Proof. intros Ht. cbn. unfold Service.on_table. cbn. rewrite Ht. reflexivity. Qed.

Lemma Service_with_table_lookup (s : Service.State) (n : string) (t : Service.SimTable) :
  Service.tables (Service.with_table s n t) !! n = Some t.
Proof. cbn. apply lookup_insert_eq. Qed.

Lemma Service_active (n : string) (t : Service.SimTable) :
  Service.polls_left t = 0 ->
  td_TableStatus (Service.describe n t) = Some "ACTIVE".
Proof. intros Hz. unfold Service.describe. cbn. rewrite Hz. reflexivity. Qed.

Lemma Service_creating (n : string) (t : Service.SimTable) (k : nat) :
  Service.polls_left t = S k ->
  td_TableStatus (Service.describe n t) <> Some "ACTIVE".
Proof. intros Hk. unfold Service.describe. cbn. rewrite Hk. discriminate. Qed.

Lemma waitForActive_loop_active {C : Type} {SC : StorageClient C} (fuel : nat)
    (td : TableDescription) (w : World C) :
  td_TableStatus td = Some "ACTIVE" ->
  waitForActive_loop fuel true td w = (Ret td, w).
Proof.
  intros Ha. destruct fuel; cbn [waitForActive_loop];
    rewrite bool_decide_eq_true_2 by exact Ha; reflexivity.
Qed.

(** On the service the wait for ['ACTIVE'] ends, given fuel for the polls
    the table still needs, and sends describe commands only. *)
Lemma Service_waitForActive (fuel : nat) (n : string) :
  forall (t : Service.SimTable) (w : World Service.State),
    Service.tables (client w) !! n = Some t ->
    Service.polls_left t <= fuel ->
    exists (t' : Service.SimTable) (w' : World Service.State),
      waitForActive_loop fuel true (Service.describe n t) w
      = (Ret (Service.describe n t'), w') /\
      Service.tables (client w') !! n = Some t' /\
      count is_CreateTable (calls w') = count is_CreateTable (calls w).
Proof.
  induction fuel as [|fuel IH]; intros t w Ht Hpolls.
  - exists t, w. assert (Hz : Service.polls_left t = 0) by lia.
    rewrite waitForActive_loop_active by (apply Service_active; exact Hz). auto.
  - destruct (Service.polls_left t) as [|k] eqn:Hk.
    + exists t, w.
      rewrite waitForActive_loop_active by (apply Service_active; exact Hk). auto.
    + rewrite waitForActive_loop_step by (apply (Service_creating n t k); exact Hk).
      cbn zeta. cbn [Service.describe td_TableName].
      rewrite (Service_describeTable (client w) n t Ht). cbn [fst snd client calls logs now].
      match goal with
      | |- context [waitForActive_loop fuel true _ ?w1] =>
          destruct (IH (Service.polled t) w1) as (t' & w' & Hrun & Ht' & Hcount)
      end.
      { cbn [client]. apply Service_with_table_lookup. }
      { cbn. rewrite Hk. cbn. lia. }
      exists t', w'. split; [exact Hrun|]. split; [exact Ht'|].
      rewrite Hcount. cbn [calls]. rewrite count_app. cbn. lia.
Qed.

(** [InitializeTable] on the service when the table is missing: it returns,
    the table is there afterwards, and one create-table command was sent. *)
Lemma Service_InitializeTable_creates (cfg : Config) (fuel : nat) (Type_ : ItemType)
    (options : option ICreateSchemaOptions) (w : World Service.State) :
  Service.tables (client w) !! GenerateTableName cfg (BaseTableName Type_) = None ->
  TTLFieldName Type_ <> Some "" ->
  Service.creating_polls (client w) <= fuel ->
  exists w' : World Service.State,
    InitializeTable cfg fuel Type_ None options w = (Ret tt, w') /\
    is_Some (Service.tables (client w') !! GenerateTableName cfg (BaseTableName Type_)) /\
    count is_CreateTable (calls w') = S (count is_CreateTable (calls w)).
Proof.
  intros Hnone Httl Hfuel.
  set (n := GenerateTableName cfg (BaseTableName Type_)) in *.
  assert (Hout : includes (map fst (map_to_list (Service.tables (client w)))) n = false).
  { rewrite Service_listed, Hnone. apply bool_decide_eq_false_2. intros [t Ht]. discriminate. }
  unfold InitializeTable, CreateTableIfNotExists, ListTables. mrun.
  rewrite !Service_listTables. cbn [fst snd from_option id]. fold n. rewrite Hout.
  mrun. rewrite !Service_listTables. cbn [fst snd from_option id].
  cbn [CreateSchema cti_TableName]. fold n. rewrite Hout.
  unfold CreateTable.
  replace (match TTLFieldName Type_ with
           | Some s => Nat.eqb (String.length s) 0
           | None => false
           end) with false.
  2:{ destruct (TTLFieldName Type_) as [[|a s]|]; try reflexivity. congruence. }
  mrun. rewrite Service_createTable by exact Hnone. cbn zeta.
  cbn [fst snd cti_TableName CreateSchema]. fold n.
  match goal with
  | |- context [waitForActive_loop fuel true (Service.describe n ?t0) ?w1] =>
      destruct (Service_waitForActive fuel n t0 w1) as (t' & w' & Hrun & Ht' & Hcount)
  end.
  { cbn [client]. apply Service_with_table_lookup. }
  { cbn. exact Hfuel. }
  rewrite Hrun. cbn [calls] in Hcount. rewrite !count_app in Hcount. cbn in Hcount.
  destruct (negb (Z.eqb (_delayAfterCreateTable cfg) 0)); mrun;
    (destruct (truthy_str (TTLFieldName Type_)) eqn:Htr; mrun;
     [ cbn [Service.describe td_TableName];
       rewrite (Service_updateTimeToLive (client w') n _ t' Ht'); cbn [fst snd];
       eexists; split; [reflexivity|]; cbn [client calls]; split;
       [ rewrite Service_with_table_lookup; eauto
       | rewrite count_app; cbn; lia ]
     | eexists; split; [reflexivity|]; cbn [client calls]; split;
       [ eauto | lia ] ]).
Qed.

(** [InitializeTable] on the service when the table is there: it returns
    after the listing, and no create-table command was sent. *)
Lemma Service_InitializeTable_exists (cfg : Config) (fuel : nat) (Type_ : ItemType)
    (options : option ICreateSchemaOptions) (w : World Service.State) :
  is_Some (Service.tables (client w) !! GenerateTableName cfg (BaseTableName Type_)) ->
  exists w' : World Service.State,
    InitializeTable cfg fuel Type_ None options w = (Ret tt, w') /\
    client w' = client w /\
    calls w' = calls w ++ [ListTablesCommand].
Proof.
  intros Hsome.
  rewrite (InitializeTable_found cfg fuel Type_ options w _ _ (Service_listTables (client w))).
  - eexists. split; [reflexivity|]. cbn. auto.
  - cbn [from_option id]. rewrite Service_listed. apply bool_decide_eq_true_2. exact Hsome.
Qed.

(** C9.  [InitializeTable] sends a create-table command only when the table
    name is in no listing: a name found in the listing it fetches, or in the
    listing [CreateTableIfNotExists] fetches after a stale one, leads to no
    create-table command, and no call sends more than one.  So two calls in
    sequence for one type, on a service that lists the tables it has created
    and from a state without the table, both return and send exactly one
    create-table command between them. *)
Theorem InitializeTable_creates_once
    {C : Type} {SC : StorageClient C} (cfg : Config) (fuel : nat) (Type_ : ItemType)
    (options : option ICreateSchemaOptions) (w : World C) (s : World Service.State) :
  let tableName := GenerateTableName cfg (BaseTableName Type_) in
  (forall (names : option (list string)) (c1 : C),
      listTables (client w) = (inl names, c1) ->
      includes (default [] names) tableName = true ->
      fst (InitializeTable cfg fuel Type_ None options w) = Ret tt /\
      calls (snd (InitializeTable cfg fuel Type_ None options w))
      = calls w ++ [ListTablesCommand]) /\
  (forall (stale : list string) (names : option (list string)) (c1 : C),
      includes stale tableName = false ->
      listTables (client w) = (inl names, c1) ->
      includes (default [] names) tableName = true ->
      calls (snd (InitializeTable cfg fuel Type_ (Some stale) options w))
      = calls w ++ [ListTablesCommand; DescribeTableCommand (Some tableName)]) /\
  (forall existingTables : option (list string),
      grew (within 0 1) w (snd (InitializeTable cfg fuel Type_ existingTables options w))) /\
  (Service.tables (client s) !! tableName = None ->
   TTLFieldName Type_ <> Some "" ->
   Service.creating_polls (client s) <= fuel ->
   let first := InitializeTable cfg fuel Type_ None options s in
   let second := InitializeTable cfg fuel Type_ None options (snd first) in
   fst first = Ret tt /\ fst second = Ret tt /\
   count is_CreateTable (calls (snd second)) = S (count is_CreateTable (calls s))).
Proof.
  intros tableName. split; [|split; [|split]].
  - intros names c1 Hl Hin.
    rewrite (InitializeTable_found cfg fuel Type_ options w names c1 Hl Hin).
    split; reflexivity.
  - intros stale names c1 Hstale Hl Hin.
    exact (InitializeTable_raced cfg fuel Type_ stale options w names c1 Hstale Hl Hin).
  - intros existingTables. apply InitializeTable_calls.
  - intros Hnone Httl Hfuel first second.
    destruct (Service_InitializeTable_creates cfg fuel Type_ options s Hnone Httl Hfuel)
      as (w1 & Hfirst & Hthere & Hcount).
    destruct (Service_InitializeTable_exists cfg fuel Type_ options w1 Hthere)
      as (w2 & Hsecond & _ & Hcalls).
    subst first second. rewrite Hfirst. cbn [fst snd]. rewrite Hsecond. cbn [fst snd].
    split; [reflexivity|]. split; [reflexivity|].
    rewrite Hcalls, count_app, Hcount. cbn. lia.
Qed.

Lemma InitializeTable_creates_once_witness :
  fst (InitializeTable Sample.cfg 3 Sample.Thing None None
         (snd (InitializeTable Sample.cfg 3 Sample.Thing None None
                 (Service.world Sample.empty_service)))) = Ret tt /\
  count is_CreateTable
    (calls (snd (InitializeTable Sample.cfg 3 Sample.Thing None None
                   (snd (InitializeTable Sample.cfg 3 Sample.Thing None None
                           (Service.world Sample.empty_service)))))) = 1 /\
  calls (snd (InitializeTable Sample.cfg 3 Sample.Thing None None
                (Service.world Sample.service_AB)))
  = [] ++ [ListTablesCommand].
Proof.
  split; [|split].
  - refine (proj1 (proj2 (proj2 (proj2 (proj2
             (InitializeTable_creates_once Sample.cfg 3 Sample.Thing None
                (Service.world Sample.empty_service) (Service.world Sample.empty_service))))
             _ _ _))).
    + reflexivity.
    + discriminate.
    + cbn. lia.
  - refine (proj2 (proj2 (proj2 (proj2 (proj2
             (InitializeTable_creates_once Sample.cfg 3 Sample.Thing None
                (Service.world Sample.empty_service) (Service.world Sample.empty_service))))
             _ _ _))).
    + reflexivity.
    + discriminate.
    + cbn. lia.
  - refine (proj2 (proj1
             (InitializeTable_creates_once Sample.cfg 3 Sample.Thing None
                (Service.world Sample.service_AB) (Service.world Sample.empty_service))
             (Some ["local.Things"]) Sample.service_AB _ _)).
    + reflexivity.
    + reflexivity.
Defined.

(** ** Index reconciliation *)

Section Reconcile.

Context {C : Type} {SC : StorageClient C}.
Variable cfg : Config.

Lemma accepts_app (c c' : C) (l1 l2 : list UpdateTableInput) :
  accepts c (l1 ++ l2) c' ->
  exists cm, accepts c l1 cm /\ accepts cm l2 c'.
Proof.
  revert c. induction l1 as [|r l1 IH]; intros c Ha.
  - exists c. split; [constructor | exact Ha].
  - cbn [app] in Ha. inversion Ha; subst.
    match goal with
    | Hrest : accepts _ (l1 ++ l2) _ |- _ =>
        destruct (IH _ Hrest) as (cm & Hleft & Hright)
    end.
    exists cm. split; [econstructor; eassumption | exact Hright].
Qed.

(** A loop that sends one update-table request for each element that meets
    [cond], over a client that accepts them. *)
Lemma for_each_updates (cond : GlobalSecondaryIndex -> bool)
    (request : GlobalSecondaryIndex -> UpdateTableInput)
    (msg : GlobalSecondaryIndex -> string) (l : list GlobalSecondaryIndex) :
  forall (c c' : C) (w : World C),
    accepts c (map request (List.filter cond l)) c' ->
    client w = c ->
    for_each l
      (fun gsi =>
         if cond gsi then
           updated <- send (UpdateTableCommand (request gsi)) (updateTable (request gsi)) ;;
           log LDebug (msg gsi) None
         else ret tt) w
    = (Ret tt,
       {| client := c';
          calls := calls w ++ map UpdateTableCommand (map request (List.filter cond l));
          logs := logs w
                  ++ map (fun gsi => {| level := LDebug; message := msg gsi;
                                        logged_error := None |}) (List.filter cond l);
          now := now w |}).
Proof.
  induction l as [|gsi l IH]; intros c c' w Ha Hc.
  - cbn in Ha. inversion Ha; subst. cbn. rewrite !app_nil_r. destruct w; reflexivity.
  - cbn [for_each List.filter] in *.
    match goal with |- context [for_each l ?b] => set (body := b) in * end.
    unfold bind. unfold body at 1. cbv beta.
    destruct (cond gsi) eqn:Hcond.
    + cbn [map] in Ha. inversion Ha; subst.
      unfold bind, send, log.
      match goal with
      | Hu : updateTable _ _ = _ |- _ => rewrite Hu
      end.
      cbn [fst snd client calls logs now].
      erewrite IH; [|eassumption|reflexivity].
      cbn [client calls logs now map]. rewrite <- !app_assoc. reflexivity.
    + unfold ret. exact (IH c c' w Ha Hc).
Qed.

Lemma DescribeTable_found (tableName : string) (w : World C) (table : TableDescription)
    (c1 : C) :
  describeTable (Some tableName) (client w) = (inl (Some table), c1) ->
  td_TableName table = Some tableName ->
  DescribeTable tableName w
  = (Ret (Some table), sent (DescribeTableCommand (Some tableName)) c1 w).
Proof.
  intros Hd Hname. unfold DescribeTable. mrun. rewrite Hd. cbn [fst snd].
  rewrite bool_decide_eq_true_2 by exact Hname. reflexivity.
Qed.

(** [UpdateTable] over a client that describes the table and accepts the
    requests of the reconciliation: those requests are sent, one by one and
    in order, and the result is a fresh [DescribeTable]. *)
Lemma UpdateTable_run (item : ItemType) (w : World C) (table : TableDescription)
    (c1 c2 : C) :
  let TableName := GenerateTableName cfg (BaseTableName item) in
  describeTable (Some TableName) (client w) = (inl (Some table), c1) ->
  td_TableName table = Some TableName ->
  accepts c1 (reconciliation TableName item table) c2 ->
  UpdateTable cfg item w
  = DescribeTable TableName
      {| client := c2;
         calls := calls w ++ DescribeTableCommand (Some TableName)
                    :: map UpdateTableCommand (reconciliation TableName item table);
         logs := logs w ++ reconciliation_log TableName item table;
         now := now w |}.
Proof.
  intros TableName Hd Hname Ha.
  destruct (accepts_app _ _ _ _ Ha) as (cm & Hdel & Hcre).
  unfold UpdateTable. fold TableName.
  unfold bind at 1. rewrite (DescribeTable_found TableName w table c1 Hd Hname).
  unfold bind at 1.
  erewrite (for_each_updates
              (fun gsi => negb (find_index (GlobalSecondaryIndexes item) (IndexName gsi)))
              (delete_request TableName)
              (fun gsi => ("Deleted GSI: " ++ TableName ++ "/" ++ show_opt (IndexName gsi))%string));
    [|exact Hdel|reflexivity].
  unfold bind at 1.
  erewrite (for_each_updates
              (fun gsi => negb (find_index (td_GlobalSecondaryIndexes table) (IndexName gsi)))
              (create_request TableName (AttributeDefinitions item))
              (fun gsi => ("Created GSI: " ++ TableName ++ "/" ++ show_opt (IndexName gsi))%string));
    [|exact Hcre|reflexivity].
  unfold sent. cbn [client calls logs now].
  unfold reconciliation, reconciliation_log, undeclared, not_live.
  rewrite !map_app, <- !app_assoc. cbn [app]. reflexivity.
Qed.

End Reconcile.

Lemma find_index_names (l l' : option (list GlobalSecondaryIndex)) (name : option string) :
  map IndexName (default [] l) = map IndexName (default [] l') ->
  find_index l name = find_index l' name.
Proof.
  assert (Hex : forall l0 : list GlobalSecondaryIndex,
             existsb (fun c => bool_decide (IndexName c = name)) l0
             = existsb (fun n => bool_decide (n = name)) (map IndexName l0)).
  { induction l0 as [|g l0 IH]; cbn; [reflexivity | rewrite IH; reflexivity]. }
  unfold find_index. intros Hnames.
  destruct l as [l|], l' as [l'|]; cbn [from_option id] in Hnames; rewrite ?Hex.
  - rewrite Hnames. reflexivity.
  - rewrite Hnames. reflexivity.
  - rewrite <- Hnames. reflexivity.
  - reflexivity.
Qed.

(** C7.  [UpdateTable], once the table is described and over a client that
    accepts the requests, sends exactly the requests of [reconciliation], one
    update-table command each and in this order: a delete request for each
    live index whose name is not declared, then a create request with the
    attribute definitions of the item for each declared index whose name is
    not live; it returns what a fresh [DescribeTable] returns afterwards.
    Every request mutates one index, and which requests are sent depends on
    the index names only.  On the service holding [A] and [B], for a type
    declaring [B] and [C]: one delete for [A], one create for [C], and the
    described table has the indexes [B] and [C]. *)
Theorem UpdateTable_reconciles :
  (forall (C : Type) (SC : StorageClient C) (cfg : Config) (item : ItemType) (w : World C)
          (table : TableDescription) (c1 c2 : C),
      let TableName := GenerateTableName cfg (BaseTableName item) in
      describeTable (Some TableName) (client w) = (inl (Some table), c1) ->
      td_TableName table = Some TableName ->
      accepts c1 (reconciliation TableName item table) c2 ->
      UpdateTable cfg item w
      = DescribeTable TableName
          {| client := c2;
             calls := calls w ++ DescribeTableCommand (Some TableName)
                        :: map UpdateTableCommand (reconciliation TableName item table);
             logs := logs w ++ reconciliation_log TableName item table;
             now := now w |}) /\
  (forall (TableName : string) (item : ItemType) (table : TableDescription),
      Forall (fun r => length (uti_GlobalSecondaryIndexUpdates r) = 1)
             (reconciliation TableName item table)) /\
  (forall (TableName : string) (item item' : ItemType) (table table' : TableDescription),
      map IndexName (default [] (GlobalSecondaryIndexes item))
      = map IndexName (default [] (GlobalSecondaryIndexes item')) ->
      map IndexName (default [] (td_GlobalSecondaryIndexes table))
      = map IndexName (default [] (td_GlobalSecondaryIndexes table')) ->
      undeclared item table = undeclared item' table /\
      not_live item table = not_live item table') /\
  (let r := UpdateTable Sample.cfg Sample.Thing (Service.world Sample.service_AB) in
   calls (snd r)
   = [ DescribeTableCommand (Some "local.Things");
       UpdateTableCommand (delete_request "local.Things" (Sample.gsi "A"));
       UpdateTableCommand (create_request "local.Things" (AttributeDefinitions Sample.Thing)
                             (Sample.gsi "C"));
       DescribeTableCommand (Some "local.Things") ] /\
   exists td, fst r = Ret (Some td) /\
              map IndexName (default [] (td_GlobalSecondaryIndexes td))
              = [Some "B"; Some "C"]).
Proof.
  split; [|split; [|split]].
  - intros C SC cfg item w table c1 c2 TableName Hd Hname Ha.
    exact (UpdateTable_run cfg item w table c1 c2 Hd Hname Ha).
  - intros TableName item table. unfold reconciliation.
    apply Forall_app. split; apply Forall_map, Forall_forall; intros; reflexivity.
  - intros TableName item item' table table' Hdeclared Hlive. split.
    + unfold undeclared. apply filter_ext. intros gsi.
      rewrite (find_index_names _ _ (IndexName gsi) Hdeclared). reflexivity.
    + unfold not_live. apply filter_ext. intros gsi.
      rewrite (find_index_names _ _ (IndexName gsi) Hlive). reflexivity.
  - cbv zeta. split.
    + vm_compute. reflexivity.
    + eexists. split; vm_compute; reflexivity.
Qed.

Lemma UpdateTable_reconciles_witness :
  UpdateTable Sample.cfg Sample.Thing (Service.world Sample.service_AB)
  = DescribeTable "local.Things"
      {| client :=
           snd (updateTable
                  (create_request "local.Things" (AttributeDefinitions Sample.Thing)
                     (Sample.gsi "C"))
                  (snd (updateTable (delete_request "local.Things" (Sample.gsi "A"))
                          Sample.service_AB)));
         calls := [] ++ DescribeTableCommand (Some "local.Things")
                    :: map UpdateTableCommand
                         [ delete_request "local.Things" (Sample.gsi "A");
                           create_request "local.Things" (AttributeDefinitions Sample.Thing)
                             (Sample.gsi "C") ];
         logs := [] ++ [ entry LDebug "Deleted GSI: local.Things/A" None;
                         entry LDebug "Created GSI: local.Things/C" None ];
         now := 0 |}.
Proof.
  refine (proj1 UpdateTable_reconciles Service.State Service.service_client Sample.cfg
            Sample.Thing (Service.world Sample.service_AB)
            (Service.describe "local.Things"
               {| Service.polls_left := 0;
                  Service.key_schema := KeySchema Sample.Thing;
                  Service.indexes := [Sample.gsi "A"; Sample.gsi "B"];
                  Service.ttl_attribute := None;
                  Service.rows := [] |})
            Sample.service_AB _ _ _ _).
  - vm_compute. reflexivity.
  - reflexivity.
  - eapply accepts_cons; [vm_compute; reflexivity|].
    eapply accepts_cons; [vm_compute; reflexivity|].
    apply accepts_nil.
Defined.

(** * Further properties of the code *)

(** ** Item types *)

Lemma lookup_insert_num_ne (k k' : string) (o : option JsNum) (m : AttrMap) :
  k <> k' -> insert_num k o m !! k' = m !! k'.
Proof.
  intros Hne. destruct o as [n|]; cbn [insert_num]; [|reflexivity].
  apply lookup_insert_ne. exact Hne.
Qed.

Lemma lookup_insert_num_eq (k : string) (n : JsNum) (m : AttrMap) :
  insert_num k (Some n) m !! k = Some (VNum n).
Proof. cbn [insert_num]. apply lookup_insert_eq. Qed.

Lemma insert_num_id (k : string) (o : option JsNum) (m : AttrMap) :
  (forall n, o = Some n -> m !! k = Some (VNum n)) -> insert_num k o m = m.
Proof.
  intros H. destruct o as [n|]; cbn [insert_num]; [|reflexivity].
  apply insert_id. apply H. reflexivity.
Qed.

Lemma marshall_item_createdAt (it : Item) :
  marshall_item it !! "createdAt" = Some (VNum (createdAt it)).
Proof.
  unfold marshall_item.
  rewrite !lookup_insert_num_ne by discriminate.
  rewrite lookup_insert_ne by discriminate.
  apply lookup_insert_eq.
Qed.

Lemma marshall_item_updatedAt (it : Item) :
  marshall_item it !! "updatedAt" = Some (VNum (updatedAt it)).
Proof.
  unfold marshall_item.
  rewrite !lookup_insert_num_ne by discriminate.
  apply lookup_insert_eq.
Qed.

Lemma marshall_item_expiresAt (it : Item) (n : JsNum) :
  expiresAt it = Some n -> marshall_item it !! "expiresAt" = Some (VNum n).
Proof. intros He. unfold marshall_item. rewrite He. apply lookup_insert_num_eq. Qed.

(** A property of the instance is a key of its marshalled form. *)
Lemma marshall_item_props (it : Item) (k : string) :
  is_Some (props it !! k) -> is_Some (marshall_item it !! k).
Proof.
  intros Hk. unfold marshall_item.
  assert (Hnum : forall (k0 : string) (o : option JsNum) (m : AttrMap),
             is_Some (m !! k) -> is_Some (insert_num k0 o m !! k)).
  { intros k0 o m Hm. destruct o as [n|]; cbn [insert_num]; [|exact Hm].
    destruct (decide (k0 = k)) as [->|Hne].
    - rewrite lookup_insert_eq. eauto.
    - rewrite lookup_insert_ne by exact Hne. exact Hm. }
  assert (Hins : forall (k0 : string) (v : JsVal) (m : AttrMap),
             is_Some (m !! k) -> is_Some (<[k0 := v]> m !! k)).
  { intros k0 v m Hm. destruct (decide (k0 = k)) as [->|Hne].
    - rewrite lookup_insert_eq. eauto.
    - rewrite lookup_insert_ne by exact Hne. exact Hm. }
  auto.
Qed.

(** A marshalled item assigned to a fresh instance of its class: the
    fields of the instance. *)
Lemma Assign_marshall_fields (it : Item) (ms : Z) :
  (Versioned (item_type it) = true -> version it <> None) ->
  let it' := Assign (marshall_item it) (new_Item (item_type it) ms) in
  createdAt it' = createdAt it /\
  updatedAt it' = updatedAt it /\
  (Versioned (item_type it) = true -> Version it' = Version it) /\
  (forall n, expiresAt it = Some n -> expiresAt it' = Some n).
Proof.
  intros Hversioned it'. unfold it', Assign, new_Item, Version.
  cbn [createdAt updatedAt version expiresAt item_type].
  rewrite marshall_item_createdAt, marshall_item_updatedAt.
  split; [reflexivity|]. split; [reflexivity|]. split.
  - intros HV. rewrite HV.
    destruct (version it) as [v|] eqn:Hvit; [|exfalso; apply Hversioned; [exact HV|reflexivity]].
    rewrite (marshall_item_version it v Hvit). reflexivity.
  - intros n Hn. rewrite (marshall_item_expiresAt it n Hn). reflexivity.
Qed.

(** A marshalled item assigned to a fresh instance of its class: what the
    instance marshals to. *)
Lemma Assign_marshall_map (it : Item) (ms : Z) :
  (Versioned (item_type it) = true -> version it <> None) ->
  (Expiring (item_type it) = true -> expiresAt it <> None) ->
  marshall_item (Assign (marshall_item it) (new_Item (item_type it) ms))
  = marshall_item it ∪ DefaultProps (item_type it).
Proof.
  intros Hversioned Hexpiring.
  set (it' := Assign (marshall_item it) (new_Item (item_type it) ms)).
  destruct (Assign_marshall_fields it ms Hversioned) as (Hc & Hu & _ & _).
  fold it' in Hc, Hu.
  assert (Hv : forall n, version it' = Some n ->
                 (marshall_item it ∪ DefaultProps (item_type it)) !! "version" = Some (VNum n)).
  { intros n. unfold it', Assign, new_Item. cbn [version item_type].
    destruct (Versioned (item_type it)) eqn:HV; [|discriminate].
    destruct (version it) as [v|] eqn:Hvit; [|exfalso; apply Hversioned; reflexivity].
    rewrite (marshall_item_version it v Hvit). cbn [num_field].
    intros [= <-]. apply lookup_union_Some_l. apply marshall_item_version. exact Hvit. }
  assert (He : forall n, expiresAt it' = Some n ->
                 (marshall_item it ∪ DefaultProps (item_type it)) !! "expiresAt"
                 = Some (VNum n)).
  { intros n. unfold it', Assign, new_Item. cbn [expiresAt item_type].
    destruct (marshall_item it !! "expiresAt") as [[s|m|b]|] eqn:Hm;
      cbn [num_field]; try discriminate.
    - intros [= <-]. apply lookup_union_Some_l. exact Hm.
    - destruct (Expiring (item_type it)) eqn:HE; [|discriminate].
      destruct (expiresAt it) as [x|] eqn:Hx; [|exfalso; apply Hexpiring; reflexivity].
      rewrite (marshall_item_expiresAt it x Hx) in Hm. discriminate. }
  unfold marshall_item at 1.
  replace (props it') with (marshall_item it ∪ DefaultProps (item_type it)) by reflexivity.
  rewrite Hc, Hu.
  rewrite (insert_id _ "createdAt")
    by (apply lookup_union_Some_l, marshall_item_createdAt).
  rewrite (insert_id _ "updatedAt")
    by (apply lookup_union_Some_l, marshall_item_updatedAt).
  rewrite (insert_num_id "version") by exact Hv.
  rewrite (insert_num_id "expiresAt") by exact He.
  reflexivity.
Qed.

(** X1.  Reading back what was written.  An item that has the version of
    its class, when the class is versioned, and the expiry of its class, when
    the class is expiring, is marshalled and the attribute map is assigned to
    a fresh instance of its class, as [PutItem] and [GetItem] do: the instance
    has the timestamps, the version and the expiry of the item, whatever the
    clock at which it was built, and it marshals to the same attribute map,
    completed with the default properties of the class where the item lacked
    them; when the item has all of them, the attribute map is the same. *)
Theorem marshall_Assign_round_trip (it : Item) (ms : Z) :
  (Versioned (item_type it) = true -> version it <> None) ->
  (Expiring (item_type it) = true -> expiresAt it <> None) ->
  let it' := Assign (marshall_item it) (new_Item (item_type it) ms) in
  createdAt it' = createdAt it /\
  updatedAt it' = updatedAt it /\
  (Versioned (item_type it) = true -> Version it' = Version it) /\
  (forall n, expiresAt it = Some n -> expiresAt it' = Some n) /\
  marshall_item it' = marshall_item it ∪ DefaultProps (item_type it) /\
  ((forall k, is_Some (DefaultProps (item_type it) !! k) -> is_Some (props it !! k)) ->
   marshall_item it' = marshall_item it).
Proof.
  intros Hversioned Hexpiring it'.
  destruct (Assign_marshall_fields it ms Hversioned) as (Hc & Hu & Hv & He).
  pose proof (Assign_marshall_map it ms Hversioned Hexpiring) as Hround.
  fold it' in Hc, Hu, Hv, He, Hround.
  split; [exact Hc|]. split; [exact Hu|]. split; [exact Hv|]. split; [exact He|].
  split; [exact Hround|].
  intros Hdefaults. rewrite Hround. apply map_eq. intros k.
  rewrite lookup_union.
  destruct (marshall_item it !! k) as [x|] eqn:Hm.
  - destruct (DefaultProps (item_type it) !! k); reflexivity.
  - destruct (DefaultProps (item_type it) !! k) as [d|] eqn:Hd; [|reflexivity].
    exfalso. assert (Hs : is_Some (marshall_item it !! k)).
    { apply marshall_item_props, Hdefaults. rewrite Hd. eauto. }
    rewrite Hm in Hs. destruct Hs as [y Hy]. discriminate.
Qed.

Lemma marshall_Assign_round_trip_witness :
  marshall_item (Assign (marshall_item (Sample.thing_at "a1" 3)) (new_Item Sample.Thing 99000))
  = marshall_item (Sample.thing_at "a1" 3).
Proof.
  refine (proj2 (proj2 (proj2 (proj2 (proj2
            (marshall_Assign_round_trip (Sample.thing_at "a1" 3) 99000 _ _))))) _).
  - discriminate.
  - discriminate.
  - intros k. cbn [Sample.thing_at set_version item_type props Sample.thing Assign new_Item
                    Sample.Thing DefaultProps].
    intros [d Hd]. destruct (decide (k = "id")) as [->|Hne].
    + rewrite lookup_union_l' by (rewrite lookup_singleton_eq; eauto).
      rewrite lookup_singleton_eq. eauto.
    + rewrite lookup_singleton_ne in Hd by congruence. discriminate.
Defined.

(** ** Versions *)

Lemma IncrementVersion_Int (ms : Z) (it : Item) (v : Z) :
  Version it = Some (Int v) -> (-1 <= v)%Z ->
  IncrementVersion ms it = inl (MarkUpdated ms (set_version (Int (v + 1)) it)).
Proof.
  intros Hv Hle. apply (IncrementVersion_ok ms it (Int v) Hv).
  unfold incrementable, Num_ltb, Num_compare. cbn [Num_succ].
  destruct (Z.compare_spec (v + 1) 0); try reflexivity. lia.
Qed.

Lemma call_version_keeps (it : Item) (c : Z * VersionCall) (v : Z) :
  Version it = Some (Int v) -> (-1 <= v)%Z ->
  exists v' : Z, Version (call_version it c) = Some (Int v') /\ (-1 <= v')%Z.
Proof.
  intros Hv Hle. destruct c as [ms [|value]]; unfold call_version; cbn [fst snd].
  - rewrite (IncrementVersion_Int ms it v Hv Hle). exists (v + 1)%Z.
    split; [reflexivity | lia].
  - unfold Version_set. unfold Version in Hv. rewrite Hv.
    unfold Num_eqb, Num_ltb, Num_compare, INITIAL_VERSION_NUMBER.
    destruct (Z.compare_spec v 0); destruct (Z.compare_spec value (-1));
      destruct (Z.compare_spec value 0); cbn [andb];
      try (exists v; split; [exact Hv | exact Hle]);
      try (exists value; split; [reflexivity | lia]).
Qed.

Lemma increments_count (clocks : list Z) (it : Item) (v : Z) :
  Version it = Some (Int v) -> (-1 <= v)%Z ->
  Version (fold_left call_version (map (fun ms => (ms, CallIncrementVersion)) clocks) it)
  = Some (Int (v + Z.of_nat (length clocks))).
Proof.
  revert it v. induction clocks as [|ms clocks IH]; intros it v Hv Hle.
  - cbn. rewrite Hv. do 2 f_equal. lia.
  - cbn [map fold_left length]. unfold call_version at 2. cbn [fst snd].
    rewrite (IncrementVersion_Int ms it v Hv Hle).
    rewrite (IH _ (v + 1)%Z) by (reflexivity || lia). do 2 f_equal. lia.
Qed.

(** X2.  The version of an instance of a versioned class, created with
    [new] and then changed through [IncrementVersion()] and [Version(value)]
    with integers only, in any number and order and whether the calls throw
    or not, is an integer and never below the sentinel [-1]; after [n] calls
    of [IncrementVersion()] and no other it is [n - 1]. *)
Theorem version_never_below_sentinel (T : ItemType) (ms : Z) :
  Versioned T = true ->
  (forall l : list (Z * VersionCall),
      exists v : Z,
        Version (fold_left call_version l (new_Item T ms)) = Some (Int v) /\ (-1 <= v)%Z) /\
  (forall clocks : list Z,
      Version (fold_left call_version (map (fun ms => (ms, CallIncrementVersion)) clocks)
                 (new_Item T ms))
      = Some (Int (Z.of_nat (length clocks) - 1))).
Proof.
  intros HT.
  assert (Hnew : Version (new_Item T ms) = Some (Int (-1))).
  { unfold Version, new_Item. cbn [version]. rewrite HT. reflexivity. }
  split.
  - intros l.
    assert (Hinv : forall (l : list (Z * VersionCall)) (it : Item) (v : Z),
               Version it = Some (Int v) -> (-1 <= v)%Z ->
               exists v' : Z,
                 Version (fold_left call_version l it) = Some (Int v') /\ (-1 <= v')%Z).
    { clear l. induction l as [|c l IH]; intros it v Hv Hle.
      - exists v. auto.
      - cbn [fold_left]. destruct (call_version_keeps it c v Hv Hle) as (v1 & Hv1 & Hle1).
        exact (IH _ v1 Hv1 Hle1). }
    apply (Hinv l (new_Item T ms) (-1)%Z Hnew). lia.
  - intros clocks. rewrite (increments_count clocks _ (-1)%Z Hnew) by lia.
    do 2 f_equal. lia.
Qed.

Lemma version_never_below_sentinel_witness :
  (exists v : Z,
      Version (fold_left call_version
                 [(1000, CallIncrementVersion); (2000, CallVersion (-1));
                  (3000, CallVersion (-7)); (4000, CallIncrementVersion)]%Z
                 (new_Item Sample.Thing 0)) = Some (Int v) /\ (-1 <= v)%Z) /\
  Version (fold_left call_version
             (map (fun ms => (ms, CallIncrementVersion)) [1000; 2000; 3000]%Z)
             (new_Item Sample.Thing 0)) = Some (Int 2).
Proof.
  split.
  - refine (proj1 (version_never_below_sentinel Sample.Thing 0 _) _). reflexivity.
  - refine (proj2 (version_never_below_sentinel Sample.Thing 0 _) [1000; 2000; 3000]%Z).
    reflexivity.
Defined.

(** ** Table names and schemas *)

Lemma append_cancel_l (p a b : string) : (p ++ a = p ++ b)%string -> a = b.
Proof.
  induction p as [|ch p IH]; cbn [String.append]; intros H.
  - exact H.
  - injection H as H. exact (IH H).
Qed.

(** X3.  Two different base table names never lead to the same table name,
    with a prefix or without. *)
Theorem GenerateTableName_distinct (cfg : Config) (a b : string) :
  a <> b -> GenerateTableName cfg a <> GenerateTableName cfg b.
Proof.
  intros Hne Heq. apply Hne. unfold GenerateTableName in Heq.
  destruct (truthy_str (TablePrefix cfg)).
  - apply append_cancel_l in Heq. apply (append_cancel_l "." a b). exact Heq.
  - exact Heq.
Qed.

Lemma GenerateTableName_distinct_witness :
  GenerateTableName Sample.cfg "Things" <> GenerateTableName Sample.cfg "Events".
Proof. apply (GenerateTableName_distinct Sample.cfg "Things" "Events"). discriminate. Defined.

(** X4.  For a class that keeps the default [AttributeDefinitions] and
    [KeySchema], the create-table request of [CreateSchema] names the
    generated table, declares the id field as the [HASH] key, then the range
    field, when the class has one, as the [RANGE] key, and defines exactly the
    key attributes, in the same order and as strings. *)
Theorem CreateSchema_default_keys (cfg : Config) (T : ItemType)
    (options : option ICreateSchemaOptions) :
  AttributeDefinitions T = DynamoDbItem_AttributeDefinitions (IdFieldName T) (RangeFieldName T) ->
  KeySchema T = DynamoDbItem_KeySchema (IdFieldName T) (RangeFieldName T) ->
  let input := CreateSchema cfg T options in
  cti_TableName input = GenerateTableName cfg (BaseTableName T) /\
  map AttributeName (cti_AttributeDefinitions input)
  = map ks_AttributeName (cti_KeySchema input) /\
  Forall (fun d => AttributeType d = "S") (cti_AttributeDefinitions input) /\
  map (fun k => (ks_AttributeName k, KeyType k)) (cti_KeySchema input)
  = (IdFieldName T, "HASH")
      :: (if truthy_str (RangeFieldName T)
          then [(show_opt (RangeFieldName T), "RANGE")] else []).
Proof.
  intros Hdefs Hkeys input. unfold input, CreateSchema.
  cbn [cti_TableName cti_AttributeDefinitions cti_KeySchema].
  rewrite Hdefs, Hkeys.
  unfold DynamoDbItem_AttributeDefinitions, DynamoDbItem_KeySchema.
  destruct (truthy_str (RangeFieldName T)); cbn [map];
    (split; [reflexivity|]; split; [reflexivity|]; split; [|reflexivity]);
    repeat constructor.
Qed.

Lemma CreateSchema_default_keys_witness :
  map (fun k => (ks_AttributeName k, KeyType k))
      (cti_KeySchema (CreateSchema Sample.cfg Sample2.Event None))
  = [("id", "HASH"); ("at", "RANGE")].
Proof.
  refine (proj2 (proj2 (proj2
            (CreateSchema_default_keys Sample.cfg Sample2.Event None _ _))));
    reflexivity.
Defined.

(** ** Construction *)

Lemma DEFAULT_TABLE_PREFIX_not_empty (TABLE_PREFIX ENVIRONMENT_NAME : option string) :
  String.length (DEFAULT_TABLE_PREFIX TABLE_PREFIX ENVIRONMENT_NAME) <> 0.
Proof.
  unfold DEFAULT_TABLE_PREFIX.
  destruct TABLE_PREFIX as [[|a s]|]; cbn; try discriminate;
    destruct ENVIRONMENT_NAME as [[|b t]|]; cbn; discriminate.
Qed.

(** X5.  The constructor fails exactly when it is given the empty string
    as the prefix, with an [ArgumentError].  Otherwise the wrapper has a
    prefix that is not empty, the one given or else the default of the
    environment, which falls back to ['local'], and every table name it
    generates is that prefix, a dot and the base name.  A settle delay or a
    debug switch given in the options is kept as given, a delay of [0]
    included; without them the delay is 5000 ms and debugging is off. *)
Theorem new_DynamoDbClientWrapper_prefix
    (TABLE_PREFIX ENVIRONMENT_NAME tablePrefix : option string)
    (options : option WrapperOptions) :
  let prefix := default (DEFAULT_TABLE_PREFIX TABLE_PREFIX ENVIRONMENT_NAME) tablePrefix in
  match new_DynamoDbClientWrapper (DEFAULT_TABLE_PREFIX TABLE_PREFIX ENVIRONMENT_NAME)
          tablePrefix options with
  | inl cfg =>
      tablePrefix <> Some "" /\
      String.length prefix <> 0 /\
      (forall base, GenerateTableName cfg base = (prefix ++ "." ++ base)%string) /\
      _delayAfterCreateTable cfg
      = default 5000%Z (options ≫= DelayAfterCreateTable) /\
      _debugMode cfg = default false (options ≫= DebugMode)
  | inr e =>
      tablePrefix = Some "" /\ e = ArgumentError "prefix cannot be an empty string"
  end.
Proof.
  intros prefix. unfold new_DynamoDbClientWrapper, set_TablePrefix. fold prefix.
  assert (Hprefix : tablePrefix <> Some "" -> String.length prefix <> 0).
  { intros Hne. unfold prefix. destruct tablePrefix as [[|a s]|]; cbn [from_option id].
    - congruence.
    - discriminate.
    - apply DEFAULT_TABLE_PREFIX_not_empty. }
  destruct (Nat.eqb_spec (String.length prefix) 0) as [Hzero|Hpos].
  - split; [|reflexivity].
    destruct (decide (tablePrefix = Some "")) as [Hempty|Hne]; [exact Hempty|].
    exfalso. exact (Hprefix Hne Hzero).
  - assert (Hne : tablePrefix <> Some "").
    { intros ->. apply Hpos. reflexivity. }
    split; [exact Hne|]. split; [exact Hpos|].
    split; [|split; reflexivity].
    intros base. unfold GenerateTableName. cbn [TablePrefix truthy_str show_opt].
    destruct (Nat.eqb_spec (String.length prefix) 0) as [Hz|_]; [contradiction|].
    reflexivity.
Qed.

(** ** Describing and creating tables *)

Section Tables.

Context {C : Type} {SC : StorageClient C}.
Variable cfg : Config.

Lemma DescribeTable_run (tableName : string) (w : World C) :
  DescribeTable tableName w =
  let w1 := sent (DescribeTableCommand (Some tableName))
              (snd (describeTable (Some tableName) (client w))) w in
  match fst (describeTable (Some tableName) (client w)) with
  | inl (Some td) =>
      (Ret (if bool_decide (td_TableName td = Some tableName) then Some td else None), w1)
  | inl None => (Ret None, w1)
  | inr e =>
      if is_ResourceNotFound e then (Ret None, w1)
      else (Throw e, logged [entry LError "" (Some e)] w1)
  end.
Proof.
  unfold DescribeTable, sent, logged, entry. mrun.
  destruct (describeTable (Some tableName) (client w)) as [[[td|]|e] c1]; cbn [fst snd].
  - destruct (bool_decide (td_TableName td = Some tableName)); reflexivity.
  - reflexivity.
  - destruct (is_ResourceNotFound e); reflexivity.
Qed.

(** The wait loop over a table that becomes active. *)
Lemma waitForActive_loop_becomes_active (c : C) (td : TableDescription)
    (polls : list Command) (c' : C) (td' : TableDescription) :
  becomes_active c td polls c' td' ->
  forall (fuel : nat) (w : World C),
    client w = c -> length polls <= fuel ->
    exists w' : World C,
      waitForActive_loop fuel true td w = (Ret td', w') /\
      client w' = c' /\
      calls w' = calls w ++ polls /\
      now w' = (now w + 500 * Z.of_nat (length polls))%Z.
Proof.
  induction 1 as [c td Ha | c td c1 td1 polls c' td' Hna Hd Hrest IH];
    intros fuel w Hc Hfuel.
  - exists w. rewrite waitForActive_loop_active by exact Ha.
    split; [reflexivity|]. split; [exact Hc|].
    split; [symmetry; apply app_nil_r | cbn; lia].
  - destruct fuel as [|fuel]; [cbn in Hfuel; lia|].
    rewrite waitForActive_loop_step by exact Hna. cbn zeta.
    rewrite Hc, Hd. cbn [fst snd client calls logs now].
    match goal with
    | |- context [waitForActive_loop fuel true td1 ?w1] =>
        destruct (IH fuel w1 eq_refl) as (w' & Hrun & Hc' & Hcalls & Hnow)
    end.
    { cbn in Hfuel. lia. }
    exists w'. split; [exact Hrun|]. split; [exact Hc'|].
    cbn [calls now] in Hcalls, Hnow.
    split.
    + rewrite Hcalls, <- app_assoc. reflexivity.
    + rewrite Hnow. cbn [length]. lia.
Qed.

(** The wait loop over a table that stays inactive for as many polls as
    there is fuel. *)
Lemma waitForActive_loop_stays_inactive (c : C) (td : TableDescription) (n : nat) :
  stays_inactive c td n ->
  forall w : World C,
    client w = c ->
    exists w' : World C,
      waitForActive_loop n true td w = (Pending, w') /\
      length (calls w') = length (calls w) + n /\
      now w' = (now w + 500 * Z.of_nat n)%Z.
Proof.
  induction 1 as [c td Hna | c td c1 td1 n Hna Hd Hrest IH]; intros w Hc.
  - exists w. cbn [waitForActive_loop].
    rewrite bool_decide_eq_false_2 by exact Hna. cbn [andb negb]. unfold pending.
    split; [reflexivity|]. split; lia.
  - rewrite waitForActive_loop_step by exact Hna. cbn zeta.
    rewrite Hc, Hd. cbn [fst snd client calls logs now].
    match goal with
    | |- context [waitForActive_loop n true td1 ?w1] =>
        destruct (IH w1 eq_refl) as (w' & Hrun & Hcalls & Hnow)
    end.
    exists w'. split; [exact Hrun|].
    cbn [calls now] in Hcalls, Hnow. rewrite length_app in Hcalls. cbn [length] in Hcalls.
    split; lia.
Qed.

(** [CreateTable] from the end of the wait loop on: the pause, then the
    time-to-live request when an attribute name was given. *)
Lemma CreateTable_after_wait (fuel : nat) (input : CreateTableInput) (waitForActive : bool)
    (ttlAttributeName : option string) (w : World C) (td0 : TableDescription) (c1 : C)
    (td : TableDescription) (w2 : World C) :
  ttlAttributeName <> Some "" ->
  createTable input (client w) = (inl (Some td0), c1) ->
  waitForActive_loop fuel waitForActive td0
    (logged [entry LDebug "Table Created" None] (sent (CreateTableCommand input) c1 w))
  = (Ret td, w2) ->
  exists w3 : World C,
    client w3 = client w2 /\ calls w3 = calls w2 /\
    now w3 = (now w2 + _delayAfterCreateTable cfg)%Z /\
    CreateTable cfg fuel input waitForActive ttlAttributeName w =
    match ttlAttributeName with
    | None => (Ret (Some td), w3)
    | Some attribute =>
        let request := ttl_request td attribute in
        let failed := Error ("Unable to enable TTL on '" ++ show_opt (td_TableName td)
                               ++ "' using attribute '" ++ attribute ++ "'") in
        let w4 := sent (UpdateTimeToLiveCommand request)
                    (snd (updateTimeToLive request (client w2))) w3 in
        match fst (updateTimeToLive request (client w2)) with
        | inl (Some true) => (Ret (Some td), w4)
        | inl _ => (Throw failed, logged [entry LError "CreateTable:EnableTTL" (Some failed)] w4)
        | inr e => (Throw e, logged [entry LError "CreateTable:EnableTTL" (Some e)] w4)
        end
    end.
Proof.
  intros Httl Hc Hwait.
  assert (Hnot_empty : match ttlAttributeName with
                       | Some s => Nat.eqb (String.length s) 0
                       | None => false
                       end = false).
  { destruct ttlAttributeName as [[|a s]|]; try reflexivity. congruence. }
  unfold logged, sent, entry in Hwait. cbn [client calls logs now] in Hwait.
  unfold CreateTable. rewrite Hnot_empty.
  unfold bind at 1. unfold try_catch at 1. unfold bind at 1. rewrite send_run, Hc.
  cbn [fst snd]. unfold bind at 1. unfold log at 1. unfold ret at 1.
  cbn [client calls logs now].
  unfold bind at 1. rewrite Hwait.
  destruct (Z.eqb_spec (_delayAfterCreateTable cfg) 0) as [Hzero|Hdelay]; cbn [negb].
  - exists w2. split; [reflexivity|]. split; [reflexivity|]. split; [lia|].
    destruct ttlAttributeName as [attribute|].
    + assert (Htruthy : truthy_str (Some attribute) = true).
      { destruct attribute as [|a s]; [congruence | reflexivity]. }
      rewrite Htruthy. cbn [show_opt]. unfold ttl_request, sent, logged, entry. mrun.
      destruct (updateTimeToLive _ (client w2)) as [[[[|]|]|e] c3];
        cbn [fst snd]; destruct w2; reflexivity.
    + cbn [truthy_str]. mrun. destruct w2; reflexivity.
  - eexists {| client := client w2; calls := calls w2;
               logs := logs w2 ++ [_];
               now := (now w2 + _delayAfterCreateTable cfg)%Z |}.
    split; [reflexivity|]. split; [reflexivity|]. split; [reflexivity|].
    destruct ttlAttributeName as [attribute|].
    + assert (Htruthy : truthy_str (Some attribute) = true).
      { destruct attribute as [|a s]; [congruence | reflexivity]. }
      rewrite Htruthy. cbn [show_opt]. unfold ttl_request, sent, logged, entry. mrun.
      destruct (updateTimeToLive _ (client w2)) as [[[[|]|]|e] c3];
        cbn [fst snd]; reflexivity.
    + cbn [truthy_str]. mrun. reflexivity.
Qed.

End Tables.

Lemma becomes_active_is_active {C : Type} {SC : StorageClient C} (c : C)
    (td : TableDescription) (polls : list Command) (c' : C) (td' : TableDescription) :
  becomes_active c td polls c' td' -> td_TableStatus td' = Some "ACTIVE".
Proof. induction 1; assumption. Qed.




(** X8.  [CreateTable] that waits for ['ACTIVE'], without a time-to-live
    attribute, over a client that creates the table and describes it as
    ['ACTIVE'] at the last of [polls]: it returns that last description; it
    sent the create-table command and then the polls, nothing else; and it
    took 500 ms before each poll and the settle delay of the wrapper, a
    number of milliseconds that is not negative, after the last, also when
    no poll was needed. *)
Theorem CreateTable_waits_for_active {C : Type} {SC : StorageClient C} (cfg : Config)
    (fuel : nat) (input : CreateTableInput) (w : World C)
    (td0 : TableDescription) (c1 : C) (polls : list Command) (c2 : C)
    (td : TableDescription) :
  (0 <= _delayAfterCreateTable cfg)%Z ->
  createTable input (client w) = (inl (Some td0), c1) ->
  becomes_active c1 td0 polls c2 td ->
  length polls <= fuel ->
  let r := CreateTable cfg fuel input true None w in
  fst r = Ret (Some td) /\
  td_TableStatus td = Some "ACTIVE" /\
  client (snd r) = c2 /\
  calls (snd r) = calls w ++ CreateTableCommand input :: polls /\
  now (snd r) = (now w + 500 * Z.of_nat (length polls) + _delayAfterCreateTable cfg)%Z.
Proof.
  intros _ Hc Hactive Hfuel r.
  destruct (waitForActive_loop_becomes_active c1 td0 polls c2 td Hactive fuel
              (logged [entry LDebug "Table Created" None]
                 (sent (CreateTableCommand input) c1 w)) eq_refl Hfuel)
    as (w2 & Hwait & Hc2 & Hcalls2 & Hnow2).
  destruct (CreateTable_after_wait cfg fuel input true None w td0 c1 td w2)
    as (w3 & Hc3 & Hcalls3 & Hnow3 & Hrun); [discriminate | exact Hc | exact Hwait |].
  subst r. rewrite Hrun. cbn [fst snd].
  cbn [logged sent calls now] in Hcalls2, Hnow2.
  split; [reflexivity|].
  split; [exact (becomes_active_is_active _ _ _ _ _ Hactive)|].
  split; [congruence|].
  split.
  - rewrite Hcalls3, Hcalls2, <- app_assoc. reflexivity.
  - rewrite Hnow3, Hnow2. reflexivity.
Qed.

Lemma CreateTable_waits_for_active_witness :
  now (snd (CreateTable Sample.cfg 2 Sample.schema true None
              (Scripted.world [Scripted.Table (Some Sample.creating);
                               Scripted.Table (Some Sample.creating);
                               Scripted.Table (Some Sample.active)])))
  = (0 + 500 * 2 + 5000)%Z.
Proof.
  refine (proj2 (proj2 (proj2 (proj2
            (CreateTable_waits_for_active Sample.cfg 2 Sample.schema
               (Scripted.world [Scripted.Table (Some Sample.creating);
                                Scripted.Table (Some Sample.creating);
                                Scripted.Table (Some Sample.active)])
               Sample.creating
               [Scripted.Table (Some Sample.creating); Scripted.Table (Some Sample.active)]
               [DescribeTableCommand (Some "local.Things");
                DescribeTableCommand (Some "local.Things")]
               [] Sample.active _ _ _ _))))).
  - discriminate.
  - reflexivity.
  - apply (becomes_active_later _ Sample.creating
             [Scripted.Table (Some Sample.active)] Sample.creating).
    + discriminate.
    + reflexivity.
    + apply (becomes_active_later _ Sample.creating [] Sample.active).
      * discriminate.
      * reflexivity.
      * apply becomes_active_now. reflexivity.
  - cbn. lia.
Defined.

(** X9.  The wait for ['ACTIVE'] has no bound of its own.  Over a client
    that creates the table and goes on describing it with a status other
    than ['ACTIVE'], [CreateTable] has not settled after any number [n] of
    polls: it sent the create-table command and [n] describe commands in
    [500 * n] ms and is still waiting. *)
Theorem CreateTable_waits_without_bound {C : Type} {SC : StorageClient C} (cfg : Config)
    (input : CreateTableInput) (ttlAttributeName : option string) (w : World C)
    (td0 : TableDescription) (c1 : C) (n : nat) :
  ttlAttributeName <> Some "" ->
  createTable input (client w) = (inl (Some td0), c1) ->
  stays_inactive c1 td0 n ->
  let r := CreateTable cfg n input true ttlAttributeName w in
  fst r = Pending /\
  length (calls (snd r)) = length (calls w) + 1 + n /\
  now (snd r) = (now w + 500 * Z.of_nat n)%Z.
Proof.
  intros Httl Hc Hstays r.
  assert (Hnot_empty : match ttlAttributeName with
                       | Some s => Nat.eqb (String.length s) 0
                       | None => false
                       end = false).
  { destruct ttlAttributeName as [[|a s]|]; try reflexivity. congruence. }
  destruct (waitForActive_loop_stays_inactive c1 td0 n Hstays
              (logged [entry LDebug "Table Created" None]
                 (sent (CreateTableCommand input) c1 w)) eq_refl)
    as (w' & Hwait & Hcalls & Hnow).
  assert (Hrun : r = (Pending, w')).
  { subst r. unfold CreateTable. rewrite Hnot_empty.
    unfold bind at 1. unfold try_catch at 1. unfold bind at 1. rewrite send_run, Hc.
    cbn [fst snd]. unfold bind at 1. unfold log at 1. unfold ret at 1.
    cbn [client calls logs now]. unfold bind at 1.
    unfold logged, sent, entry in Hwait. cbn [client calls logs now] in Hwait.
    rewrite Hwait. reflexivity. }
  rewrite Hrun. cbn [fst snd]. cbn [logged sent calls now] in Hcalls, Hnow.
  rewrite length_app in Hcalls. cbn [length] in Hcalls.
  split; [reflexivity|]. split; lia.
Qed.

Lemma CreateTable_waits_without_bound_witness :
  fst (CreateTable Sample.cfg 2 Sample.schema true None
         (Scripted.world [Scripted.Table (Some Sample.creating);
                          Scripted.Table (Some Sample.creating);
                          Scripted.Table (Some Sample.creating)])) = Pending.
Proof.
  refine (proj1 (CreateTable_waits_without_bound Sample.cfg Sample.schema None
                   (Scripted.world [Scripted.Table (Some Sample.creating);
                                    Scripted.Table (Some Sample.creating);
                                    Scripted.Table (Some Sample.creating)])
                   Sample.creating
                   [Scripted.Table (Some Sample.creating); Scripted.Table (Some Sample.creating)]
                   2 _ _ _)).
  - discriminate.
  - reflexivity.
  - apply (stays_inactive_S _ Sample.creating
             [Scripted.Table (Some Sample.creating)] Sample.creating).
    + discriminate.
    + reflexivity.
    + apply (stays_inactive_S _ Sample.creating [] Sample.creating).
      * discriminate.
      * reflexivity.
      * apply stays_inactive_O. discriminate.
Defined.



(** X11.  [CreateTableIfNotExists] for a table name found in the listing
    is [DescribeTable] for that name: it sends the listing and one describe
    command, and neither creates the table, nor waits for it to be ['ACTIVE'],
    nor looks at the time-to-live attribute name. *)
Theorem CreateTableIfNotExists_existing {C : Type} {SC : StorageClient C} (cfg : Config)
    (fuel : nat) (input : CreateTableInput) (waitForActive : bool)
    (ttlAttributeName : option string) (w : World C)
    (names : option (list string)) (c1 : C) :
  listTables (client w) = (inl names, c1) ->
  includes (default [] names) (cti_TableName input) = true ->
  let r := CreateTableIfNotExists cfg fuel input waitForActive ttlAttributeName w in
  r = DescribeTable (cti_TableName input) (sent ListTablesCommand c1 w) /\
  calls (snd r)
  = calls w ++ [ListTablesCommand; DescribeTableCommand (Some (cti_TableName input))].
Proof.
  intros Hl Hin r.
  assert (Hrun : r = DescribeTable (cti_TableName input) (sent ListTablesCommand c1 w)).
  { subst r. unfold CreateTableIfNotExists, ListTables, sent. mrun. rewrite Hl.
    cbn [fst snd]. rewrite Hin.
    match goal with
    | |- context [DescribeTable ?n ?w1] => destruct (DescribeTable n w1) as [[td|e|] w2]
    end; reflexivity. }
  split; [exact Hrun|].
  rewrite Hrun, DescribeTable_calls. cbn [sent calls]. rewrite <- app_assoc. reflexivity.
Qed.

Lemma CreateTableIfNotExists_existing_witness :
  calls (snd (CreateTableIfNotExists Sample.cfg 0 Sample.schema true (Some "")
                (Service.world Sample.service_AB)))
  = [] ++ [ListTablesCommand; DescribeTableCommand (Some "local.Things")].
Proof.
  refine (proj2 (CreateTableIfNotExists_existing Sample.cfg 0 Sample.schema true (Some "")
                   (Service.world Sample.service_AB)
                   (Some ["local.Things"]) Sample.service_AB _ _)).
  - reflexivity.
  - reflexivity.
Defined.

(** X12.  [InitializeTable] without a listing, for a table that is in
    neither of the two listings it fetches, over a client that rejects the
    create-table request: the rejection is logged and the call raises
    ['Fatal Error: Could not create <table name>'], not the rejection; two
    listings and the create-table command were sent. *)
Theorem InitializeTable_create_rejected {C : Type} {SC : StorageClient C} (cfg : Config)
    (fuel : nat) (Type_ : ItemType) (options : option ICreateSchemaOptions) (w : World C)
    (names1 names2 : option (list string)) (c1 c2 c3 : C) (e : JsError) :
  TTLFieldName Type_ <> Some "" ->
  listTables (client w) = (inl names1, c1) ->
  includes (default [] names1) (GenerateTableName cfg (BaseTableName Type_)) = false ->
  listTables c1 = (inl names2, c2) ->
  includes (default [] names2) (GenerateTableName cfg (BaseTableName Type_)) = false ->
  createTable (CreateSchema cfg Type_ options) c2 = (inr e, c3) ->
  let r := InitializeTable cfg fuel Type_ None options w in
  fst r = Throw (Error ("Fatal Error: Could not create "
                          ++ GenerateTableName cfg (BaseTableName Type_))) /\
  calls (snd r)
  = calls w ++ [ListTablesCommand; ListTablesCommand;
                CreateTableCommand (CreateSchema cfg Type_ options)] /\
  logs (snd r)
  = logs w ++ [entry LInfo "Initialize Table" None; entry LError "CreateTable" (Some e)].
Proof.
  intros Httl Hl1 Hin1 Hl2 Hin2 Hc r.
  assert (Hrun : r = (Throw (Error ("Fatal Error: Could not create "
                                      ++ GenerateTableName cfg (BaseTableName Type_))),
                      {| client := c3;
                         calls := calls w ++ [ListTablesCommand; ListTablesCommand;
                                              CreateTableCommand (CreateSchema cfg Type_ options)];
                         logs := logs w ++ [entry LInfo "Initialize Table" None;
                                            entry LError "CreateTable" (Some e)];
                         now := now w |})).
  { subst r. unfold InitializeTable. unfold ListTables at 1. mrun. rewrite Hl1.
    cbn [fst snd]. rewrite Hin1. mrun.
    unfold CreateTableIfNotExists. unfold ListTables at 1. mrun. rewrite Hl2.
    cbn [fst snd]. replace (cti_TableName (CreateSchema cfg Type_ options))
      with (GenerateTableName cfg (BaseTableName Type_)) by reflexivity.
    rewrite Hin2.
    erewrite CreateTable_rejected; [|exact Httl|cbn [client]; exact Hc].
    cbn [fst snd client calls logs now]. unfold entry.
    rewrite <- !app_assoc. reflexivity. }
  rewrite Hrun. cbn [fst snd calls logs]. auto.
Qed.

Lemma InitializeTable_create_rejected_witness :
  fst (InitializeTable Sample.cfg 3 Sample.Thing None None
         (Scripted.world [Scripted.Names (Some []); Scripted.Names None;
                          Scripted.Reject Sample.boom]))
  = Throw (Error "Fatal Error: Could not create local.Things").
Proof.
  refine (proj1 (InitializeTable_create_rejected Sample.cfg 3 Sample.Thing None
                   (Scripted.world [Scripted.Names (Some []); Scripted.Names None;
                                    Scripted.Reject Sample.boom])
                   (Some []) None
                   [Scripted.Names None; Scripted.Reject Sample.boom]
                   [Scripted.Reject Sample.boom] [] Sample.boom _ _ _ _ _ _)).
  - discriminate.
  - reflexivity.
  - reflexivity.
  - reflexivity.
  - reflexivity.
  - reflexivity.
Defined.

(** ** Index reconciliation, when it fails *)

Section ReconcileFails.

Context {C : Type} {SC : StorageClient C}.
Variable cfg : Config.

Lemma rejects_app_inv (l1 l2 : list UpdateTableInput) :
  forall (c c' : C) (e : JsError),
    l2 <> [] ->
    rejects c (l1 ++ l2) e c' ->
    exists cm, accepts c l1 cm /\ rejects cm l2 e c'.
Proof.
  induction l1 as [|r l1 IH]; intros c c' e Hne Hr.
  - exists c. split; [constructor | exact Hr].
  - cbn [app] in Hr. inversion Hr; subst.
    + exfalso. destruct l1, l2; try discriminate. contradiction.
    + match goal with
      | Hrest : rejects _ (l1 ++ l2) _ _ |- _ =>
          destruct (IH _ _ _ Hne Hrest) as (cm & Hleft & Hright)
      end.
      exists cm. split; [econstructor; eassumption | exact Hright].
Qed.

(** A loop that sends one update-table request for each element that meets
    [cond], over a client that rejects one of them: the loop ends there. *)
Lemma for_each_rejects (cond : GlobalSecondaryIndex -> bool)
    (request : GlobalSecondaryIndex -> UpdateTableInput)
    (msg : GlobalSecondaryIndex -> string) (l : list GlobalSecondaryIndex) :
  forall (c c' : C) (e : JsError) (done unsent : list UpdateTableInput) (w : World C),
    map request (List.filter cond l) = done ++ unsent ->
    rejects c done e c' ->
    client w = c ->
    exists w' : World C,
      for_each l
        (fun gsi =>
           if cond gsi then
             updated <- send (UpdateTableCommand (request gsi)) (updateTable (request gsi)) ;;
             log LDebug (msg gsi) None
           else ret tt) w
      = (Throw e, w') /\
      client w' = c' /\
      calls w' = calls w ++ map UpdateTableCommand done.
Proof.
  induction l as [|gsi l IH]; intros c c' e done unsent w Hmap Hr Hc.
  - cbn in Hmap. inversion Hr; subst; discriminate.
  - cbn [for_each List.filter] in *.
    match goal with |- context [for_each l ?b] => set (body := b) in * end.
    unfold bind. unfold body at 1. cbv beta.
    destruct (cond gsi) eqn:Hcond.
    + cbn [map] in Hmap. inversion Hr; subst; cbn [app] in Hmap; injection Hmap as Hhead Htail.
      * subst. unfold bind, send.
        match goal with
        | Hu : updateTable _ _ = _ |- _ => rewrite Hu
        end.
        eexists. split; [reflexivity|]. cbn [client calls map]. auto.
      * subst. unfold bind, send, log.
        match goal with
        | Hu : updateTable _ _ = _ |- _ => rewrite Hu
        end.
        cbn [fst snd client calls logs now].
        match goal with
        | Hrest : rejects ?c1 ?rest e c' |- context [for_each l _ ?w1] =>
            destruct (IH c1 c' e rest unsent w1 Htail Hrest eq_refl)
              as (w' & Hrun & Hc' & Hcalls)
        end.
        exists w'. split; [exact Hrun|]. split; [exact Hc'|].
        rewrite Hcalls. cbn [calls map]. rewrite <- app_assoc. reflexivity.
    + unfold ret. exact (IH c c' e done unsent w Hmap Hr Hc).
Qed.

Lemma UpdateTable_rejected (item : ItemType) (w : World C) (table : TableDescription)
    (c1 c2 : C) (done unsent : list UpdateTableInput) (e : JsError) :
  let TableName := GenerateTableName cfg (BaseTableName item) in
  describeTable (Some TableName) (client w) = (inl (Some table), c1) ->
  td_TableName table = Some TableName ->
  reconciliation TableName item table = done ++ unsent ->
  rejects c1 done e c2 ->
  exists w' : World C,
    UpdateTable cfg item w = (Throw e, w') /\
    client w' = c2 /\
    calls w' = calls w ++ DescribeTableCommand (Some TableName) :: map UpdateTableCommand done.
Proof.
  intros TableName Hd Hname Hsplit Hr.
  unfold reconciliation in Hsplit.
  unfold UpdateTable. fold TableName.
  unfold bind at 1. rewrite (DescribeTable_found TableName w table c1 Hd Hname).
  unfold bind at 1.
  destruct (app_eq_app _ _ _ _ Hsplit) as (mid & [[Hdel Hunsent] | [Hdone Hcre]]).
  - (* the rejected request is a delete request *)
    destruct (for_each_rejects
                (fun gsi => negb (find_index (GlobalSecondaryIndexes item) (IndexName gsi)))
                (delete_request TableName)
                (fun gsi => ("Deleted GSI: " ++ TableName ++ "/" ++ show_opt (IndexName gsi))%string)
                (default [] (td_GlobalSecondaryIndexes table))
                c1 c2 e done mid (sent (DescribeTableCommand (Some TableName)) c1 w)
                Hdel Hr eq_refl)
      as (w' & Hrun & Hc' & Hcalls).
    unfold delete_request in Hrun. rewrite Hrun.
    exists w'. split; [reflexivity|]. split; [exact Hc'|].
    rewrite Hcalls. cbn [sent calls]. rewrite <- app_assoc. reflexivity.
  - destruct mid as [|r mid].
    + (* the rejected request is the last delete request *)
      rewrite app_nil_r in Hdone. cbn [app] in Hcre.
      destruct (for_each_rejects
                  (fun gsi => negb (find_index (GlobalSecondaryIndexes item) (IndexName gsi)))
                  (delete_request TableName)
                  (fun gsi => ("Deleted GSI: " ++ TableName ++ "/" ++ show_opt (IndexName gsi))%string)
                  (default [] (td_GlobalSecondaryIndexes table))
                  c1 c2 e done [] (sent (DescribeTableCommand (Some TableName)) c1 w)
                  ltac:(rewrite app_nil_r; symmetry; exact Hdone) Hr eq_refl)
        as (w' & Hrun & Hc' & Hcalls).
      unfold delete_request in Hrun. rewrite Hrun.
      exists w'. split; [reflexivity|]. split; [exact Hc'|].
      rewrite Hcalls. cbn [sent calls]. rewrite <- app_assoc. reflexivity.
    + (* the rejected request is a create request *)
      rewrite Hdone in Hr.
      destruct (rejects_app_inv _ (r :: mid) c1 c2 e ltac:(discriminate) Hr)
        as (cm & Hacc & Hrej).
      erewrite (for_each_updates
                  (fun gsi => negb (find_index (GlobalSecondaryIndexes item) (IndexName gsi)))
                  (delete_request TableName)
                  (fun gsi => ("Deleted GSI: " ++ TableName ++ "/" ++ show_opt (IndexName gsi))%string));
        [|exact Hacc|reflexivity].
      unfold bind at 1.
      match goal with
      | |- context [for_each (default [] (GlobalSecondaryIndexes item)) _ ?w1] =>
          destruct (for_each_rejects
                      (fun gsi => negb (find_index (td_GlobalSecondaryIndexes table)
                                          (IndexName gsi)))
                      (create_request TableName (AttributeDefinitions item))
                      (fun gsi => ("Created GSI: " ++ TableName ++ "/"
                                     ++ show_opt (IndexName gsi))%string)
                      (default [] (GlobalSecondaryIndexes item))
                      cm c2 e (r :: mid) unsent w1 Hcre Hrej eq_refl)
            as (w' & Hrun & Hc' & Hcalls)
      end.
      unfold create_request in Hrun. rewrite Hrun.
      exists w'. split; [reflexivity|]. split; [exact Hc'|].
      rewrite Hcalls, Hdone. cbn [sent calls]. unfold undeclared.
      rewrite map_app, <- !app_assoc. reflexivity.
Qed.

End ReconcileFails.

(** X13.  [UpdateTable] for a table that [DescribeTable] does not find,
    because the client rejects the describe command with
    [ResourceNotFoundException] or answers with no table or with a table of
    another name, raises ['Table Not Found: <table name>'] after that one
    command. *)
Theorem UpdateTable_table_not_found {C : Type} {SC : StorageClient C} (cfg : Config)
    (item : ItemType) (w : World C) :
  let TableName := GenerateTableName cfg (BaseTableName item) in
  match fst (describeTable (Some TableName) (client w)) with
  | inl (Some td) => td_TableName td <> Some TableName
  | inl None => True
  | inr e => is_ResourceNotFound e = true
  end ->
  let r := UpdateTable cfg item w in
  fst r = Throw (Error ("Table Not Found: " ++ TableName)) /\
  calls (snd r) = calls w ++ [DescribeTableCommand (Some TableName)].
Proof.
  intros TableName Hmissing r.
  assert (Hd : DescribeTable TableName w
               = (Ret None, sent (DescribeTableCommand (Some TableName))
                              (snd (describeTable (Some TableName) (client w))) w)).
  { rewrite DescribeTable_run. cbn zeta.
    destruct (fst (describeTable (Some TableName) (client w))) as [[td|]|e].
    - rewrite bool_decide_eq_false_2 by exact Hmissing. reflexivity.
    - reflexivity.
    - rewrite Hmissing. reflexivity. }
  assert (Hrun : r = (Throw (Error ("Table Not Found: " ++ TableName)),
                      sent (DescribeTableCommand (Some TableName))
                        (snd (describeTable (Some TableName) (client w))) w)).
  { subst r. unfold UpdateTable. fold TableName. unfold bind at 1. rewrite Hd. reflexivity. }
  rewrite Hrun. cbn [fst snd sent calls]. auto.
Qed.

Lemma UpdateTable_table_not_found_witness :
  fst (UpdateTable Sample.cfg Sample.Thing (Service.world Sample.empty_service))
  = Throw (Error "Table Not Found: local.Things").
Proof.
  refine (proj1 (UpdateTable_table_not_found Sample.cfg Sample.Thing
                   (Service.world Sample.empty_service) _)).
  reflexivity.
Defined.

(** X14.  [UpdateTable] stops at the first request the client rejects:
    the requests of the reconciliation before it were sent and accepted, the
    rejected one is the last command sent, neither the requests after it nor
    the final describe command follow, and the rejection is raised. *)
Theorem UpdateTable_stops_at_rejection {C : Type} {SC : StorageClient C} (cfg : Config)
    (item : ItemType) (w : World C) (table : TableDescription) (c1 c2 : C)
    (done unsent : list UpdateTableInput) (e : JsError) :
  let TableName := GenerateTableName cfg (BaseTableName item) in
  describeTable (Some TableName) (client w) = (inl (Some table), c1) ->
  td_TableName table = Some TableName ->
  reconciliation TableName item table = done ++ unsent ->
  rejects c1 done e c2 ->
  let r := UpdateTable cfg item w in
  fst r = Throw e /\
  client (snd r) = c2 /\
  calls (snd r)
  = calls w ++ DescribeTableCommand (Some TableName) :: map UpdateTableCommand done.
Proof.
  intros TableName Hd Hname Hsplit Hr r.
  destruct (UpdateTable_rejected cfg item w table c1 c2 done unsent e Hd Hname Hsplit Hr)
    as (w' & Hrun & Hc' & Hcalls).
  subst r. rewrite Hrun. cbn [fst snd]. auto.
Qed.

Lemma UpdateTable_stops_at_rejection_witness :
  fst (UpdateTable Sample.cfg Sample.Thing
         (Scripted.world [Scripted.Table (Some (Service.describe "local.Things"
                                                  {| Service.polls_left := 0;
                                                     Service.key_schema := [];
                                                     Service.indexes := [Sample.gsi "A"];
                                                     Service.ttl_attribute := None;
                                                     Service.rows := [] |}));
                          Scripted.Table None;
                          Scripted.Reject Sample.boom;
                          Scripted.Table None]))
  = Throw Sample.boom /\
  calls (snd (UpdateTable Sample.cfg Sample.Thing
         (Scripted.world [Scripted.Table (Some (Service.describe "local.Things"
                                                  {| Service.polls_left := 0;
                                                     Service.key_schema := [];
                                                     Service.indexes := [Sample.gsi "A"];
                                                     Service.ttl_attribute := None;
                                                     Service.rows := [] |}));
                          Scripted.Table None;
                          Scripted.Reject Sample.boom;
                          Scripted.Table None])))
  = [] ++ DescribeTableCommand (Some "local.Things")
       :: map UpdateTableCommand
            [ delete_request "local.Things" (Sample.gsi "A");
              create_request "local.Things" (AttributeDefinitions Sample.Thing)
                (Sample.gsi "B") ].
Proof.
  pose proof (UpdateTable_stops_at_rejection Sample.cfg Sample.Thing
         (Scripted.world [Scripted.Table (Some (Service.describe "local.Things"
                                                  {| Service.polls_left := 0;
                                                     Service.key_schema := [];
                                                     Service.indexes := [Sample.gsi "A"];
                                                     Service.ttl_attribute := None;
                                                     Service.rows := [] |}));
                          Scripted.Table None;
                          Scripted.Reject Sample.boom;
                          Scripted.Table None])
         (Service.describe "local.Things"
            {| Service.polls_left := 0;
               Service.key_schema := [];
               Service.indexes := [Sample.gsi "A"];
               Service.ttl_attribute := None;
               Service.rows := [] |})
         [Scripted.Table None; Scripted.Reject Sample.boom; Scripted.Table None]
         [Scripted.Table None]
         [ delete_request "local.Things" (Sample.gsi "A");
           create_request "local.Things" (AttributeDefinitions Sample.Thing) (Sample.gsi "B") ]
         [ create_request "local.Things" (AttributeDefinitions Sample.Thing) (Sample.gsi "C") ]
         Sample.boom) as H.
  cbv zeta in H.
  refine ((fun H' => conj (proj1 H') (proj2 (proj2 H'))) (H _ _ _ _)).
  - reflexivity.
  - reflexivity.
  - vm_compute. reflexivity.
  - eapply rejects_later; [reflexivity|].
    apply rejects_last. reflexivity.
Defined.

(** ** Reading and deleting by key *)

Section Keyed.

Context {C : Type} {SC : StorageClient C}.
Variable cfg : Config.

Lemma is_ResourceNotFound_Error (msg : string) : is_ResourceNotFound (Error msg) = false.
Proof. reflexivity. Qed.

(** [GetItem] by primary key, up to the answer of the client. *)
Lemma GetItem_by_key (fuel : nat) (Type_ : ItemType) (id : JsVal) (range : option JsVal)
    (options : ReadOptions) (w : World C) (Key : AttrMap) :
  is_empty_string id = false ->
  is_empty_string_opt range = false ->
  truthy_str (opt_IndexName options) = false ->
  _CreateKeyMapping Type_ id range = inl Key ->
  let params := keyed_request cfg Type_ Key None (ConsistentRead options) in
  let w1 := sent (GetItemCommand params) (snd (getItem params (client w)))
              (logged [entry LDebug "GetItemInput" None] w) in
  GetItem cfg fuel Type_ id range options w =
  match fst (getItem params (client w)) with
  | inl (Some attrs) =>
      (Ret (Some (Assign attrs (new_Item Type_ (now w)))),
       logged [entry LDebug "GetItem: Response.Item" None;
               entry LDebug "GetItem: Unmarshalled" None] w1)
  | inl None =>
      if match Required options with
         | None => true
         | Some given => default false given
         end then
        let e := Error ("Unable to retrieve '" ++ show_val id ++ "' from '"
                          ++ GenerateTableName cfg (BaseTableName Type_) ++ "'") in
        (Throw e, logged [entry LDebug "GetItem: Response.Item" None;
                          entry LError "GetItem: Error" (Some e)] w1)
      else (Ret None, logged [entry LDebug "GetItem: Response.Item" None] w1)
  | inr e =>
      if is_ResourceNotFound e then
        ((if _debugMode cfg then
            existingTables <- ListTables ;;
            log LDebug "Existing Tables" None
          else ret tt) ;;
         if negb (default false (IgnoreTableNotFound options)) then throw e else ret None)
          (logged [entry LWarn "GetItem: ResourceNotFoundException - the Table does not exist"
                     None] w1)
      else (Throw e, logged [entry LError ("GetItem: " ++ err_name e) (Some e)] w1)
  end.
Proof.
  intros Hid Hrange Hindex Hkey params w1. subst params w1.
  unfold GetItem. rewrite Hid, Hrange, Hindex. mrun. rewrite Hkey.
  unfold keyed_request, sent, logged, entry. mrun.
  destruct (getItem _ (client w)) as [[[attrs|]|e] c1]; cbn [fst snd client calls logs now].
  - rewrite <- !app_assoc. cbn [app]. reflexivity.
  - destruct (Required options) as [[[|]|]|];
      cbn [default from_option Datatypes.id];
      rewrite ?is_ResourceNotFound_Error;
      cbn [fst snd err_name Error client calls logs now ki_TableName];
      rewrite <- ?app_assoc; cbn [app]; reflexivity.
  - destruct (is_ResourceNotFound e); cbn [fst snd client calls logs now];
      rewrite <- ?app_assoc; cbn [app]; reflexivity.
Qed.

(** [DeleteItem], up to the answer of the client. *)
Lemma DeleteItem_by_key (Type_ : ItemType) (id : JsVal) (range : option JsVal)
    (returnValue : ReturnValue) (w : World C) (Key : AttrMap) :
  is_empty_string id = false ->
  is_empty_string_opt range = false ->
  _CreateKeyMapping Type_ id range = inl Key ->
  let params := keyed_request cfg Type_ Key (Some (ReturnValue_string returnValue)) None in
  let w1 := sent (DeleteItemCommand params) (snd (deleteItem params (client w))) w in
  DeleteItem cfg Type_ id range returnValue w =
  match fst (deleteItem params (client w)), returnValue with
  | inl _, NONE => (Ret (DeletedFlag true), logged [entry LDebug "DeleteItem: Deleted" None] w1)
  | inl None, ALL_OLD =>
      (Ret (DeletedFlag false), logged [entry LDebug "DeleteItem: Deleted" None] w1)
  | inl (Some attrs), ALL_OLD =>
      (Ret (DeletedItem (Assign attrs (new_Item Type_ (now w)))),
       logged [entry LDebug "DeleteItem: Deleted" None;
               entry LDebug "DeleteItem: Unmarshalled" None] w1)
  | inr e, _ => (Throw e, logged [entry LError "DeleteItem" (Some e)] w1)
  end.
Proof.
  intros Hid Hrange Hkey params w1. subst params w1.
  unfold DeleteItem. rewrite Hid, Hrange. mrun. rewrite Hkey.
  unfold keyed_request, sent, logged, entry. mrun.
  destruct (deleteItem _ (client w)) as [[[attrs|]|e] c1]; destruct returnValue;
    cbn [fst snd client calls logs now]; rewrite <- ?app_assoc; cbn [app]; reflexivity.
Qed.

End Keyed.

(** X15.  For a class that declares a range field, [GetItem] by primary
    key and [DeleteItem] called without a range value are refused with an
    [ArgumentError] before anything is sent to the client. *)
Theorem undefined_range_refused {C : Type} {SC : StorageClient C} (cfg : Config)
    (fuel : nat) (Type_ : ItemType) (rangeFieldName : string) (id : JsVal)
    (options : ReadOptions) (returnValue : ReturnValue) (w : World C) :
  RangeFieldName Type_ = Some rangeFieldName ->
  is_empty_string id = false ->
  truthy_str (opt_IndexName options) = false ->
  refused (GetItem cfg fuel Type_ id None options w) w /\
  refused (DeleteItem cfg Type_ id None returnValue w) w.
Proof.
  intros Hrf Hid Hindex. split.
  - unfold GetItem. rewrite Hid, Hindex. cbn [is_empty_string_opt]. mrun.
    unfold _CreateKeyMapping. rewrite Hrf. unfold refused. cbn [fst snd]. eauto.
  - unfold DeleteItem. rewrite Hid. cbn [is_empty_string_opt]. mrun.
    unfold _CreateKeyMapping. rewrite Hrf. unfold refused. cbn [fst snd]. eauto.
Qed.

Lemma undefined_range_refused_witness :
  refused (GetItem Sample.cfg 1 Sample2.Event (VStr "e1") None no_options
             (Scripted.world [Scripted.Attrs None]))
          (Scripted.world [Scripted.Attrs None]) /\
  refused (DeleteItem Sample.cfg Sample2.Event (VStr "e1") None ALL_OLD
             (Scripted.world [Scripted.Attrs None]))
          (Scripted.world [Scripted.Attrs None]).
Proof.
  apply (undefined_range_refused Sample.cfg 1 Sample2.Event "at" (VStr "e1") no_options
           ALL_OLD (Scripted.world [Scripted.Attrs None])); reflexivity.
Defined.

(** X16.  For a class without a range field, a range value given to
    [GetItem] by primary key or to [DeleteItem] is ignored: the call does
    what the call without a range value does. *)
Theorem range_ignored_without_range_field {C : Type} {SC : StorageClient C} (cfg : Config)
    (fuel : nat) (Type_ : ItemType) (id : JsVal) (range : option JsVal)
    (options : ReadOptions) (returnValue : ReturnValue) (w : World C) :
  RangeFieldName Type_ = None ->
  is_empty_string_opt range = false ->
  truthy_str (opt_IndexName options) = false ->
  GetItem cfg fuel Type_ id range options w = GetItem cfg fuel Type_ id None options w /\
  DeleteItem cfg Type_ id range returnValue w = DeleteItem cfg Type_ id None returnValue w.
Proof.
  intros Hrf Hrange Hindex. split.
  - unfold GetItem. rewrite Hrange, Hindex. cbn [is_empty_string_opt].
    unfold _CreateKeyMapping. rewrite Hrf. reflexivity.
  - unfold DeleteItem. rewrite Hrange. cbn [is_empty_string_opt].
    unfold _CreateKeyMapping. rewrite Hrf. reflexivity.
Qed.

Lemma range_ignored_without_range_field_witness :
  GetItem Sample.cfg 1 Sample.Thing (VStr "a1") (Some (VNum 7)) no_options
    (Service.world Sample.service_AB)
  = GetItem Sample.cfg 1 Sample.Thing (VStr "a1") None no_options
      (Service.world Sample.service_AB).
Proof.
  refine (proj1 (range_ignored_without_range_field Sample.cfg 1 Sample.Thing (VStr "a1")
                   (Some (VNum 7)) no_options NONE (Service.world Sample.service_AB) _ _ _));
    reflexivity.
Defined.

(** X17.  [DeleteItem] sends one delete command with the key and the
    return mode asked for.  With ['NONE'] it returns [true] whatever the
    client answers with; with ['ALL_OLD'] it returns the deleted record,
    assigned to a new instance of the class, or [false] when the client
    returned no attributes, that is when there was nothing to delete.  A
    rejection is logged and raised. *)
Theorem DeleteItem_results {C : Type} {SC : StorageClient C} (cfg : Config)
    (Type_ : ItemType) (id : JsVal) (range : option JsVal) (returnValue : ReturnValue)
    (w : World C) (Key : AttrMap) :
  is_empty_string id = false ->
  is_empty_string_opt range = false ->
  _CreateKeyMapping Type_ id range = inl Key ->
  let params := keyed_request cfg Type_ Key (Some (ReturnValue_string returnValue)) None in
  let r := DeleteItem cfg Type_ id range returnValue w in
  calls (snd r) = calls w ++ [DeleteItemCommand params] /\
  client (snd r) = snd (deleteItem params (client w)) /\
  match fst (deleteItem params (client w)), returnValue with
  | inl _, NONE => fst r = Ret (DeletedFlag true)
  | inl None, ALL_OLD => fst r = Ret (DeletedFlag false)
  | inl (Some attrs), ALL_OLD =>
      fst r = Ret (DeletedItem (Assign attrs (new_Item Type_ (now w))))
  | inr e, _ =>
      fst r = Throw e /\ logs (snd r) = logs w ++ [entry LError "DeleteItem" (Some e)]
  end.
Proof.
  intros Hid Hrange Hkey params r. subst r.
  rewrite (DeleteItem_by_key cfg Type_ id range returnValue w Key Hid Hrange Hkey).
  fold params.
  destruct (deleteItem params (client w)) as [[[attrs|]|e] c1]; destruct returnValue;
    cbn [fst snd logged sent client calls logs]; auto.
Qed.

Lemma DeleteItem_results_witness :
  fst (DeleteItem Sample.cfg Sample.Thing (VStr "a1") None ALL_OLD
         (Service.world Sample.service_AB)) = Ret (DeletedFlag false).
Proof.
  refine (proj2 (proj2 (DeleteItem_results Sample.cfg Sample.Thing (VStr "a1") None ALL_OLD
                          (Service.world Sample.service_AB) {[ "id" := VStr "a1" ]} _ _ _)));
    reflexivity.
Defined.

(** X18.  [GetItem] by primary key when the client finds no item.  With
    [Required] left out of the options, or given as [true], the call raises
    ['Unable to retrieve '<id>' from '<table name>''], and its own [catch]
    logs that as an error.  With [Required: false] it returns [undefined];
    and so it does with [Required: undefined], because an option that is
    there overrides the default [true] even when its value is [undefined].
    One get command with the key was sent. *)
Theorem GetItem_item_missing {C : Type} {SC : StorageClient C} (cfg : Config)
    (fuel : nat) (Type_ : ItemType) (id : JsVal) (range : option JsVal)
    (options : ReadOptions) (w : World C) (Key : AttrMap) (c1 : C) :
  is_empty_string id = false ->
  is_empty_string_opt range = false ->
  truthy_str (opt_IndexName options) = false ->
  _CreateKeyMapping Type_ id range = inl Key ->
  let params := keyed_request cfg Type_ Key None (ConsistentRead options) in
  getItem params (client w) = (inl None, c1) ->
  let r := GetItem cfg fuel Type_ id range options w in
  let missing := Error ("Unable to retrieve '" ++ show_val id ++ "' from '"
                          ++ GenerateTableName cfg (BaseTableName Type_) ++ "'") in
  calls (snd r) = calls w ++ [GetItemCommand params] /\
  (Required options = None \/ Required options = Some (Some true) ->
   fst r = Throw missing /\
   logs (snd r) = logs w ++ [entry LDebug "GetItemInput" None;
                             entry LDebug "GetItem: Response.Item" None;
                             entry LError "GetItem: Error" (Some missing)]) /\
  (Required options = Some (Some false) \/ Required options = Some None ->
   fst r = Ret None).
Proof.
  intros Hid Hrange Hindex Hkey params Hget r missing. subst r.
  rewrite (GetItem_by_key cfg fuel Type_ id range options w Key Hid Hrange Hindex Hkey).
  fold params. rewrite Hget. cbn [fst snd].
  destruct (Required options) as [[[|]|]|];
    cbn [default from_option Datatypes.id fst snd logged sent calls logs];
    (split; [reflexivity|]); split;
    try (intros _; split; [reflexivity | rewrite <- !app_assoc; reflexivity]);
    try (intros [H|H]; discriminate H); try (intros _; reflexivity).
Qed.

Lemma GetItem_item_missing_witness :
  fst (GetItem Sample.cfg 1 Sample.Thing (VStr "a1") None no_options
         (Service.world Sample.service_AB))
  = Throw (Error "Unable to retrieve 'a1' from 'local.Things'") /\
  fst (GetItem Sample.cfg 1 Sample.Thing (VStr "a1") None Sample2.optional
         (Service.world Sample.service_AB))
  = Ret None /\
  fst (GetItem Sample.cfg 1 Sample.Thing (VStr "a1") None Sample2.required_undefined
         (Service.world Sample.service_AB))
  = Ret None.
Proof.
  split; [|split].
  - refine (proj1 (proj1 (proj2
              (GetItem_item_missing Sample.cfg 1 Sample.Thing (VStr "a1") None no_options
                 (Service.world Sample.service_AB) {[ "id" := VStr "a1" ]} Sample.service_AB
                 _ _ _ _ _)) _)); try reflexivity.
    left. reflexivity.
  - refine (proj2 (proj2
              (GetItem_item_missing Sample.cfg 1 Sample.Thing (VStr "a1") None Sample2.optional
                 (Service.world Sample.service_AB) {[ "id" := VStr "a1" ]} Sample.service_AB
                 _ _ _ _ _)) _); try reflexivity.
    left. reflexivity.
  - refine (proj2 (proj2
              (GetItem_item_missing Sample.cfg 1 Sample.Thing (VStr "a1") None
                 Sample2.required_undefined
                 (Service.world Sample.service_AB) {[ "id" := VStr "a1" ]} Sample.service_AB
                 _ _ _ _ _)) _); try reflexivity.
    right. reflexivity.
Defined.



(** X20.  [GetItem] by primary key when the client finds the item: the
    call returns an instance of the class that has every stored attribute as
    a property and the default properties of the class for the rest.  For a
    versioned class its version is the stored [version] number, and the
    sentinel [-1] of a record never saved when no version is stored; for
    another class it has none.  The timestamps are the stored ones. *)
Theorem GetItem_found {C : Type} {SC : StorageClient C} (cfg : Config)
    (fuel : nat) (Type_ : ItemType) (id : JsVal) (range : option JsVal)
    (options : ReadOptions) (w : World C) (Key : AttrMap) (attrs : AttrMap) (c1 : C) :
  is_empty_string id = false ->
  is_empty_string_opt range = false ->
  truthy_str (opt_IndexName options) = false ->
  _CreateKeyMapping Type_ id range = inl Key ->
  let params := keyed_request cfg Type_ Key None (ConsistentRead options) in
  getItem params (client w) = (inl (Some attrs), c1) ->
  let r := GetItem cfg fuel Type_ id range options w in
  exists item : Item,
    fst r = Ret (Some item) /\
    calls (snd r) = calls w ++ [GetItemCommand params] /\
    item_type item = Type_ /\
    (forall k v, attrs !! k = Some v -> props item !! k = Some v) /\
    (forall k, attrs !! k = None -> props item !! k = DefaultProps Type_ !! k) /\
    (if Versioned Type_
     then (forall n, attrs !! "version" = Some (VNum n) -> Version item = Some n) /\
          (attrs !! "version" = None -> Version item = Some (Int (-1)))
     else Version item = None) /\
    (forall n, attrs !! "createdAt" = Some (VNum n) -> createdAt item = n) /\
    (forall n, attrs !! "updatedAt" = Some (VNum n) -> updatedAt item = n).
Proof.
  intros Hid Hrange Hindex Hkey params Hget r. subst r.
  rewrite (GetItem_by_key cfg fuel Type_ id range options w Key Hid Hrange Hindex Hkey).
  fold params. rewrite Hget. cbn [fst snd].
  eexists. split; [reflexivity|].
  split; [cbn [logged sent calls]; reflexivity|].
  unfold Assign, new_Item, Version.
  cbn [item_type props version createdAt updatedAt].
  split; [reflexivity|].
  split; [intros k v Hk; apply lookup_union_Some_l; exact Hk|].
  split; [intros k Hk; rewrite lookup_union_r by exact Hk; reflexivity|].
  split.
  - destruct (Versioned Type_); [|reflexivity].
    split; [intros n Hn | intros Hn]; rewrite Hn; reflexivity.
  - split; intros n Hn; rewrite Hn; reflexivity.
Qed.

Lemma GetItem_found_witness :
  exists item : Item,
    fst (GetItem Sample.cfg 1 Sample.Thing (VStr "a1") None no_options
           (Scripted.world [Scripted.Attrs (Some Sample2.stored)])) = Ret (Some item) /\
    Version item = Some (Int 4) /\ props item !! "id" = Some (VStr "a1").
Proof.
  destruct (GetItem_found Sample.cfg 1 Sample.Thing (VStr "a1") None no_options
              (Scripted.world [Scripted.Attrs (Some Sample2.stored)])
              {[ "id" := VStr "a1" ]} Sample2.stored [])
    as (item & Hrun & _ & _ & Hprops & _ & Hversion & _); try reflexivity.
  exists item. split; [exact Hrun|]. split.
  - apply (proj1 Hversion). reflexivity.
  - apply Hprops. reflexivity.
Defined.


(** ** Read requests *)

(** The values of a request: the caller's, with the id and then the range
    value bound to their placeholders. *)
Lemma key_values_lookup (id range : option JsVal) (cv m : AttrMap) :
  m = match range with
      | Some r => <[":sortkeyval" := r]>
                    (match id with Some v => <[":partitionkeyval" := v]> cv | None => cv end)
      | None => match id with Some v => <[":partitionkeyval" := v]> cv | None => cv end
      end ->
  (forall v, id = Some v -> m !! ":partitionkeyval" = Some v) /\
  (forall r, range = Some r -> m !! ":sortkeyval" = Some r) /\
  (forall k, (k = ":partitionkeyval" -> id = None) ->
             (k = ":sortkeyval" -> range = None) ->
             m !! k = cv !! k).
Proof.
  intros ->. split; [|split].
  - intros v ->. destruct range as [r|].
    + rewrite lookup_insert_ne by discriminate. apply lookup_insert_eq.
    + apply lookup_insert_eq.
  - intros r ->. apply lookup_insert_eq.
  - intros k Hpk Hsk.
    assert (Hk1 : forall r, range = Some r -> ":sortkeyval" <> k).
    { intros r Hr <-. specialize (Hsk eq_refl). congruence. }
    assert (Hk2 : forall v, id = Some v -> ":partitionkeyval" <> k).
    { intros v Hv <-. specialize (Hpk eq_refl). congruence. }
    destruct range as [r|], id as [v|];
      rewrite ?lookup_insert_ne by eauto; reflexivity.
Qed.

Lemma optional_map_default {V : Type} (m : gmap string V) (dec : Decision (m = ∅)) :
  default ∅ (if @bool_decide (m = ∅) dec then None else Some m) = m.
Proof. destruct dec as [->|Hne]; reflexivity. Qed.

Lemma optional_map_not_empty {V : Type} (m : gmap string V) (dec : Decision (m = ∅)) :
  (if @bool_decide (m = ∅) dec then None else Some m) <> Some ∅.
Proof. destruct dec as [->|Hne]; cbn; congruence. Qed.

Section Requests.

Context {C : Type} {SC : StorageClient C}.
Variable cfg : Config.

Lemma Query_params_binds_key (Type_ : ItemType) (id : JsVal) (range : option JsVal)
    (options : ReadOptions) (w w0 : World C) (params : ReadInput) :
  Query_params cfg Type_ id range options w = (Ret params, w0) ->
  binds_key (Some id) range options params /\
  ri_FilterExpression params = FilterExpression options /\
  ri_KeyConditionExpression params <> None.
Proof.
  unfold Query_params.
  destruct (is_empty_string id); [discriminate|].
  destruct (is_empty_string_opt range); [discriminate|].
  assert (Hgoal : forall (p : ReadInput) (values : AttrMap) (names : gmap string string),
             ri_ExpressionAttributeValues p = Some values ->
             values = match range with
                      | Some r => <[":sortkeyval" := r]>
                                    (<[":partitionkeyval" := id]> (caller_values options))
                      | None => <[":partitionkeyval" := id]> (caller_values options)
                      end ->
             ri_ExpressionAttributeNames p = Some names -> names <> ∅ ->
             binds_key (Some id) range options p).
  { intros p values names Hv Hvalues Hn Hnames. unfold binds_key. rewrite Hv, Hn.
    cbn [from_option Datatypes.id].
    destruct (key_values_lookup (Some id) range (caller_values options) values Hvalues)
      as (H1 & H2 & H3).
    split; [exact H1|]. split; [exact H2|]. split; [exact H3|].
    split; [|congruence].
    intros [= Hempty]. specialize (H1 id eq_refl). rewrite Hempty in H1.
    rewrite lookup_empty in H1. discriminate. }
  destruct (_debugMode cfg && truthy_str (opt_IndexName options)
            && negb (truthy_str (IndexPartitionKeyFieldName options)));
    destruct range as [r|]; mrun;
    try (destruct (negb (truthy_str (sort_key_name Type_ options)))); mrun;
    try discriminate; intros [= <- _];
    (split; [|split; [reflexivity|discriminate]]);
    (eapply Hgoal; [reflexivity | reflexivity | reflexivity | apply insert_non_empty]).
Qed.

Lemma Scan_params_binds_key (Type_ : ItemType) (id : option JsVal) (range : option JsVal)
    (options : ReadOptions) (w w0 : World C) (params : ReadInput) :
  Scan_params cfg Type_ id range options w = (Ret params, w0) ->
  binds_key id range options params /\
  ri_KeyConditionExpression params = None /\
  (id = None -> range = None ->
   ri_FilterExpression params
   = (if truthy_str (FilterExpression options) then FilterExpression options else None)).
Proof.
  unfold Scan_params.
  destruct (is_empty_string_opt id); [discriminate|].
  destruct (is_empty_string_opt range); [discriminate|].
  assert (Hgoal : forall (p : ReadInput) (values : AttrMap),
             default ∅ (ri_ExpressionAttributeValues p) = values ->
             values = match range with
                      | Some r =>
                          <[":sortkeyval" := r]>
                            (match id with
                             | Some v => <[":partitionkeyval" := v]> (caller_values options)
                             | None => caller_values options
                             end)
                      | None =>
                          match id with
                          | Some v => <[":partitionkeyval" := v]> (caller_values options)
                          | None => caller_values options
                          end
                      end ->
             ri_ExpressionAttributeValues p <> Some ∅ ->
             ri_ExpressionAttributeNames p <> Some ∅ ->
             binds_key id range options p).
  { intros p values Hv Hvalues Hve Hne. unfold binds_key. rewrite Hv.
    destruct (key_values_lookup id range (caller_values options) values Hvalues)
      as (H1 & H2 & H3).
    auto. }
  destruct (_debugMode cfg && truthy_str (opt_IndexName options)
            && negb (truthy_str (IndexPartitionKeyFieldName options)));
    destruct id as [idv|]; destruct range as [r|]; mrun;
    try (destruct (negb (truthy_str (sort_key_name Type_ options)))); mrun;
    try discriminate; intros [= <- _];
    (split; [|split; [reflexivity|]]);
    try discriminate;
    try (eapply Hgoal; cbn [ri_ExpressionAttributeValues ri_ExpressionAttributeNames];
         [ apply optional_map_default | reflexivity
         | apply optional_map_not_empty | apply optional_map_not_empty ]).
  all: intros _ _; cbn [ri_FilterExpression]; unfold and_join; cbn [truthy_str];
    destruct (FilterExpression options) as [[|a s]|]; reflexivity.
Qed.

End Requests.

(** ** The page loop, without a limit and when it fails *)

Lemma only_lookups_same {C : Type} (w w' : World C) :
  calls w' = calls w -> only_lookups w w'.
Proof. intros H. exists []. rewrite app_nil_r. auto. Qed.

Lemma only_lookups_sent {C : Type} (w w' : World C) (cmd : Command) :
  calls w' = calls w ++ [cmd] -> is_lookup cmd = true -> only_lookups w w'.
Proof. intros H Hl. exists [cmd]. split; [exact H|]. cbn. rewrite Hl. reflexivity. Qed.

Lemma only_lookups_trans {C : Type} (w1 w2 w3 : World C) :
  only_lookups w1 w2 -> only_lookups w2 w3 -> only_lookups w1 w3.
Proof.
  intros (n1 & H1 & Hl1) (n2 & H2 & Hl2). exists (n1 ++ n2). split.
  - rewrite H2, H1, app_assoc. reflexivity.
  - rewrite forallb_app, Hl1, Hl2. reflexivity.
Qed.

Section MorePages.

Context {C : Type} {SC : StorageClient C}.
Variable cfg : Config.
Variable mk : ReadInput -> Command.
Variable f : ReadInput -> C -> SdkResult ReadOutput * C.
Variable label : string.
Variable Type_ : ItemType.
Variable options : ReadOptions.

(** Without a limit the loop fetches every page the client serves. *)
Lemma page_loop_all (c : C) (params : ReadInput) (pages : list (list AttrMap)) :
  Limit options = None ->
  serves f c params pages ->
  forall (fuel : nat) (items : list Item) (w : World C),
    client w = c ->
    length pages <= fuel ->
    exists w' : World C,
      page_loop cfg fuel (fun p => send (mk p) (f p)) label Type_ options params (items, w)
      = (Ret tt, (items ++ hydrate Type_ (now w) (concat pages), w')) /\
      (exists new, calls w' = calls w ++ new /\ length new = length pages /\
                   Forall (fun cmd => exists p, cmd = mk p) new).
Proof.
  intros HN Hs.
  induction Hs as [c p c' rows Hf | c p c' rows k rest Hf Hrest IH];
    intros fuel items w Hc Hfuel;
    (destruct fuel as [|fuel]; [cbn in Hfuel; lia|]);
    rewrite page_loop_turn; rewrite Hc, Hf;
    cbn [fst snd Items LastEvaluatedKey from_option Datatypes.id].
  - rewrite bool_decide_eq_false_2 by (intros H; apply H; reflexivity).
    cbn [andb concat]. rewrite app_nil_r.
    eexists. split; [reflexivity|].
    exists [mk p]. split; [reflexivity|]. split; [reflexivity|].
    constructor; [eauto | constructor].
  - rewrite bool_decide_eq_true_2 by discriminate. cbn [andb].
    unfold under_limit at 1. rewrite HN.
    set (w1 := logged (page_log (_debugMode cfg) label) (sent (mk p) c' w)).
    destruct (IH fuel (items ++ hydrate Type_ (now w) rows) w1 eq_refl)
      as (w' & Hrun & new & Hcalls & Hlen & Hall).
    { cbn in Hfuel. lia. }
    exists w'. split.
    + rewrite Hrun. cbn [concat]. rewrite hydrate_app, app_assoc. reflexivity.
    + exists (mk p :: new). split; [|split].
      * rewrite Hcalls. unfold w1, logged, sent. cbn [calls].
        rewrite <- app_assoc. reflexivity.
      * cbn [length]. rewrite Hlen. reflexivity.
      * constructor; [eauto | exact Hall].
Qed.

(** Without a limit the loop reaches the request that the client rejects,
    with the items of the pages before it. *)
Lemma page_loop_fails (c : C) (params : ReadInput) (pages : list (list AttrMap))
    (e : JsError) (c' : C) :
  Limit options = None ->
  fails_after f c params pages e c' ->
  forall (fuel : nat) (items : list Item) (w : World C),
    client w = c ->
    length pages < fuel ->
    exists w' : World C,
      page_loop cfg fuel (fun p => send (mk p) (f p)) label Type_ options params (items, w)
      = (Throw e, (items ++ hydrate Type_ (now w) (concat pages), w')) /\
      client w' = c' /\ now w' = now w /\
      (exists new, calls w' = calls w ++ new /\ length new = S (length pages) /\
                   Forall (fun cmd => exists p, cmd = mk p) new).
Proof.
  intros HN Hs.
  induction Hs as [c p e c' Hf | c p c1 rows k rest e c' Hf Hrest IH];
    intros fuel items w Hc Hfuel;
    (destruct fuel as [|fuel]; [cbn in Hfuel; lia|]);
    rewrite page_loop_turn; rewrite Hc, Hf;
    cbn [fst snd Items LastEvaluatedKey from_option Datatypes.id].
  - cbn [concat]. unfold hydrate. cbn [map]. rewrite app_nil_r.
    eexists. split; [reflexivity|]. split; [reflexivity|]. split; [reflexivity|].
    exists [mk p]. split; [reflexivity|]. split; [reflexivity|].
    constructor; [eauto | constructor].
  - rewrite bool_decide_eq_true_2 by discriminate. cbn [andb].
    unfold under_limit at 1. rewrite HN.
    set (w1 := logged (page_log (_debugMode cfg) label) (sent (mk p) c1 w)).
    destruct (IH fuel (items ++ hydrate Type_ (now w) rows) w1 eq_refl)
      as (w' & Hrun & Hc' & Hnow & new & Hcalls & Hlen & Hall).
    { cbn in Hfuel. lia. }
    exists w'. split; [|split; [exact Hc'|split; [exact Hnow|]]].
    + rewrite Hrun. cbn [concat]. rewrite hydrate_app, app_assoc. reflexivity.
    + exists (mk p :: new). split; [|split].
      * rewrite Hcalls. unfold w1, logged, sent. cbn [calls].
        rewrite <- app_assoc. reflexivity.
      * cbn [length]. rewrite Hlen. reflexivity.
      * constructor; [eauto | exact Hall].
Qed.

Hypothesis mk_is_lookup : forall p, is_lookup (mk p) = true.

(** Whatever the client does, the loop sends lookups only. *)
Lemma page_loop_lookups (fuel : nat) :
  forall (params : ReadInput) (items : list Item) (w : World C),
    only_lookups w
      (snd (snd (page_loop cfg fuel (fun p => send (mk p) (f p)) label Type_ options params
                   (items, w)))).
Proof.
  induction fuel as [|fuel IH]; intros params items w.
  - cbn. apply only_lookups_same. reflexivity.
  - rewrite page_loop_turn.
    destruct (f params (client w)) as [[result|e] c1]; cbn [fst snd].
    + match goal with
      | |- context [if ?b then _ else _] => destruct b
      end.
      * eapply only_lookups_trans; [|apply IH].
        eapply only_lookups_sent; [reflexivity | apply mk_is_lookup].
      * cbn [fst snd]. eapply only_lookups_sent; [reflexivity | apply mk_is_lookup].
    + eapply only_lookups_sent; [reflexivity | apply mk_is_lookup].
Qed.

(** With fuel, the first command the loop sends is the request it was
    given. *)
Lemma page_loop_first (fuel : nat) (params : ReadInput) (items : list Item) (w : World C) :
  exists rest,
    calls (snd (snd (page_loop cfg (S fuel) (fun p => send (mk p) (f p)) label Type_ options
                       params (items, w))))
    = calls w ++ mk params :: rest.
Proof.
  rewrite page_loop_turn.
  destruct (f params (client w)) as [[result|e] c1]; cbn [fst snd].
  - match goal with
    | |- context [if ?b then _ else _] => destruct b
    end.
    + match goal with
      | |- context [page_loop cfg fuel _ label Type_ options ?p (?i, ?w1)] =>
          destruct (page_loop_lookups fuel p i w1) as (new & Hcalls & _)
      end.
      exists new. rewrite Hcalls. cbn [logged sent calls]. rewrite <- app_assoc. reflexivity.
    + exists []. reflexivity.
  - exists []. reflexivity.
Qed.

End MorePages.

Section ReadOutcomes.

Context {C : Type} {SC : StorageClient C}.
Variable cfg : Config.

(** [try { loop } catch (error) { handler }] around the accumulator, then
    [return items]. *)
Lemma with_local_catch (loop : M (list Item * World C) unit)
    (handler : JsError -> M (list Item * World C) unit) (w : World C) :
  with_local [] (try_catch loop handler ;; get_local) w =
  match loop ([], w) with
  | (Ret _, s) => (Ret (fst s), snd s)
  | (Throw e, s) =>
      match handler e s with
      | (Ret _, s2) => (Ret (fst s2), snd s2)
      | (Throw e2, s2) => (Throw e2, snd s2)
      | (Pending, s2) => (Pending, snd s2)
      end
  | (Pending, s) => (Pending, snd s)
  end.
Proof.
  unfold with_local, bind, try_catch, get_local.
  destruct (loop ([], w)) as [[[]|e|] s]; try reflexivity.
  destruct (handler e s) as [[[]|e2|] s2]; reflexivity.
Qed.

(** The [catch] block of a read keeps the items and sends lookups only. *)
Lemma read_catch_lookups (label : string) (options : ReadOptions) (e : JsError)
    (items : list Item) (w : World C) :
  let r := read_catch cfg label options e (items, w) in
  fst (snd r) = items /\ only_lookups w (snd (snd r)) /\ fst r <> Pending.
Proof.
  unfold read_catch. destruct (is_ResourceNotFound e); mrun.
  - destruct (_debugMode cfg); mrun.
    + pose proof (ListTables_calls
                    {| client := client w; calls := calls w;
                       logs := logs w ++ [ {| level := LWarn;
                                              message := label ++ ": ResourceNotFoundException - the Table does not exist";
                                              logged_error := None |} ];
                       now := now w |}) as Hl.
      pose proof (ListTables_settles
                    {| client := client w; calls := calls w;
                       logs := logs w ++ [ {| level := LWarn;
                                              message := label ++ ": ResourceNotFoundException - the Table does not exist";
                                              logged_error := None |} ];
                       now := now w |}) as Hs.
      destruct (ListTables _) as [[names|e1|] w1]; cbn [fst snd calls] in *.
      * destruct (negb (bool_decide (IgnoreTableNotFound options = Some true)));
          cbn [fst snd]; (split; [reflexivity|]; split; [|discriminate]);
          eapply only_lookups_sent; cbn [calls]; eauto.
      * split; [reflexivity|]. split; [|discriminate].
        eapply only_lookups_sent; cbn [calls]; eauto.
      * contradiction.
    + destruct (negb (bool_decide (IgnoreTableNotFound options = Some true)));
        cbn [fst snd]; (split; [reflexivity|]; split; [|discriminate]);
        apply only_lookups_same; reflexivity.
  - split; [reflexivity|]. split; [|discriminate]. apply only_lookups_same. reflexivity.
Qed.

(** Outside debug mode the [catch] block of a read sends nothing. *)
Lemma read_catch_quiet (label : string) (options : ReadOptions) (e : JsError)
    (items : list Item) (w : World C) :
  _debugMode cfg = false ->
  exists w' : World C,
    read_catch cfg label options e (items, w)
    = (if is_ResourceNotFound e && bool_decide (IgnoreTableNotFound options = Some true)
       then Ret tt else Throw e, (items, w')) /\
    calls w' = calls w /\ client w' = client w.
Proof.
  intros Hdebug. unfold read_catch. rewrite Hdebug.
  destruct (is_ResourceNotFound e); mrun.
  - destruct (bool_decide (IgnoreTableNotFound options = Some true));
      cbn [negb andb]; eexists; (split; [reflexivity|]); cbn; auto.
  - eexists. split; [reflexivity|]. cbn. auto.
Qed.

Lemma Query_run (fuel : nat) (Type_ : ItemType) (id : JsVal) (range : option JsVal)
    (options : ReadOptions) (w w0 : World C) (params : ReadInput) :
  Query_params cfg Type_ id range options w = (Ret params, w0) ->
  Query cfg fuel Type_ id range options w
  = with_local []
      (try_catch
         (page_loop cfg fuel (fun p => send (QueryCommand p) (query p)) "Query" Type_ options
            params)
         (read_catch cfg "Query" options) ;;
       get_local) (logged [entry LDebug "Query" None] w0).
Proof.
  intros Hp. unfold Query. unfold bind at 1. rewrite Hp. reflexivity.
Qed.

Lemma Scan_run (fuel : nat) (Type_ : ItemType) (id : option JsVal) (range : option JsVal)
    (options : ReadOptions) (w w0 : World C) (params : ReadInput) :
  Scan_params cfg Type_ id range options w = (Ret params, w0) ->
  Scan cfg fuel Type_ id range options w
  = with_local []
      (try_catch
         (page_loop cfg fuel (fun p => send (ScanCommand p) (scan p)) "Scan" Type_ options
            params)
         (read_catch cfg "Scan" options) ;;
       get_local) (logged [entry LDebug "Scan" None] w0).
Proof.
  intros Hp. unfold Scan. unfold bind at 1. rewrite Hp. reflexivity.
Qed.

End ReadOutcomes.

Section ReadBodies.

Context {C : Type} {SC : StorageClient C}.
Variable cfg : Config.
Variable mk : ReadInput -> Command.
Variable f : ReadInput -> C -> SdkResult ReadOutput * C.
Variable label : string.
Variable Type_ : ItemType.
Variable options : ReadOptions.
Hypothesis mk_is_lookup : forall p, is_lookup (mk p) = true.

Lemma read_body_lookups (fuel : nat) (params : ReadInput) (w : World C) :
  only_lookups w
    (snd (with_local []
            (try_catch
               (page_loop cfg fuel (fun p => send (mk p) (f p)) label Type_ options params)
               (read_catch cfg label options) ;;
             get_local) w)).
Proof.
  rewrite with_local_catch.
  pose proof (page_loop_lookups cfg mk f label Type_ options mk_is_lookup fuel params [] w)
    as Hloop.
  destruct (page_loop cfg fuel _ label Type_ options params ([], w))
    as [[[]|e|] [items w1]]; cbn [fst snd] in *; try exact Hloop.
  destruct (read_catch_lookups cfg label options e items w1) as (_ & Hcatch & _).
  destruct (read_catch cfg label options e (items, w1)) as [[[]|e2|] [items2 w2]];
    cbn [fst snd] in *; eapply only_lookups_trans; eassumption.
Qed.

Lemma read_body_first (fuel : nat) (params : ReadInput) (w : World C) :
  exists rest,
    calls (snd (with_local []
                  (try_catch
                     (page_loop cfg (S fuel) (fun p => send (mk p) (f p)) label Type_ options
                        params)
                     (read_catch cfg label options) ;;
                   get_local) w))
    = calls w ++ mk params :: rest.
Proof.
  rewrite with_local_catch.
  destruct (page_loop_first cfg mk f label Type_ options mk_is_lookup fuel params [] w)
    as (rest & Hloop).
  destruct (page_loop cfg (S fuel) _ label Type_ options params ([], w))
    as [[[]|e|] [items w1]]; cbn [fst snd] in *; try (exists rest; exact Hloop).
  destruct (read_catch_lookups cfg label options e items w1) as (_ & (more & Hcatch & _) & _).
  destruct (read_catch cfg label options e (items, w1)) as [[[]|e2|] [items2 w2]];
    cbn [fst snd] in *; exists (rest ++ more); rewrite Hcatch, Hloop, <- app_assoc;
    reflexivity.
Qed.

(** Without a limit and over a client that serves [pages], the read returns
    the items of all of them. *)
Lemma read_body_all (fuel : nat) (params : ReadInput) (w : World C)
    (pages : list (list AttrMap)) :
  Limit options = None ->
  serves f (client w) params pages ->
  length pages <= fuel ->
  let r := with_local []
             (try_catch
                (page_loop cfg fuel (fun p => send (mk p) (f p)) label Type_ options params)
                (read_catch cfg label options) ;;
              get_local) w in
  fst r = Ret (hydrate Type_ (now w) (concat pages)) /\
  exists new, calls (snd r) = calls w ++ new /\ length new = length pages /\
              Forall (fun cmd => exists p, cmd = mk p) new.
Proof.
  intros HN Hs Hfuel r. subst r. rewrite with_local_catch.
  destruct (page_loop_all cfg mk f label Type_ options (client w) params pages HN Hs
              fuel [] w eq_refl Hfuel) as (w' & Hrun & Hnew).
  rewrite Hrun. cbn [fst snd app]. auto.
Qed.

(** Without a limit and over a client that serves [pages] and rejects the
    next request, outside debug mode: a missing table that the options say
    to ignore gives the items fetched so far; any other rejection, and a
    missing table otherwise, is raised. *)
Lemma read_body_fails (fuel : nat) (params : ReadInput) (w : World C)
    (pages : list (list AttrMap)) (e : JsError) (c' : C) :
  Limit options = None ->
  _debugMode cfg = false ->
  fails_after f (client w) params pages e c' ->
  length pages < fuel ->
  let r := with_local []
             (try_catch
                (page_loop cfg fuel (fun p => send (mk p) (f p)) label Type_ options params)
                (read_catch cfg label options) ;;
              get_local) w in
  fst r = (if is_ResourceNotFound e && bool_decide (IgnoreTableNotFound options = Some true)
           then Ret (hydrate Type_ (now w) (concat pages)) else Throw e) /\
  client (snd r) = c' /\
  exists new, calls (snd r) = calls w ++ new /\ length new = S (length pages) /\
              Forall (fun cmd => exists p, cmd = mk p) new.
Proof.
  intros HN Hdebug Hs Hfuel r. subst r. rewrite with_local_catch.
  destruct (page_loop_fails cfg mk f label Type_ options (client w) params pages e c' HN Hs
              fuel [] w eq_refl Hfuel) as (w' & Hrun & Hc' & _ & new & Hcalls & Hnew).
  rewrite Hrun. cbn [app].
  destruct (read_catch_quiet cfg label options e (hydrate Type_ (now w) (concat pages)) w'
              Hdebug) as (w2 & Hcatch & Hcalls2 & Hc2).
  rewrite Hcatch.
  destruct (is_ResourceNotFound e && bool_decide (IgnoreTableNotFound options = Some true));
    cbn [fst snd]; (split; [reflexivity|]; split; [congruence|]);
    exists new; rewrite Hcalls2; auto.
Qed.

End ReadBodies.

(** X21.  The request of a read.  In the request [Query] sends first the
    placeholder [:partitionkeyval] carries the id and [:sortkeyval] the range
    value, when one was given, whatever the caller bound to these names in
    [ExpressionAttributeValues]; every other value of the caller is passed
    on, and so is the caller's filter expression.  The same holds for the
    request [Scan] sends first, for the id and the range value it was given.
    Neither request carries an empty object of values or of names. *)
Theorem read_request_binds_key {C : Type} {SC : StorageClient C} (cfg : Config)
    (fuel : nat) (Type_ : ItemType) (range : option JsVal) (options : ReadOptions)
    (w w0 : World C) (params : ReadInput) :
  (forall id : JsVal,
      Query_params cfg Type_ id range options w = (Ret params, w0) ->
      binds_key (Some id) range options params /\
      ri_FilterExpression params = FilterExpression options /\
      exists rest,
        calls (snd (Query cfg (S fuel) Type_ id range options w))
        = calls w ++ QueryCommand params :: rest) /\
  (forall id : option JsVal,
      Scan_params cfg Type_ id range options w = (Ret params, w0) ->
      binds_key id range options params /\
      exists rest,
        calls (snd (Scan cfg (S fuel) Type_ id range options w))
        = calls w ++ ScanCommand params :: rest).
Proof.
  split.
  - intros id Hp.
    destruct (Query_params_binds_key cfg Type_ id range options w w0 params Hp)
      as (Hkey & Hfilter & _).
    split; [exact Hkey|]. split; [exact Hfilter|].
    rewrite (Query_run cfg (S fuel) Type_ id range options w w0 params Hp).
    pose proof (Query_params_world cfg Type_ id range options w) as Hw.
    rewrite Hp in Hw. cbn [snd] in Hw. destruct Hw as (_ & Hcalls0 & _).
    destruct (read_body_first cfg QueryCommand query "Query" Type_ options
                (fun _ => eq_refl) fuel params (logged [entry LDebug "Query" None] w0))
      as (rest & Hrest).
    exists rest. rewrite Hrest. cbn [logged calls]. rewrite Hcalls0. reflexivity.
  - intros id Hp.
    destruct (Scan_params_binds_key cfg Type_ id range options w w0 params Hp)
      as (Hkey & _).
    split; [exact Hkey|].
    rewrite (Scan_run cfg (S fuel) Type_ id range options w w0 params Hp).
    pose proof (Scan_params_world cfg Type_ id range options w) as Hw.
    rewrite Hp in Hw. cbn [snd] in Hw. destruct Hw as (_ & Hcalls0 & _).
    destruct (read_body_first cfg ScanCommand scan "Scan" Type_ options
                (fun _ => eq_refl) fuel params (logged [entry LDebug "Scan" None] w0))
      as (rest & Hrest).
    exists rest. rewrite Hrest. cbn [logged calls]. rewrite Hcalls0. reflexivity.
Qed.

Lemma read_request_binds_key_witness :
  exists params : ReadInput,
    fst (Query_params Sample.cfg Sample.Thing (VStr "a1") None Sample2.filtered
           (Scripted.world [])) = Ret params /\
    default ∅ (ri_ExpressionAttributeValues params) !! ":partitionkeyval" = Some (VStr "a1") /\
    default ∅ (ri_ExpressionAttributeValues params) !! ":min" = Some (VNum 3).
Proof.
  eexists. split; [reflexivity|].
  destruct (proj1 (read_request_binds_key Sample.cfg 0 Sample.Thing None Sample2.filtered
                     (Scripted.world []) _ _) (VStr "a1") eq_refl)
    as ((Hid & _ & Hother & _) & _).
  split.
  - apply Hid. reflexivity.
  - rewrite Hother by discriminate. reflexivity.
Defined.

(** X22.  A range value given to [Query] or to [Scan] for a class without
    a range field, with no [IndexRangeFieldName] in the options: the error
    ['Range value was provided but Range Field name cannot be determined.']
    is raised before anything is sent to the client. *)
Theorem range_without_sort_key {C : Type} {SC : StorageClient C} (cfg : Config)
    (fuel : nat) (Type_ : ItemType) (r : JsVal) (options : ReadOptions) (w : World C) :
  is_empty_string r = false ->
  truthy_str (sort_key_name Type_ options) = false ->
  (forall id : JsVal,
      is_empty_string id = false ->
      let q := Query cfg fuel Type_ id (Some r) options w in
      fst q = Throw (Error range_msg) /\
      calls (snd q) = calls w /\ client (snd q) = client w) /\
  (forall id : option JsVal,
      is_empty_string_opt id = false ->
      let s := Scan cfg fuel Type_ id (Some r) options w in
      fst s = Throw (Error range_msg) /\
      calls (snd s) = calls w /\ client (snd s) = client w).
Proof.
  intros Hr Hsort. split.
  - intros id Hid q. subst q. unfold Query, Query_params.
    rewrite Hid. cbn [is_empty_string_opt]. rewrite Hr, Hsort. cbn [negb].
    destruct (_debugMode cfg && truthy_str (opt_IndexName options)
              && negb (truthy_str (IndexPartitionKeyFieldName options)));
      mrun; auto.
  - intros id Hid s. subst s. unfold Scan, Scan_params.
    rewrite Hid. cbn [is_empty_string_opt]. rewrite Hr, Hsort. cbn [negb].
    destruct (_debugMode cfg && truthy_str (opt_IndexName options)
              && negb (truthy_str (IndexPartitionKeyFieldName options)));
      destruct id as [idv|]; mrun; auto.
Qed.

Lemma range_without_sort_key_witness :
  fst (Query Sample.cfg 1 Sample.Thing (VStr "a1") (Some (VNum 7)) no_options
         (Scripted.world [Scripted.Page {| Items := None; LastEvaluatedKey := None |}]))
  = Throw (Error range_msg).
Proof.
  refine (proj1 (proj1 (range_without_sort_key Sample.cfg 1 Sample.Thing (VNum 7) no_options
                          (Scripted.world [Scripted.Page {| Items := None;
                                                            LastEvaluatedKey := None |}])
                          _ _) (VStr "a1") _)); reflexivity.
Defined.

(** X23.  A [Query] or a [Scan] without [Limit], over a client that serves
    the pages [pages], returns the items of all the pages, in order, and
    sends one request for each page. *)
Theorem read_without_limit_returns_all {C : Type} {SC : StorageClient C} (cfg : Config)
    (fuel : nat) (Type_ : ItemType) (range : option JsVal) (options : ReadOptions)
    (w w0 : World C) (params : ReadInput) (pages : list (list AttrMap)) :
  Limit options = None ->
  length pages <= fuel ->
  (forall id : JsVal,
      Query_params cfg Type_ id range options w = (Ret params, w0) ->
      serves query (client w0) params pages ->
      let r := Query cfg fuel Type_ id range options w in
      fst r = Ret (hydrate Type_ (now w) (concat pages)) /\
      exists new, calls (snd r) = calls w ++ new /\ length new = length pages /\
                  Forall (fun cmd => exists p, cmd = QueryCommand p) new) /\
  (forall id : option JsVal,
      Scan_params cfg Type_ id range options w = (Ret params, w0) ->
      serves scan (client w0) params pages ->
      let r := Scan cfg fuel Type_ id range options w in
      fst r = Ret (hydrate Type_ (now w) (concat pages)) /\
      exists new, calls (snd r) = calls w ++ new /\ length new = length pages /\
                  Forall (fun cmd => exists p, cmd = ScanCommand p) new).
Proof.
  intros HN Hfuel. split.
  - intros id Hp Hs r. subst r.
    rewrite (Query_run cfg fuel Type_ id range options w w0 params Hp).
    pose proof (Query_params_world cfg Type_ id range options w) as Hw.
    rewrite Hp in Hw. cbn [snd] in Hw. destruct Hw as (_ & Hcalls0 & Hnow0).
    destruct (read_body_all cfg QueryCommand query "Query" Type_ options
                fuel params (logged [entry LDebug "Query" None] w0) pages HN Hs Hfuel)
      as (Hret & new & Hcalls & Hnew).
    cbn [logged now calls] in Hret, Hcalls. rewrite Hnow0 in Hret. rewrite Hcalls0 in Hcalls.
    split; [exact Hret|]. exists new. auto.
  - intros id Hp Hs r. subst r.
    rewrite (Scan_run cfg fuel Type_ id range options w w0 params Hp).
    pose proof (Scan_params_world cfg Type_ id range options w) as Hw.
    rewrite Hp in Hw. cbn [snd] in Hw. destruct Hw as (_ & Hcalls0 & Hnow0).
    destruct (read_body_all cfg ScanCommand scan "Scan" Type_ options
                fuel params (logged [entry LDebug "Scan" None] w0) pages HN Hs Hfuel)
      as (Hret & new & Hcalls & Hnew).
    cbn [logged now calls] in Hret, Hcalls. rewrite Hnow0 in Hret. rewrite Hcalls0 in Hcalls.
    split; [exact Hret|]. exists new. auto.
Qed.

Lemma read_without_limit_returns_all_witness :
  fst (Scan Sample.cfg 3 Sample.Thing None None no_options
         (Scripted.world Sample.paged_script))
  = Ret (hydrate Sample.Thing 0 (concat Sample.pages)).
Proof.
  refine (proj1 (proj2 (read_without_limit_returns_all Sample.cfg 3 Sample.Thing None
                          no_options (Scripted.world Sample.paged_script)
                          (Scripted.world Sample.paged_script) _ Sample.pages _ _)
                   None _ _)).
  - reflexivity.
  - cbn. lia.
  - reflexivity.
  - eapply serves_more; [reflexivity|].
    eapply serves_more; [reflexivity|].
    eapply serves_last. reflexivity.
Defined.

(** X24.  A [Query] or a [Scan] without [Limit], outside debug mode, over
    a client that serves some pages and rejects the request after them.  If
    the rejection is [ResourceNotFoundException] and the options say
    [IgnoreTableNotFound: true], the read returns the items of the pages it
    had fetched, none when the first request was rejected.  Otherwise the
    rejection is raised and those items are lost. *)
Theorem read_rejected {C : Type} {SC : StorageClient C} (cfg : Config)
    (fuel : nat) (Type_ : ItemType) (range : option JsVal) (options : ReadOptions)
    (w w0 : World C) (params : ReadInput) (pages : list (list AttrMap))
    (e : JsError) (c' : C) :
  Limit options = None ->
  _debugMode cfg = false ->
  length pages < fuel ->
  let outcome :=
    if is_ResourceNotFound e && bool_decide (IgnoreTableNotFound options = Some true)
    then Ret (hydrate Type_ (now w) (concat pages)) else Throw e in
  (forall id : JsVal,
      Query_params cfg Type_ id range options w = (Ret params, w0) ->
      fails_after query (client w0) params pages e c' ->
      fst (Query cfg fuel Type_ id range options w) = outcome) /\
  (forall id : option JsVal,
      Scan_params cfg Type_ id range options w = (Ret params, w0) ->
      fails_after scan (client w0) params pages e c' ->
      fst (Scan cfg fuel Type_ id range options w) = outcome).
Proof.
  intros HN Hdebug Hfuel outcome. split.
  - intros id Hp Hs.
    rewrite (Query_run cfg fuel Type_ id range options w w0 params Hp).
    pose proof (Query_params_world cfg Type_ id range options w) as Hw.
    rewrite Hp in Hw. cbn [snd] in Hw. destruct Hw as (_ & _ & Hnow0).
    destruct (read_body_fails cfg QueryCommand query "Query" Type_ options
                fuel params (logged [entry LDebug "Query" None] w0) pages e c'
                HN Hdebug Hs Hfuel) as (Hret & _).
    cbn [logged now] in Hret. rewrite Hnow0 in Hret. exact Hret.
  - intros id Hp Hs.
    rewrite (Scan_run cfg fuel Type_ id range options w w0 params Hp).
    pose proof (Scan_params_world cfg Type_ id range options w) as Hw.
    rewrite Hp in Hw. cbn [snd] in Hw. destruct Hw as (_ & _ & Hnow0).
    destruct (read_body_fails cfg ScanCommand scan "Scan" Type_ options
                fuel params (logged [entry LDebug "Scan" None] w0) pages e c'
                HN Hdebug Hs Hfuel) as (Hret & _).
    cbn [logged now] in Hret. rewrite Hnow0 in Hret. exact Hret.
Qed.

Lemma read_rejected_witness :
  fst (Query Sample.cfg 3 Sample.Thing (VStr "a1") None Sample2.lenient
         (Scripted.world
            [ Scripted.Page {| Items := Some [Sample.row "1"; Sample.row "2"];
                               LastEvaluatedKey := Sample.cursor "2" |};
              Scripted.Reject Sample.not_found ]))
  = Ret (hydrate Sample.Thing 0 [Sample.row "1"; Sample.row "2"]) /\
  fst (Query Sample.cfg 3 Sample.Thing (VStr "a1") None no_options
         (Service.world Sample.empty_service))
  = Throw (Service.fault "ResourceNotFoundException").
Proof.
  split.
  - refine (proj1 (read_rejected Sample.cfg 3 Sample.Thing None Sample2.lenient
                     (Scripted.world
                        [ Scripted.Page {| Items := Some [Sample.row "1"; Sample.row "2"];
                                           LastEvaluatedKey := Sample.cursor "2" |};
                          Scripted.Reject Sample.not_found ])
                     (Scripted.world
                        [ Scripted.Page {| Items := Some [Sample.row "1"; Sample.row "2"];
                                           LastEvaluatedKey := Sample.cursor "2" |};
                          Scripted.Reject Sample.not_found ])
                     _ [[Sample.row "1"; Sample.row "2"]] Sample.not_found [] _ _ _)
              (VStr "a1") _ _).
    + reflexivity.
    + reflexivity.
    + cbn. lia.
    + reflexivity.
    + eapply fails_later; [reflexivity|]. apply fails_now. reflexivity.
  - refine (proj1 (read_rejected Sample.cfg 3 Sample.Thing None no_options
                     (Service.world Sample.empty_service)
                     (Service.world Sample.empty_service)
                     _ [] (Service.fault "ResourceNotFoundException") Sample.empty_service
                     _ _ _)
              (VStr "a1") _ _).
    + reflexivity.
    + reflexivity.
    + cbn. lia.
    + reflexivity.
    + apply fails_now. reflexivity.
Defined.

Section Lookups.

Context {C : Type} {SC : StorageClient C}.
Variable cfg : Config.

Lemma Query_lookups (fuel : nat) (Type_ : ItemType) (id : JsVal) (range : option JsVal)
    (options : ReadOptions) (w : World C) :
  only_lookups w (snd (Query cfg fuel Type_ id range options w)).
Proof.
  pose proof (Query_params_world cfg Type_ id range options w) as Hw.
  destruct (Query_params cfg Type_ id range options w) as [[params|e|] w0] eqn:Hp;
    cbn [snd] in Hw; destruct Hw as (_ & Hcalls0 & _).
  - rewrite (Query_run cfg fuel Type_ id range options w w0 params Hp).
    eapply only_lookups_trans;
      [|apply (read_body_lookups cfg QueryCommand query "Query" Type_ options
                 (fun _ => eq_refl))].
    apply only_lookups_same. exact Hcalls0.
  - unfold Query. unfold bind at 1. rewrite Hp. apply only_lookups_same. exact Hcalls0.
  - unfold Query. unfold bind at 1. rewrite Hp. apply only_lookups_same. exact Hcalls0.
Qed.

Lemma Scan_lookups (fuel : nat) (Type_ : ItemType) (id : option JsVal)
    (range : option JsVal) (options : ReadOptions) (w : World C) :
  only_lookups w (snd (Scan cfg fuel Type_ id range options w)).
Proof.
  pose proof (Scan_params_world cfg Type_ id range options w) as Hw.
  destruct (Scan_params cfg Type_ id range options w) as [[params|e|] w0] eqn:Hp;
    cbn [snd] in Hw; destruct Hw as (_ & Hcalls0 & _).
  - rewrite (Scan_run cfg fuel Type_ id range options w w0 params Hp).
    eapply only_lookups_trans;
      [|apply (read_body_lookups cfg ScanCommand scan "Scan" Type_ options
                 (fun _ => eq_refl))].
    apply only_lookups_same. exact Hcalls0.
  - unfold Scan. unfold bind at 1. rewrite Hp. apply only_lookups_same. exact Hcalls0.
  - unfold Scan. unfold bind at 1. rewrite Hp. apply only_lookups_same. exact Hcalls0.
Qed.

Lemma GetItems_lookups (fuel : nat) (Type_ : ItemType) (id : option JsVal)
    (range : option JsVal) (options : ReadOptions) (w : World C) :
  only_lookups w (snd (GetItems cfg fuel Type_ id range options w)).
Proof.
  unfold GetItems. destruct id as [idv|]; unfold bind at 1; unfold log at 1.
  - eapply only_lookups_trans; [|apply Query_lookups]. apply only_lookups_same. reflexivity.
  - eapply only_lookups_trans; [|apply Scan_lookups]. apply only_lookups_same. reflexivity.
Qed.

Lemma GetItem_lookups (fuel : nat) (Type_ : ItemType) (id : JsVal) (range : option JsVal)
    (options : ReadOptions) (w : World C) :
  only_lookups w (snd (GetItem cfg fuel Type_ id range options w)).
Proof.
  unfold GetItem.
  destruct (is_empty_string id); [apply only_lookups_same; reflexivity|].
  destruct (is_empty_string_opt range); [apply only_lookups_same; reflexivity|].
  destruct (truthy_str (opt_IndexName options)).
  - unfold bind at 1.
    pose proof (GetItems_lookups fuel Type_ (Some id) range (GetItem_index_options options) w)
      as Hitems.
    destruct (GetItems cfg fuel Type_ (Some id) range (GetItem_index_options options) w)
      as [[items|e|] w1]; exact Hitems.
  - mrun. destruct (_CreateKeyMapping Type_ id range) as [Key|e]; mrun;
      [|apply only_lookups_same; reflexivity].
    destruct (getItem _ (client w)) as [[[attrs|]|e] c1]; mrun.
    + eapply only_lookups_sent; reflexivity.
    + destruct (Required options) as [[[|]|]|]; cbn [default from_option Datatypes.id];
        mrun; eapply only_lookups_sent; reflexivity.
    + destruct (is_ResourceNotFound e); mrun; [|eapply only_lookups_sent; reflexivity].
      destruct (_debugMode cfg); mrun.
      * match goal with
        | |- context [ListTables ?w1] =>
            pose proof (ListTables_calls w1) as Hl;
            destruct (ListTables w1) as [[names|e1|] w2]
        end; cbn [fst snd calls] in *;
          try (destruct (negb (default false (IgnoreTableNotFound options))));
          cbn [fst snd calls];
          (eexists [GetItemCommand _; ListTablesCommand]; split;
           [ cbn [calls]; rewrite Hl, <- app_assoc; reflexivity | reflexivity ]).
      * destruct (negb (default false (IgnoreTableNotFound options)));
          eapply only_lookups_sent; reflexivity.
Qed.

End Lookups.

(** X25.  Reads do not write.  Whatever the client answers and whatever
    the arguments and options, the commands that [GetItem], [GetItems],
    [Query] and [Scan] send are get, query, scan and list-tables commands
    only: no command that creates, updates or deletes a table or an item. *)
Theorem reads_send_lookups_only {C : Type} {SC : StorageClient C} (cfg : Config)
    (fuel : nat) (Type_ : ItemType) (range : option JsVal) (options : ReadOptions)
    (w : World C) :
  (forall id : JsVal,
      only_lookups w (snd (GetItem cfg fuel Type_ id range options w)) /\
      only_lookups w (snd (Query cfg fuel Type_ id range options w))) /\
  (forall id : option JsVal,
      only_lookups w (snd (GetItems cfg fuel Type_ id range options w)) /\
      only_lookups w (snd (Scan cfg fuel Type_ id range options w))).
Proof.
  split; intros id; split.
  - apply GetItem_lookups.
  - apply Query_lookups.
  - apply GetItems_lookups.
  - apply Scan_lookups.
Qed.

(** ** Writes that are accepted *)

Section MoreWrites.

Context {C : Type} {SC : StorageClient C}.
Variable cfg : Config.

(** [PutItem] never touches an item whose [Version()] is [undefined]. *)
Lemma PutItem_unversioned_untouched (fuel : nat) :
  forall (options : IPutItemOptions) (item : Item) (w : World C),
    Version item = None ->
    fst (snd (PutItem cfg fuel options (item, w))) = item.
Proof.
  induction fuel as [|fuel IH]; intros options item w Hv.
  - reflexivity.
  - rewrite PutItem_run, Hv. cbn [guard_refusal].
    destruct (refusal (own_values item)) as [e|]; [reflexivity|].
    cbn zeta.
    destruct (fst (putItem _ (client w))) as [u|error]; [reflexivity|].
    unfold PutItem_catch. mrun.
    destruct (bool_decide (opt_CreateTableIfNotExists options = Some true)); mrun;
      [|reflexivity].
    destruct (Class options) as [Class_|]; mrun; [|reflexivity].
    destruct (is_ResourceNotFound error); mrun; [|reflexivity].
    match goal with
    | |- context [ListTables ?w1] => destruct (ListTables w1) as [[names|e|] w2]
    end; mrun; try reflexivity.
    destruct (includes names _); mrun; [reflexivity|].
    match goal with
    | |- context [InitializeTable cfg fuel Class_ (Some names) ?o ?w3] =>
        destruct (InitializeTable cfg fuel Class_ (Some names) o w3) as [[[]|e|] w4]
    end; mrun; try reflexivity.
    match goal with
    | |- context [PutItem cfg fuel ?o (item, ?w5)] =>
        specialize (IH o item w5 Hv);
        destruct (PutItem cfg fuel o (item, w5)) as [[r|e|] [item6 w6]]
    end; cbn [fst snd] in *; exact IH.
Qed.

(** The write that [PutItem] sends first, when it sends one. *)
Lemma PutItem_first_call (fuel : nat) (options : IPutItemOptions) (item : Item)
    (w : World C) :
  match Version item with Some v => incrementable v = true | None => True end ->
  marshallable (incremented (now w) item) ->
  exists rest,
    calls (snd (snd (PutItem cfg (S fuel) options (item, w))))
    = calls w
      ++ PutItemCommand (PutItem_params cfg (Version item) (incremented (now w) item))
      :: rest.
Proof.
  intros Hinc Hm. rewrite (PutItem_write cfg fuel options item w Hinc Hm). cbn zeta.
  destruct (putItem _ (client w)) as [[u|error] c2]; cbn [fst snd].
  - exists []. reflexivity.
  - match goal with
    | |- context [PutItem_catch cfg _ fuel ?ov ?p options error (?i1, ?w1)] =>
        destruct (PutItem_catch_calls cfg fuel ov p options error i1 w1)
          as (rest & Hrest & _)
    end.
    exists rest. rewrite Hrest. cbn [sent calls logged].
    rewrite <- app_assoc. reflexivity.
Qed.

End MoreWrites.

(** X26.  A write that the client accepts, and the write after it.  For a
    record whose version is a number [v] with [v + 1] not negative, and which
    the marshaller accepts once its version is incremented, [PutItem] returns
    [true]; the record is left at version [v + 1], marked updated at the
    clock of the call; the write was the only command sent.  When [PutItem]
    is called again with that record and the marshaller accepts it at
    [v + 2], the write it sends is guarded by [version = :version] with
    [:version] bound to the very value of the [version] attribute that the
    write before stored, and carries [v + 2]; when the marshaller refuses it,
    nothing is sent and the record is left at [v + 2].  For an integer [n]
    from [-1] to [Number.MAX_SAFE_INTEGER - 2], [v + 2] is [n + 2]. *)
Theorem PutItem_accepted_then_next {C : Type} {SC : StorageClient C} (cfg : Config)
    (fuel : nat) (options : IPutItemOptions) (item : Item) (w : World C) (v : JsNum)
    (c1 : C) :
  Version item = Some v ->
  incrementable v = true ->
  let item1 := MarkUpdated (now w) (set_version (Num_succ v) item) in
  marshallable item1 ->
  let params := PutItem_params cfg (Some v) item1 in
  putItem params (client w) = (inl tt, c1) ->
  let r := PutItem cfg (S fuel) options (item, w) in
  fst r = Ret true /\
  fst (snd r) = item1 /\
  client (snd (snd r)) = c1 /\
  calls (snd (snd r)) = calls w ++ [PutItemCommand params] /\
  (forall (fuel' : nat) (options' : IPutItemOptions) (w' : World C),
      let item2 := MarkUpdated (now w') (set_version (Num_succ (Num_succ v)) item1) in
      let r' := PutItem cfg (S fuel') options' (fst (snd r), w') in
      (marshallable item2 ->
       exists (params' : PutItemInput) (rest : list Command),
         calls (snd (snd r')) = calls w' ++ PutItemCommand params' :: rest /\
         pi_ConditionExpression params' = Some "version = :version" /\
         pi_ExpressionAttributeValues params' ≫= (.!! ":version")
         = pi_Item params !! "version" /\
         pi_Item params' !! "version" = Some (VNum (Num_succ (Num_succ v)))) /\
      (forall e : JsError,
          marshall_instance item2 = inr e ->
          fst r' = Throw e /\
          calls (snd (snd r')) = calls w' /\
          Version (fst (snd r')) = Some (Num_succ (Num_succ v)))) /\
  (forall n : Z,
      v = Int n -> (-1 <= n <= MAX_SAFE_INTEGER - 2)%Z ->
      Num_succ (Num_succ v) = Int (n + 2)).
Proof.
  intros Hv Hinc item1 Hm params Hput r.
  assert (Hrun : r = (Ret true,
                      (item1, logged [entry LDebug "PutItemOutput:" None]
                                (sent (PutItemCommand params) c1
                                   (logged (before_write (Some v) item1) w))))).
  { subst r. rewrite (PutItem_write cfg fuel options item w);
      unfold incremented; rewrite Hv; [ | exact Hinc | exact Hm ].
    cbn zeta. fold item1. fold params. rewrite Hput. reflexivity. }
  rewrite Hrun. cbn [fst snd logged sent client calls].
  split; [reflexivity|]. split; [reflexivity|]. split; [reflexivity|].
  split; [reflexivity|]. split.
  - intros fuel' options' w'.
    set (item2 := MarkUpdated (now w') (set_version (Num_succ (Num_succ v)) item1)).
    assert (Hv1 : Version item1 = Some (Num_succ v)) by reflexivity.
    pose proof (marshallable_version item1 _ Hm eq_refl) as Hacc.
    pose proof (incrementable_succ v Hinc) as Hinc1.
    split.
    + intros Hm2.
      destruct (PutItem_first_call cfg fuel' options' item1 w') as (rest & Hcalls).
      { rewrite Hv1. exact Hinc1. }
      { unfold incremented. rewrite Hv1. exact Hm2. }
      unfold incremented in Hcalls. rewrite Hv1 in Hcalls. fold item2 in Hcalls.
      exists (PutItem_params cfg (Some (Num_succ v)) item2), rest.
      split; [exact Hcalls|].
      unfold PutItem_params, PutItem_guard.
      cbn [pi_ConditionExpression pi_ExpressionAttributeValues pi_Item fst snd].
      rewrite (succ_above_sentinel v _ Hinc Hacc).
      cbn [fst snd]. split; [reflexivity|]. split.
      * cbn [mbind option_bind]. rewrite lookup_singleton_eq.
        symmetry. apply marshall_item_version. reflexivity.
      * apply marshall_item_version. reflexivity.
    + intros e Hrefused.
      rewrite (PutItem_record_refused cfg fuel' options' item1 w' e);
        unfold incremented; rewrite Hv1.
      * cbn [fst snd logged calls]. repeat split; reflexivity.
      * exact (guard_refusal_accepted _ _ Hacc).
      * exact Hinc1.
      * fold item2. unfold marshall_instance, marshall in Hrefused.
        destruct (refusal (own_values item2)); congruence.
  - intros n -> _. cbn [Num_succ]. f_equal. lia.
Qed.

Lemma PutItem_accepted_then_next_witness :
  fst (PutItem Sample.cfg 1 no_put_options
         (Sample.thing "a1", Scripted.world [Scripted.Done])) = Ret true /\
  Version (fst (snd (PutItem Sample.cfg 1 no_put_options
                       (Sample.thing "a1", Scripted.world [Scripted.Done]))))
  = Some (Int 0).
Proof.
  pose proof (PutItem_accepted_then_next Sample.cfg 0 no_put_options (Sample.thing "a1")
                (Scripted.world [Scripted.Done]) INITIAL_VERSION_NUMBER []) as H.
  cbv zeta in H.
  refine ((fun H' => conj (proj1 H') (f_equal Version (proj1 (proj2 H')))) (H _ _ _ _)).
  - reflexivity.
  - reflexivity.
  - reflexivity.
  - reflexivity.
Defined.

(** X27.  A record whose [Version()] is [undefined] is written without a
    condition, so the write replaces whatever is stored under its key, and
    [PutItem] never changes the record, whatever the outcome.  When the
    marshaller accepts the record and self-healing is not asked for, the
    write is the only command: [PutItem] returns [true] when the client
    accepts it and raises the client's rejection otherwise.  When the
    marshaller refuses the record, as it does for an instance of an expiring
    class that was built without an expiry, its error is raised and nothing
    is sent. *)
Theorem PutItem_unversioned {C : Type} {SC : StorageClient C} (cfg : Config)
    (fuel : nat) (options : IPutItemOptions) (item : Item) (w : World C) :
  Version item = None ->
  let params := PutItem_params cfg None item in
  pi_ConditionExpression params = None /\
  pi_ExpressionAttributeValues params = None /\
  fst (snd (PutItem cfg fuel options (item, w))) = item /\
  (marshallable item ->
   opt_CreateTableIfNotExists options <> Some true ->
   let r := PutItem cfg (S fuel) options (item, w) in
   calls (snd (snd r)) = calls w ++ [PutItemCommand params] /\
   match fst (putItem params (client w)) with
   | inl _ => fst r = Ret true
   | inr e => fst r = Throw e
   end) /\
  (forall e : JsError,
      marshall_instance item = inr e ->
      let r := PutItem cfg (S fuel) options (item, w) in
      fst r = Throw e /\ calls (snd (snd r)) = calls w).
Proof.
  intros Hv params.
  split; [reflexivity|]. split; [reflexivity|].
  split; [exact (PutItem_unversioned_untouched cfg fuel options item w Hv)|].
  split.
  - intros Hm Hopt r. subst r.
    rewrite (PutItem_write cfg fuel options item w);
      unfold incremented; rewrite Hv; [ | exact I | exact Hm ].
    cbn zeta. fold params.
    destruct (putItem params (client w)) as [[u|error] c1]; cbn [fst snd].
    + split; reflexivity.
    + erewrite PutItem_catch_plain; [|exact Hopt|reflexivity].
      cbn [fst snd logged sent calls]. split; reflexivity.
  - intros e Hrefused r. subst r.
    rewrite (PutItem_record_refused cfg fuel options item w e);
      unfold incremented; rewrite Hv; try exact I; try reflexivity.
    + cbn [fst snd logged calls]. split; reflexivity.
    + unfold marshall_instance, marshall in Hrefused.
      destruct (refusal (own_values item)); congruence.
Qed.

Lemma PutItem_unversioned_witness :
  (fst (PutItem Sample.cfg 1 no_put_options
          (Sample2.event, Scripted.world [Scripted.Reject Sample.conflict]))
   = Throw Sample.conflict /\
   fst (snd (PutItem Sample.cfg 1 no_put_options
               (Sample2.event, Scripted.world [Scripted.Reject Sample.conflict])))
   = Sample2.event) /\
  (fst (PutItem Sample.cfg 1 no_put_options
          (new_Item Sample2.Event 0, Scripted.world [Scripted.Done]))
   = Throw (Error "Special numeric value NaN is not allowed") /\
   calls (snd (snd (PutItem Sample.cfg 1 no_put_options
                      (new_Item Sample2.Event 0, Scripted.world [Scripted.Done]))))
   = []).
Proof.
  split.
  - pose proof (PutItem_unversioned Sample.cfg 0 no_put_options Sample2.event
                  (Scripted.world [Scripted.Reject Sample.conflict]) eq_refl) as H.
    cbv zeta in H.
    refine (conj (proj2 (proj1 (proj2 (proj2 (proj2 H))) _ _)) _).
    + reflexivity.
    + discriminate.
    + exact (proj1 (proj2 (proj2
               (PutItem_unversioned Sample.cfg 1 no_put_options Sample2.event
                  (Scripted.world [Scripted.Reject Sample.conflict]) eq_refl)))).
  - pose proof (PutItem_unversioned Sample.cfg 0 no_put_options (new_Item Sample2.Event 0)
                  (Scripted.world [Scripted.Done]) eq_refl) as H.
    cbv zeta in H.
    exact (proj2 (proj2 (proj2 (proj2 H)))
             (Error "Special numeric value NaN is not allowed") eq_refl).
Defined.

(** ** Optimistic locking on the in-memory service *)
















(** ** Provisioning a table *)

(** X30.  [InitializeTable] without a listing, for a table that is in
    neither of the two listings it fetches, over a client that creates the
    table, describes it as ['ACTIVE'] at the last of [polls] and, for a class
    with a time-to-live field, enables time-to-live: the call returns, and
    it sent the two listings, the create-table command for the schema of the
    class, the polls and, for a class with a time-to-live field, the
    time-to-live request for that field, in this order and nothing else. *)
Theorem InitializeTable_provisions {C : Type} {SC : StorageClient C} (cfg : Config)
    (fuel : nat) (Type_ : ItemType) (options : option ICreateSchemaOptions) (w : World C)
    (names1 names2 : option (list string)) (c1 c2 c3 c4 : C)
    (td0 td : TableDescription) (polls : list Command) :
  listTables (client w) = (inl names1, c1) ->
  includes (default [] names1) (GenerateTableName cfg (BaseTableName Type_)) = false ->
  listTables c1 = (inl names2, c2) ->
  includes (default [] names2) (GenerateTableName cfg (BaseTableName Type_)) = false ->
  createTable (CreateSchema cfg Type_ options) c2 = (inl (Some td0), c3) ->
  becomes_active c3 td0 polls c4 td ->
  length polls <= fuel ->
  match TTLFieldName Type_ with
  | Some attribute =>
      attribute <> "" /\
      fst (updateTimeToLive (ttl_request td attribute) c4) = inl (Some true)
  | None => True
  end ->
  let r := InitializeTable cfg fuel Type_ None options w in
  fst r = Ret tt /\
  calls (snd r)
  = calls w
    ++ [ListTablesCommand; ListTablesCommand;
        CreateTableCommand (CreateSchema cfg Type_ options)]
    ++ polls
    ++ match TTLFieldName Type_ with
       | Some attribute => [UpdateTimeToLiveCommand (ttl_request td attribute)]
       | None => []
       end.
Proof.
  intros Hl1 Hin1 Hl2 Hin2 Hc Hactive Hfuel Httl r.
  set (w2 := logged [entry LInfo "Initialize Table" None]
               (sent ListTablesCommand c1 w)).
  set (w3 := sent ListTablesCommand c2 w2).
  assert (Hne : TTLFieldName Type_ <> Some "").
  { destruct (TTLFieldName Type_) as [a|]; [|discriminate].
    destruct Httl as [Ha _]. congruence. }
  destruct (waitForActive_loop_becomes_active c3 td0 polls c4 td Hactive fuel
              (logged [entry LDebug "Table Created" None]
                 (sent (CreateTableCommand (CreateSchema cfg Type_ options)) c3 w3))
              eq_refl Hfuel)
    as (w4 & Hwait & Hc4 & Hcalls4 & _).
  destruct (CreateTable_after_wait cfg fuel (CreateSchema cfg Type_ options) true
              (TTLFieldName Type_) w3 td0 c3 td w4 Hne Hc Hwait)
    as (w5 & _ & Hcalls5 & _ & Hcreate).
  assert (Hrun : r = (let '(out, w6) := CreateTable cfg fuel (CreateSchema cfg Type_ options)
                                          true (TTLFieldName Type_) w3 in
                      match out with
                      | Ret (Some _) => (Ret tt, w6)
                      | Ret None =>
                          (Throw (Error ("Fatal Error: Could not create "
                                           ++ GenerateTableName cfg (BaseTableName Type_))), w6)
                      | Throw e => (Throw e, w6)
                      | Pending => (Pending, w6)
                      end)).
  { subst r. unfold InitializeTable. unfold ListTables at 1. mrun. rewrite Hl1.
    cbn [fst snd]. rewrite Hin1. mrun.
    unfold CreateTableIfNotExists. unfold ListTables at 1. mrun. rewrite Hl2.
    cbn [fst snd]. replace (cti_TableName (CreateSchema cfg Type_ options))
      with (GenerateTableName cfg (BaseTableName Type_)) by reflexivity.
    rewrite Hin2. unfold w3, w2, logged, sent, entry. cbn [client calls logs now].
    match goal with
    | |- context [CreateTable cfg fuel ?i true ?a ?w0] =>
        destruct (CreateTable cfg fuel i true a w0) as [[[td1|]|e|] w6]
    end; reflexivity. }
  rewrite Hrun, Hcreate.
  cbn [logged sent calls] in Hcalls4.
  assert (Hlog : calls w5 = calls w ++ [ListTablesCommand; ListTablesCommand;
                                         CreateTableCommand (CreateSchema cfg Type_ options)]
                              ++ polls).
  { rewrite Hcalls5, Hcalls4. unfold w3, w2. cbn [logged sent calls].
    rewrite <- !app_assoc. reflexivity. }
  destruct (TTLFieldName Type_) as [attribute|].
  - destruct Httl as [_ Henabled]. cbn zeta. rewrite Hc4.
    destruct (updateTimeToLive (ttl_request td attribute) c4) as [[[[|]|]|e] c6];
      cbn [fst] in Henabled; try discriminate.
    cbn [fst snd sent calls]. split; [reflexivity|].
    rewrite Hlog, <- !app_assoc. reflexivity.
  - cbn [fst snd]. split; [reflexivity|]. rewrite Hlog, app_nil_r. reflexivity.
Qed.

Lemma InitializeTable_provisions_witness :
  fst (InitializeTable Sample.cfg 1 Sample2.Event None None
         (Scripted.world [Scripted.Names None; Scripted.Names (Some ["local.Things"]);
                          Scripted.Table (Some Sample2.events_creating);
                          Scripted.Table (Some Sample2.events_active);
                          Scripted.Flag (Some true)])) = Ret tt /\
  calls (snd (InitializeTable Sample.cfg 1 Sample2.Event None None
         (Scripted.world [Scripted.Names None; Scripted.Names (Some ["local.Things"]);
                          Scripted.Table (Some Sample2.events_creating);
                          Scripted.Table (Some Sample2.events_active);
                          Scripted.Flag (Some true)])))
  = [] ++ [ListTablesCommand; ListTablesCommand;
           CreateTableCommand (CreateSchema Sample.cfg Sample2.Event None)]
       ++ [DescribeTableCommand (Some "local.Events")]
       ++ [UpdateTimeToLiveCommand (ttl_request Sample2.events_active "expiresAt")].
Proof.
  refine (InitializeTable_provisions Sample.cfg 1 Sample2.Event None
            (Scripted.world [Scripted.Names None; Scripted.Names (Some ["local.Things"]);
                             Scripted.Table (Some Sample2.events_creating);
                             Scripted.Table (Some Sample2.events_active);
                             Scripted.Flag (Some true)])
            None (Some ["local.Things"])
            [Scripted.Names (Some ["local.Things"]);
             Scripted.Table (Some Sample2.events_creating);
             Scripted.Table (Some Sample2.events_active); Scripted.Flag (Some true)]
            [Scripted.Table (Some Sample2.events_creating);
             Scripted.Table (Some Sample2.events_active); Scripted.Flag (Some true)]
            [Scripted.Table (Some Sample2.events_active); Scripted.Flag (Some true)]
            [Scripted.Flag (Some true)]
            Sample2.events_creating Sample2.events_active
            [DescribeTableCommand (Some "local.Events")] _ _ _ _ _ _ _ _).
  - reflexivity.
  - reflexivity.
  - reflexivity.
  - reflexivity.
  - reflexivity.
  - apply (becomes_active_later _ Sample2.events_creating
             [Scripted.Flag (Some true)] Sample2.events_active).
    + discriminate.
    + reflexivity.
    + apply becomes_active_now. reflexivity.
  - cbn. lia.
  - split; [discriminate | reflexivity].
Defined.

(** ** Self-healing *)

(** [InitializeTable] with a listing that does not hold the table, over a
    client that does not list it either, creates the table, describes it as
    ['ACTIVE'] at the last of [polls] and, for a class with a time-to-live
    field, enables time-to-live: the call returns, and it sent the listing of
    [CreateTableIfNotExists], the create-table command for the schema of the
    class, the polls and the time-to-live request, and nothing else. *)
Lemma InitializeTable_listed_absent {C : Type} {SC : StorageClient C} (cfg : Config)
    (fuel : nat) (Type_ : ItemType) (options : option ICreateSchemaOptions) (w : World C)
    (listed : list string) (names2 : option (list string)) (c2 c3 c4 : C)
    (td0 td : TableDescription) (polls : list Command) :
  includes listed (GenerateTableName cfg (BaseTableName Type_)) = false ->
  listTables (client w) = (inl names2, c2) ->
  includes (default [] names2) (GenerateTableName cfg (BaseTableName Type_)) = false ->
  createTable (CreateSchema cfg Type_ options) c2 = (inl (Some td0), c3) ->
  becomes_active c3 td0 polls c4 td ->
  length polls <= fuel ->
  match TTLFieldName Type_ with
  | Some attribute =>
      attribute <> "" /\
      fst (updateTimeToLive (ttl_request td attribute) c4) = inl (Some true)
  | None => True
  end ->
  exists w' : World C,
    InitializeTable cfg fuel Type_ (Some listed) options w = (Ret tt, w') /\
    calls w'
    = calls w
      ++ [ListTablesCommand; CreateTableCommand (CreateSchema cfg Type_ options)]
      ++ polls
      ++ match TTLFieldName Type_ with
         | Some attribute => [UpdateTimeToLiveCommand (ttl_request td attribute)]
         | None => []
         end.
Proof.
  intros Hin1 Hl2 Hin2 Hc Hactive Hfuel Httl.
  set (w2 := logged [entry LInfo "Initialize Table" None] w).
  set (w3 := sent ListTablesCommand c2 w2).
  assert (Hne : TTLFieldName Type_ <> Some "").
  { destruct (TTLFieldName Type_) as [a|]; [|discriminate].
    destruct Httl as [Ha _]. congruence. }
  destruct (waitForActive_loop_becomes_active c3 td0 polls c4 td Hactive fuel
              (logged [entry LDebug "Table Created" None]
                 (sent (CreateTableCommand (CreateSchema cfg Type_ options)) c3 w3))
              eq_refl Hfuel)
    as (w4 & Hwait & Hc4 & Hcalls4 & _).
  destruct (CreateTable_after_wait cfg fuel (CreateSchema cfg Type_ options) true
              (TTLFieldName Type_) w3 td0 c3 td w4 Hne Hc Hwait)
    as (w5 & _ & Hcalls5 & _ & Hcreate).
  assert (Hrun : InitializeTable cfg fuel Type_ (Some listed) options w
                 = (let '(out, w6) := CreateTable cfg fuel (CreateSchema cfg Type_ options)
                                        true (TTLFieldName Type_) w3 in
                    match out with
                    | Ret (Some _) => (Ret tt, w6)
                    | Ret None =>
                        (Throw (Error ("Fatal Error: Could not create "
                                         ++ GenerateTableName cfg (BaseTableName Type_))), w6)
                    | Throw e => (Throw e, w6)
                    | Pending => (Pending, w6)
                    end)).
  { unfold InitializeTable. mrun. rewrite Hin1. mrun.
    unfold CreateTableIfNotExists. unfold ListTables at 1. mrun. rewrite Hl2.
    cbn [fst snd]. replace (cti_TableName (CreateSchema cfg Type_ options))
      with (GenerateTableName cfg (BaseTableName Type_)) by reflexivity.
    rewrite Hin2. unfold w3, w2, logged, sent, entry. cbn [client calls logs now].
    match goal with
    | |- context [CreateTable cfg fuel ?i true ?a ?w0] =>
        destruct (CreateTable cfg fuel i true a w0) as [[[td1|]|e|] w6]
    end; reflexivity. }
  rewrite Hrun, Hcreate.
  cbn [logged sent calls] in Hcalls4.
  assert (Hlog : calls w5 = calls w ++ [ListTablesCommand;
                                         CreateTableCommand (CreateSchema cfg Type_ options)]
                              ++ polls).
  { rewrite Hcalls5, Hcalls4. unfold w3, w2. cbn [logged sent calls].
    rewrite <- !app_assoc. reflexivity. }
  destruct (TTLFieldName Type_) as [attribute|].
  - destruct Httl as [_ Henabled]. cbn zeta. rewrite Hc4.
    destruct (updateTimeToLive (ttl_request td attribute) c4) as [[[[|]|]|e] c6];
      cbn [fst] in Henabled; try discriminate.
    cbn [fst snd sent calls]. eexists. split; [reflexivity|].
    cbn [sent calls]. rewrite Hlog, <- !app_assoc. reflexivity.
  - eexists. split; [reflexivity|]. rewrite Hlog, app_nil_r. reflexivity.
Qed.

(** [InitializeTable] with a listing that holds the table sends nothing. *)
Lemma InitializeTable_listed_present {C : Type} {SC : StorageClient C} (cfg : Config)
    (fuel : nat) (Type_ : ItemType) (options : option ICreateSchemaOptions) (w : World C)
    (listed : list string) :
  includes listed (GenerateTableName cfg (BaseTableName Type_)) = true ->
  InitializeTable cfg fuel Type_ (Some listed) options w
  = (Ret tt, logged [entry LInfo "InitializeTable: Table Exists" None] w).
Proof. intros Hin. unfold InitializeTable. mrun. rewrite Hin. mrun. reflexivity. Qed.

(** A [PutItem] without self-healing of a record that the marshaller accepts
    once incremented and whose version can be taken back: the write is the
    only command, and the outcome is the client's. *)
Lemma PutItem_plain_outcome {C : Type} {SC : StorageClient C} (cfg : Config) (fuel : nat)
    (options : IPutItemOptions) (item : Item) (w : World C) :
  opt_CreateTableIfNotExists options <> Some true ->
  match Version item with Some v => restorable v = true | None => True end ->
  marshallable (incremented (now w) item) ->
  let params := PutItem_params cfg (Version item) (incremented (now w) item) in
  let r := PutItem cfg (S fuel) options (item, w) in
  calls (snd (snd r)) = calls w ++ [PutItemCommand params] /\
  match fst (putItem params (client w)) with
  | inl _ => fst r = Ret true
  | inr e => fst r = Throw e /\ Version (fst (snd r)) = Version item
  end.
Proof.
  intros Hopt Hok Hm params r.
  assert (Hinc : match Version item with Some v => incrementable v = true | None => True end).
  { destruct (Version item); [apply restorable_incrementable; exact Hok | exact I]. }
  split; [exact (PutItem_plain_exact cfg fuel options item w Hopt Hinc Hm)|].
  subst r. rewrite (PutItem_write cfg fuel options item w Hinc Hm). cbn zeta. fold params.
  destruct (putItem params (client w)) as [[u|error] c1]; cbn [fst snd]; [reflexivity|].
  assert (Hback : exists item2,
             match Version item with
             | Some v => Version_set (now w) v (incremented (now w) item)
             | None => inl (incremented (now w) item)
             end = inl item2 /\ Version item2 = Version item).
  { unfold incremented. destruct (Version item) as [v|] eqn:Hv.
    - destruct (Version_set_back (now w) (MarkUpdated (now w) (set_version (Num_succ v) item))
                  v eq_refl Hok) as (item2 & Hset & Hv2 & _).
      exists item2. auto.
    - exists item. auto. }
  destruct Hback as (item2 & Hback & Hv2).
  erewrite PutItem_catch_plain; [|exact Hopt|exact Hback].
  cbn [fst snd]. split; [reflexivity | exact Hv2].
Qed.

(** C5, as the code has it.  [PutItem] was asked to create the table if it
    does not exist and was given the class; the record is one without a
    version or whose version is the sentinel or a number that is not
    negative, and which the marshaller accepts; the write fails with
    [ResourceNotFoundException].  Then the version is taken back and the
    next command is [ListTables].  If the listing holds the table name,
    nothing more is sent and the error of the write is raised.  If it does
    not, [InitializeTable] runs for the class on that listing and, once it
    returns, the call is the call
    [PutItem(item, { CreateTableIfNotExists: false })], which sends exactly
    one write and nothing else and whose outcome is the client's answer to
    that write.  [InitializeTable] sends nothing when the listing holds the
    table of the class.  When it does not, and the client does not list the
    table either, creates it and reports it ['ACTIVE'], the commands of the
    whole call are, in this order: the write, the listing, the listing of
    [CreateTableIfNotExists], the create-table command for the schema of the
    class, the polls, the time-to-live request for a class with a
    time-to-live field, and the second write.  Any call of [PutItem] sends
    at most two writes and at most one create-table request. *)
Theorem PutItem_self_heals_once
    {C : Type} {SC : StorageClient C} (cfg : Config) (fuel : nat)
    (options : IPutItemOptions) (Class_ : ItemType) (item : Item) (w : World C)
    (error : JsError) (names : option (list string)) (c2 : C) :
  opt_CreateTableIfNotExists options = Some true ->
  Class options = Some Class_ ->
  match Version item with Some v => restorable v = true | None => True end ->
  let item1 := incremented (now w) item in
  marshallable item1 ->
  let params := PutItem_params cfg (Version item) item1 in
  let w1 := sent (PutItemCommand params) (snd (putItem params (client w)))
              (logged (before_write (Version item) item1) w) in
  fst (putItem params (client w)) = inr error ->
  is_ResourceNotFound error = true ->
  listTables (client w1) = (inl names, c2) ->
  let r := PutItem cfg (S (S fuel)) options (item, w) in
  let healed := {| opt_CreateTableIfNotExists := Some false;
                   CreateSchemaOptions := None; Class := None |} in
  let listed := default [] names in
  let table := GenerateTableName cfg (BaseTableName Class_) in
  let schema := CreateSchema cfg Class_ (CreateSchemaOptions options) in
  (includes listed (pi_TableName params) = true ->
   fst r = Throw error /\
   Version (fst (snd r)) = Version item /\
   calls (snd (snd r)) = calls w ++ [PutItemCommand params; ListTablesCommand]) /\
  (includes listed (pi_TableName params) = false ->
   exists (item2 : Item) (w2 : World C),
     Version item2 = Version item /\
     client w2 = c2 /\
     calls w2 = calls w ++ [PutItemCommand params; ListTablesCommand] /\
     r = match InitializeTable cfg (S fuel) Class_ (Some listed)
                 (CreateSchemaOptions options) w2 with
         | (Ret _, w3) => PutItem cfg (S fuel) healed (item2, w3)
         | (Throw e, w3) => (Throw e, (item2, w3))
         | (Pending, w3) => (Pending, (item2, w3))
         end /\
     (forall w3 : World C,
         marshallable (incremented (now w3) item2) ->
         let again := PutItem_params cfg (Version item) (incremented (now w3) item2) in
         let r' := PutItem cfg (S fuel) healed (item2, w3) in
         calls (snd (snd r')) = calls w3 ++ [PutItemCommand again] /\
         match fst (putItem again (client w3)) with
         | inl _ => fst r' = Ret true
         | inr e => fst r' = Throw e /\ Version (fst (snd r')) = Version item
         end) /\
     (includes listed table = true ->
      exists w3 : World C,
        InitializeTable cfg (S fuel) Class_ (Some listed) (CreateSchemaOptions options) w2
        = (Ret tt, w3) /\
        client w3 = c2 /\ calls w3 = calls w2) /\
     (forall (names2 : option (list string)) (c3 c4 c5 : C) (td0 td : TableDescription)
             (polls : list Command),
         includes listed table = false ->
         listTables c2 = (inl names2, c3) ->
         includes (default [] names2) table = false ->
         createTable schema c3 = (inl (Some td0), c4) ->
         becomes_active c4 td0 polls c5 td ->
         length polls <= S fuel ->
         match TTLFieldName Class_ with
         | Some attribute =>
             attribute <> "" /\
             fst (updateTimeToLive (ttl_request td attribute) c5) = inl (Some true)
         | None => True
         end ->
         exists w3 : World C,
           let provisioning :=
             [PutItemCommand params; ListTablesCommand; ListTablesCommand;
              CreateTableCommand schema]
             ++ polls
             ++ match TTLFieldName Class_ with
                | Some attribute => [UpdateTimeToLiveCommand (ttl_request td attribute)]
                | None => []
                end in
           InitializeTable cfg (S fuel) Class_ (Some listed) (CreateSchemaOptions options) w2
           = (Ret tt, w3) /\
           calls w3 = calls w ++ provisioning /\
           r = PutItem cfg (S fuel) healed (item2, w3) /\
           (marshallable (incremented (now w3) item2) ->
            calls (snd (snd r))
            = calls w ++ provisioning
              ++ [PutItemCommand
                    (PutItem_params cfg (Version item) (incremented (now w3) item2))]))) /\
  grew (within 2 1) w (snd (snd r)).
Proof.
  intros Hopt Hclass Hok item1 Hm params w1 Hreject Hrnf Hlist r healed listed table schema.
  assert (Hinc : match Version item with Some v => incrementable v = true | None => True end).
  { destruct (Version item); [apply restorable_incrementable; exact Hok | exact I]. }
  assert (Hback : exists item2,
             match Version item with
             | Some v => Version_set (now w1) v item1
             | None => inl item1
             end = inl item2 /\ Version item2 = Version item).
  { subst item1. unfold incremented. destruct (Version item) as [v|] eqn:Hv.
    - destruct (Version_set_back (now w1) (MarkUpdated (now w) (set_version (Num_succ v) item))
                  v eq_refl Hok) as (item2 & Hset & Hv2 & _).
      exists item2. auto.
    - exists item. auto. }
  destruct Hback as (item2 & Hback & Hv2).
  assert (Hr : r = PutItem_catch cfg (PutItem cfg (S fuel)) (S fuel) (Version item) params
                     options error (item1, w1)).
  { subst r. rewrite (PutItem_write cfg (S fuel) options item w Hinc Hm). cbn zeta.
    fold item1. fold params. rewrite Hreject. reflexivity. }
  rewrite (PutItem_catch_heal cfg (PutItem cfg (S fuel)) (S fuel) (Version item) params
             options Class_ error item1 item2 w1 names c2 Hopt Hclass Hrnf Hback Hlist) in Hr.
  cbn zeta in Hr. fold listed in Hr.
  assert (Hcalls1 : calls w1 = calls w ++ [PutItemCommand params]).
  { unfold w1, sent, logged. reflexivity. }
  split; [|split].
  - intros Hin. rewrite Hin in Hr. rewrite Hr. cbn [fst snd].
    split; [reflexivity|]. split; [exact Hv2|].
    cbn [sent logged calls]. rewrite Hcalls1, <- app_assoc. reflexivity.
  - intros Hout. rewrite Hout in Hr.
    match type of Hr with
    | context [InitializeTable _ _ _ _ _ ?w0] => set (w2 := w0) in *
    end.
    assert (Hcalls2 : calls w2 = calls w ++ [PutItemCommand params; ListTablesCommand]).
    { unfold w2. cbn [sent logged calls]. rewrite Hcalls1, <- app_assoc. reflexivity. }
    assert (Hretry : forall w3 : World C,
               marshallable (incremented (now w3) item2) ->
               let again := PutItem_params cfg (Version item) (incremented (now w3) item2) in
               let r' := PutItem cfg (S fuel) healed (item2, w3) in
               calls (snd (snd r')) = calls w3 ++ [PutItemCommand again] /\
               match fst (putItem again (client w3)) with
               | inl _ => fst r' = Ret true
               | inr e => fst r' = Throw e /\ Version (fst (snd r')) = Version item
               end).
    { intros w3 Hm3. rewrite <- Hv2.
      apply (PutItem_plain_outcome cfg fuel healed item2 w3);
        [discriminate | rewrite Hv2; exact Hok | exact Hm3]. }
    exists item2, w2. split; [exact Hv2|]. split; [reflexivity|].
    split; [exact Hcalls2|]. split; [exact Hr|]. split; [exact Hretry|]. split.
    + intros Hin. eexists. split.
      * apply InitializeTable_listed_present. exact Hin.
      * split; reflexivity.
    + intros names2 c3 c4 c5 td0 td polls Hin1 Hl2 Hin2 Hcreate Hactive Hfuel Httl.
      destruct (InitializeTable_listed_absent cfg (S fuel) Class_ (CreateSchemaOptions options)
                  w2 listed names2 c3 c4 c5 td0 td polls Hin1 Hl2 Hin2 Hcreate Hactive
                  Hfuel Httl) as (w3 & Hinit & Hcalls3).
      exists w3. cbn zeta.
      assert (Hlog : calls w3
                     = calls w ++ [PutItemCommand params; ListTablesCommand; ListTablesCommand;
                                   CreateTableCommand schema]
                         ++ polls
                         ++ match TTLFieldName Class_ with
                            | Some attribute =>
                                [UpdateTimeToLiveCommand (ttl_request td attribute)]
                            | None => []
                            end).
      { rewrite Hcalls3, Hcalls2, <- !app_assoc. reflexivity. }
      rewrite Hinit in Hr. change (r = PutItem cfg (S fuel) healed (item2, w3)) in Hr.
      split; [exact Hinit|]. split; [exact Hlog|]. split; [exact Hr|].
      intros Hm3. rewrite Hr.
      rewrite (proj1 (Hretry w3 Hm3)), Hlog, <- !app_assoc. reflexivity.
  - apply PutItem_calls.
Qed.

Lemma PutItem_self_heals_once_witness :
  (fst (PutItem Sample.cfg 3 Sample.heal
          (Sample.thing "a1",
           Scripted.world [Scripted.Reject Sample.not_found;
                           Scripted.Names (Some ["local.Things"])]))
   = Throw Sample.not_found /\
   calls (snd (snd (PutItem Sample.cfg 3 Sample.heal
                      (Sample.thing "a1",
                       Scripted.world [Scripted.Reject Sample.not_found;
                                       Scripted.Names (Some ["local.Things"])]))))
   = [PutItemCommand
        (PutItem_params Sample.cfg (Some INITIAL_VERSION_NUMBER)
           (MarkUpdated 0 (set_version 0 (Sample.thing "a1"))));
      ListTablesCommand]) /\
  grew (within 2 1) (Service.world Sample.empty_service)
       (snd (snd (PutItem Sample.cfg 6 Sample.heal
                    (Sample.thing "a1", Service.world Sample.empty_service)))).
Proof.
  split.
  - pose proof (PutItem_self_heals_once Sample.cfg 1 Sample.heal Sample.Thing
                  (Sample.thing "a1")
                  (Scripted.world [Scripted.Reject Sample.not_found;
                                   Scripted.Names (Some ["local.Things"])])
                  Sample.not_found (Some ["local.Things"]) []) as H.
    cbv zeta in H.
    refine ((fun H' => conj (proj1 H') (proj2 (proj2 H'))) (proj1 (H _ _ _ _ _ _ _) _)).
    + reflexivity.
    + reflexivity.
    + reflexivity.
    + reflexivity.
    + reflexivity.
    + reflexivity.
    + reflexivity.
    + reflexivity.
  - pose proof (PutItem_self_heals_once Sample.cfg 4 Sample.heal Sample.Thing
                  (Sample.thing "a1") (Service.world Sample.empty_service)
                  (Service.fault "ResourceNotFoundException") (Some [])
                  Sample.empty_service) as H.
    cbv zeta in H.
    refine (proj2 (proj2 (H _ _ _ _ _ _ _))).
    + reflexivity.
    + reflexivity.
    + reflexivity.
    + reflexivity.
    + reflexivity.
    + reflexivity.
    + reflexivity.
Defined.

(** C5 as the specification states it fails for a version that
    [Version(value)] does not take back.  A record at version [-0.5], with
    [CreateTableIfNotExists] set and the class given: the client rejects the
    write for a missing table; the rollback, which comes first in the
    [catch] block, throws ['version must be a positive integer'], and the
    tables are not listed, the table is not created and the write is not
    sent again. *)
Lemma PutItem_heal_rollback_refused :
  Version Sample.half = Some (Frac (-1) 1) /\
  opt_CreateTableIfNotExists Sample.heal = Some true /\
  Class Sample.heal = Some (item_type Sample.half) /\
  is_ResourceNotFound Sample.not_found = true /\
  fst (PutItem Sample.cfg 6 Sample.heal
         (Sample.half,
          Scripted.world [Scripted.Reject Sample.not_found; Scripted.Names (Some []);
                          Scripted.Names (Some []);
                          Scripted.Table (Some Sample2.events_active); Scripted.Done]))
  = Throw (Error "version must be a positive integer") /\
  calls (snd (snd (PutItem Sample.cfg 6 Sample.heal
                     (Sample.half,
                      Scripted.world [Scripted.Reject Sample.not_found;
                                      Scripted.Names (Some []); Scripted.Names (Some []);
                                      Scripted.Table (Some Sample2.events_active);
                                      Scripted.Done]))))
  = [PutItemCommand
       (PutItem_params Sample.cfg (Some (Frac (-1) 1))
          (MarkUpdated 0 (set_version (Frac 1 1) Sample.half)))].
Proof. vm_compute. repeat split. Qed.
